(** * Retrieval-augmented chat orchestrator: a shallow embedding

    The development follows the NestJS services of the repository:

    - [KnowledgeService]  (knowledge.service.ts): chunking, cosine similarity,
      similarity search;
    - [withRateLimitAndRetry] (ai.rate-limit.ts) and [AiService]
      (ai.service.ts): the generation client;
    - [ChatService] (chat.service.ts) and [ChatController]
      (chat.controller.ts): the orchestrator and the streaming endpoint.

    Asynchronous methods are embedded as functions of a small state-and-
    exception monad over a [World] that holds the document store, the
    in-memory conversation cache with the array objects it references, and
    the behaviour of the remote collaborators (store faults, embedding and
    generation provider, scheduler load, [Math.random]). *)

From Stdlib Require Import ZArith List String Ascii Bool Lia.
From Stdlib Require Import Floats SpecFloat FloatAxioms Sorted.
From Stdlib Require Reals Lra.
From stdpp Require Import gmap.
Import ListNotations.

Local Open Scope string_scope.
Local Open Scope list_scope.

(** ** JavaScript strings

    A string is a sequence of code units; the model covers code units below
    256, which [ascii] represents. *)
Module JsString.

(** [\s] of a regular expression and the white space [trim] removes, on
    code units below 256: TAB, LF, VT, FF, CR, SPACE and NBSP. *)
Definition isWhiteSpace (c : ascii) : bool :=
  let n := nat_of_ascii c in
  ((9 <=? n)%nat && (n <=? 13)%nat) || (n =? 32)%nat || (n =? 160)%nat.

(** The character class [[.!?]]. *)
Definition isSentenceEnd (c : ascii) : bool :=
  Ascii.eqb c "." || Ascii.eqb c "!" || Ascii.eqb c "?".

Definition isEmpty (s : string) : bool :=
  match s with EmptyString => true | String _ _ => false end.

Fixpoint trimStart (s : string) : string :=
  match s with
  | EmptyString => EmptyString
  | String c rest => if isWhiteSpace c then trimStart rest else s
  end.

Fixpoint trimEnd (s : string) : string :=
  match s with
  | EmptyString => EmptyString
  | String c rest =>
      let r := trimEnd rest in
      if isWhiteSpace c && isEmpty r then EmptyString else String c r
  end.

(** [String.prototype.trim]. *)
Definition trim (s : string) : string := trimEnd (trimStart s).

(** State of the scan that [text.split(/(?<=[.!?])\s+/)] performs: inside
    a piece (remembering whether the previous code unit is one of [.!?],
    which is what the look-behind inspects), or inside a separator, a
    maximal run of white space that started right after such a unit. *)
Inductive SplitMode := InPiece (afterEnd : bool) | InSeparator.

Fixpoint splitGo (cur : string) (mode : SplitMode) (s : string) : list string :=
  match s with
  | EmptyString => [cur]
  | String c rest =>
      match mode with
      | InSeparator =>
          if isWhiteSpace c then splitGo EmptyString InSeparator rest
          else splitGo (String c EmptyString) (InPiece (isSentenceEnd c)) rest
      | InPiece afterEnd =>
          if afterEnd && isWhiteSpace c
          then cur :: splitGo EmptyString InSeparator rest
          else splitGo (cur ++ String c EmptyString) (InPiece (isSentenceEnd c)) rest
      end
  end.

(** [text.split(/(?<=[.!?])\s+/)]: the pieces between the separators, in
    order; a text without separator (the empty text too) is one piece. *)
Definition splitSentences (text : string) : list string :=
  splitGo EmptyString (InPiece false) text.

Fixpoint splitOnGo (sep : ascii) (cur : string) (s : string) : list string :=
  match s with
  | EmptyString => [cur]
  | String c rest =>
      if Ascii.eqb c sep then cur :: splitOnGo sep EmptyString rest
      else splitOnGo sep (cur ++ String c EmptyString) rest
  end.

(** [s.split(' ')] for a separator of one code unit. *)
Definition splitOn (sep : ascii) (s : string) : list string :=
  splitOnGo sep EmptyString s.

Definition toLowerAscii (c : ascii) : ascii :=
  let n := nat_of_ascii c in
  if (65 <=? n)%nat && (n <=? 90)%nat then ascii_of_nat (n + 32) else c.

(** [String.prototype.toLowerCase] on the letters A to Z. *)
Fixpoint toLowerCase (s : string) : string :=
  match s with
  | EmptyString => EmptyString
  | String c rest => String (toLowerAscii c) (toLowerCase rest)
  end.

(** [String.prototype.includes]. *)
Fixpoint includes (s sub : string) : bool :=
  String.prefix sub s ||
  match s with
  | EmptyString => false
  | String _ rest => includes rest sub
  end.

(** [Array.prototype.join] on strings. *)
Fixpoint join (sep : string) (l : list string) : string :=
  match l with
  | [] => EmptyString
  | [x] => x
  | x :: rest => x ++ sep ++ join sep rest
  end.

(** The canonical text of an ObjectId: 24 hexadecimal digits. *)
Definition hexDigit (n : N) : ascii :=
  nth (N.to_nat n) (list_ascii_of_string "0123456789abcdef") "0"%char.

Fixpoint hexDigits (count : nat) (n : N) (acc : string) : string :=
  match count with
  | 0 => acc
  | S count' => hexDigits count' (n / 16)%N (String (hexDigit (n mod 16)%N) acc)
  end.

Definition toHexString (id : N) : string := hexDigits 24 id EmptyString.

End JsString.

(** ** JavaScript numbers

    The services compute on numbers through a handful of operations. The
    code is written once against this interface; [binary64] is the
    arithmetic the program runs on (IEEE 754 doubles), [exactReal] is exact
    real arithmetic, the reading under which the documentation of the
    similarity measure is meant. *)
Class Number (num : Type) := {
  num_zero : num;
  num_half : num;                      (* the literal 0.5 *)
  num_add : num -> num -> num;
  num_sub : num -> num -> num;
  num_mul : num -> num -> num;
  num_div : num -> num -> num;
  num_sqrt : num -> num;               (* Math.sqrt *)
  num_eqb : num -> num -> bool;        (* === *)
  num_leb : num -> num -> bool;        (* <= *)
  num_ltb : num -> num -> bool;        (* < *)
  num_truthy : num -> bool             (* ToBoolean: neither 0 nor NaN *)
}.

#[global] Instance binary64 : Number PrimFloat.float := {|
  num_zero := PrimFloat.zero;
  num_half := 0.5%float;
  num_add := PrimFloat.add;
  num_sub := PrimFloat.sub;
  num_mul := PrimFloat.mul;
  num_div := PrimFloat.div;
  num_sqrt := PrimFloat.sqrt;
  num_eqb := PrimFloat.eqb;
  num_leb := PrimFloat.leb;
  num_ltb := PrimFloat.ltb;
  num_truthy := fun x => negb (PrimFloat.eqb x PrimFloat.zero) && PrimFloat.eqb x x
|}.

Definition Rbool {P Q : Prop} (d : {P} + {Q}) : bool := if d then true else false.

#[global] Instance exactReal : Number Rdefinitions.R := {|
  num_zero := Rdefinitions.IZR 0;
  num_half := Rdefinitions.Rdiv (Rdefinitions.IZR 1) (Rdefinitions.IZR 2);
  num_add := Rdefinitions.Rplus;
  num_sub := Rdefinitions.Rminus;
  num_mul := Rdefinitions.Rmult;
  num_div := Rdefinitions.Rdiv;
  num_sqrt := R_sqrt.sqrt;
  num_eqb := fun x y => Rbool (RIneq.Req_dec_T x y);
  num_leb := fun x y => Rbool (RIneq.Rle_dec x y);
  num_ltb := fun x y => Rbool (RIneq.Rlt_dec x y);
  num_truthy := fun x => negb (Rbool (RIneq.Req_dec_T x (Rdefinitions.IZR 0)))
|}.

(** ** Runtime: exceptions, documents, the world *)

(** Thrown values. [HttpException] stands for Nest's [HttpException] and
    its subclasses (the [OpenAi...Exception] classes of the repository are
    among them), told apart by their status; [JsError] is any other [Error]
    object, with the [status] property that SDK errors carry. *)
Inductive Exception :=
| HttpException (status : Z) (message : string)
| JsError (name message : string) (status : option Z).

(** [err?.status ?? err?.response?.status]. *)
Definition exn_status (e : Exception) : option Z :=
  match e with
  | HttpException status _ => Some status
  | JsError _ _ status => status
  end.

Definition exn_message (e : Exception) : string :=
  match e with
  | HttpException _ message => message
  | JsError _ message _ => message
  end.

Definition exn_name (e : Exception) : string :=
  match e with
  | HttpException _ _ => "HttpException"
  | JsError name _ _ => name
  end.

(** [error instanceof HttpException]. *)
Definition isHttpException (e : Exception) : bool :=
  match e with HttpException _ _ => true | JsError _ _ _ => false end.

Definition InternalServerErrorException := HttpException 500.
Definition OpenAiRateLimitException := HttpException 429.
Definition OpenAiMisconfiguredException := HttpException 500.
Definition OpenAiUnavailableException := HttpException 503.
Definition OpenAiInvalidResponseException := HttpException 502.

(** Identifiers are ObjectIds; their canonical hexadecimal string, the key
    of the conversation cache, is identified with them. Requests are taken
    to carry well-formed identifiers. *)
Abbreviation ObjectId := N (only parsing).
Abbreviation Timestamp := N (only parsing).
(** References to array objects on the JavaScript heap. *)
Abbreviation loc := nat (only parsing).

Inductive Role := user | assistant | system.

Record MessageHistory := { role : Role; content : string }.

Record Conversation := {
  c_id : ObjectId;
  c_studentId : ObjectId;
  c_title : string;
  c_isActive : bool;
  c_lastMessageAt : Timestamp;
  c_messageCount : Z
}.

Record MessageMetadata := { tokensUsed : option Z; model : option string }.

Record ChatMessage := {
  m_id : ObjectId;
  m_conversationId : ObjectId;
  m_role : Role;
  m_content : string;
  m_metadata : option MessageMetadata;
  m_createdAt : Timestamp
}.

Record ChunkMetadata := { pageNumber : option Z; section : option string }.

Record KnowledgeChunk (num : Type) := {
  k_courseId : ObjectId;
  k_content : string;
  k_embedding : list num;
  k_sourceFile : string;
  k_chunkIndex : Z;
  k_metadata : option ChunkMetadata
}.
Arguments k_courseId {num}.
Arguments k_content {num}.
Arguments k_embedding {num}.
Arguments k_sourceFile {num}.
Arguments k_chunkIndex {num}.
Arguments k_metadata {num}.

(** What [openai.responses.create] settles to. *)
Inductive ProviderReply :=
| Rejects (e : Exception)
| Resolves (output_text : option string) (total_tokens : option Z) (model : string).

Record StreamEvent := { ev_type : string; ev_delta : option string }.

(** What [openai.responses.create({stream: true})] settles to: a rejection,
    or a stream delivering [events] and then either ending or raising. *)
Inductive ProviderStream :=
| StreamRejects (e : Exception)
| StreamOpens (events : list StreamEvent) (failure : option Exception).

(** Configuration and the behaviour of the collaborators the services call
    but do not implement. *)
Record Env (num : Type) := {
  apiKey : bool;                        (* OPENAI_API_KEY is set *)
  chatModel : string;                   (* OPENAI_CHAT_MODEL || 'gpt-4' *)
  messageCountDefault : Z;              (* schema default of messageCount *)
  storeFault : nat -> option Exception; (* the n-th store call rejects *)
  embeddingsCreate : string -> Exception + (list num * Z);
  responsesCreate : nat -> string -> list MessageHistory -> ProviderReply;
  responsesStream : string -> list MessageHistory -> ProviderStream;
  limiterQueued : nat;                  (* jobs queued in the limiter *)
  limiterDropped : Exception;           (* rejection of a dropped job *)
  mathRandom : nat -> nat -> nat        (* n-th Math.floor(Math.random() * k) *)
}.
Arguments apiKey {num}.
Arguments chatModel {num}.
Arguments messageCountDefault {num}.
Arguments storeFault {num}.
Arguments embeddingsCreate {num}.
Arguments responsesCreate {num}.
Arguments responsesStream {num}.
Arguments limiterQueued {num}.
Arguments limiterDropped {num}.
Arguments mathRandom {num}.

Record World (num : Type) := {
  env : Env num;
  conversations : list Conversation;
  chatMessages : list ChatMessage;
  knowledgeChunks : list (KnowledgeChunk num);
  nextObjectId : ObjectId;
  clock : Timestamp;
  (* ChatService.conversationCache : Map<string, MessageHistory[]> *)
  conversationCache : gmap N loc;
  arrays : gmap nat (list MessageHistory);
  storeCalls : nat;
  responseCalls : nat;
  randomCalls : nat;
  sleptMs : N
}.
Arguments env {num}.
Arguments conversations {num}.
Arguments chatMessages {num}.
Arguments knowledgeChunks {num}.
Arguments nextObjectId {num}.
Arguments clock {num}.
Arguments conversationCache {num}.
Arguments arrays {num}.
Arguments storeCalls {num}.
Arguments responseCalls {num}.
Arguments randomCalls {num}.
Arguments sleptMs {num}.

Inductive Outcome (A : Type) :=
| Returned (a : A)
| Thrown (e : Exception).
Arguments Returned {A}.
Arguments Thrown {A}.

Section Runtime.
Context {num : Type}.

Definition set_conversations (v : list Conversation) (w : World num) : World num :=
  {| env := env w; conversations := v; chatMessages := chatMessages w;
     knowledgeChunks := knowledgeChunks w; nextObjectId := nextObjectId w;
     clock := clock w; conversationCache := conversationCache w;
     arrays := arrays w; storeCalls := storeCalls w;
     responseCalls := responseCalls w; randomCalls := randomCalls w;
     sleptMs := sleptMs w |}.

Definition set_chatMessages (v : list ChatMessage) (w : World num) : World num :=
  {| env := env w; conversations := conversations w; chatMessages := v;
     knowledgeChunks := knowledgeChunks w; nextObjectId := nextObjectId w;
     clock := clock w; conversationCache := conversationCache w;
     arrays := arrays w; storeCalls := storeCalls w;
     responseCalls := responseCalls w; randomCalls := randomCalls w;
     sleptMs := sleptMs w |}.

(** A document is created: it takes the next identifier and the clock
    advances, so creation times are strictly increasing. *)
Definition tick (w : World num) : World num :=
  {| env := env w; conversations := conversations w; chatMessages := chatMessages w;
     knowledgeChunks := knowledgeChunks w; nextObjectId := N.succ (nextObjectId w);
     clock := N.succ (clock w); conversationCache := conversationCache w;
     arrays := arrays w; storeCalls := storeCalls w;
     responseCalls := responseCalls w; randomCalls := randomCalls w;
     sleptMs := sleptMs w |}.

Definition set_cache (c : gmap N loc) (a : gmap nat (list MessageHistory))
    (w : World num) : World num :=
  {| env := env w; conversations := conversations w; chatMessages := chatMessages w;
     knowledgeChunks := knowledgeChunks w; nextObjectId := nextObjectId w;
     clock := clock w; conversationCache := c;
     arrays := a; storeCalls := storeCalls w;
     responseCalls := responseCalls w; randomCalls := randomCalls w;
     sleptMs := sleptMs w |}.

Definition set_storeCalls (n : nat) (w : World num) : World num :=
  {| env := env w; conversations := conversations w; chatMessages := chatMessages w;
     knowledgeChunks := knowledgeChunks w; nextObjectId := nextObjectId w;
     clock := clock w; conversationCache := conversationCache w;
     arrays := arrays w; storeCalls := n;
     responseCalls := responseCalls w; randomCalls := randomCalls w;
     sleptMs := sleptMs w |}.

Definition set_responseCalls (n : nat) (w : World num) : World num :=
  {| env := env w; conversations := conversations w; chatMessages := chatMessages w;
     knowledgeChunks := knowledgeChunks w; nextObjectId := nextObjectId w;
     clock := clock w; conversationCache := conversationCache w;
     arrays := arrays w; storeCalls := storeCalls w;
     responseCalls := n; randomCalls := randomCalls w;
     sleptMs := sleptMs w |}.

Definition set_random (n : nat) (ms : N) (w : World num) : World num :=
  {| env := env w; conversations := conversations w; chatMessages := chatMessages w;
     knowledgeChunks := knowledgeChunks w; nextObjectId := nextObjectId w;
     clock := clock w; conversationCache := conversationCache w;
     arrays := arrays w; storeCalls := storeCalls w;
     responseCalls := responseCalls w; randomCalls := n;
     sleptMs := ms |}.

Definition set_knowledgeChunks (v : list (KnowledgeChunk num)) (w : World num)
    : World num :=
  {| env := env w; conversations := conversations w; chatMessages := chatMessages w;
     knowledgeChunks := v; nextObjectId := nextObjectId w;
     clock := clock w; conversationCache := conversationCache w;
     arrays := arrays w; storeCalls := storeCalls w;
     responseCalls := responseCalls w; randomCalls := randomCalls w;
     sleptMs := sleptMs w |}.

(** *** Asynchronous functions

    An [async] function is run to completion: it returns or throws, and
    the effects it had before throwing stay. *)
Definition Async (A : Type) : Type := World num -> Outcome A * World num.

Definition ret {A} (a : A) : Async A := fun w => (Returned a, w).
Definition throw {A} (e : Exception) : Async A := fun w => (Thrown e, w).

Definition bind {A B} (m : Async A) (k : A -> Async B) : Async B :=
  fun w =>
    match m w with
    | (Returned a, w') => k a w'
    | (Thrown e, w') => (Thrown e, w')
    end.

(** [try { body } catch (error) { handler }] around awaited calls. *)
Definition tryCatch {A} (body : Async A) (handler : Exception -> Async A) : Async A :=
  fun w =>
    match body w with
    | (Returned a, w') => (Returned a, w')
    | (Thrown e, w') => handler e w'
    end.

Definition getWorld : Async (World num) := fun w => (Returned w, w).
Definition modifyWorld (f : World num -> World num) : Async unit :=
  fun w => (Returned tt, f w).

(** [await Promise.all([a, b])]: both operations are started, the second
    whatever becomes of the first; the result is the pair of their values,
    or a rejection when one of them rejects (that of [a] when both do: the
    callers treat the two alike). *)
Definition promiseAll2 {A B} (a : Async A) (b : Async B) : Async (A * B) :=
  fun w =>
    match a w with
    | (ra, w1) =>
        match b w1 with
        | (rb, w2) =>
            match ra, rb with
            | Returned x, Returned y => (Returned (x, y), w2)
            | Thrown e, _ => (Thrown e, w2)
            | Returned _, Thrown e => (Thrown e, w2)
            end
        end
    end.

(** *** Asynchronous generators

    An [async function*] consumed to its end: the values it yielded, in
    order, then its completion. *)
Definition Gen (Y A : Type) : Type := World num -> list Y * Outcome A * World num.

Definition gret {Y A} (a : A) : Gen Y A := fun w => ([], Returned a, w).
Definition yield {Y} (y : Y) : Gen Y unit := fun w => ([y], Returned tt, w).

Definition gbind {Y A B} (m : Gen Y A) (k : A -> Gen Y B) : Gen Y B :=
  fun w =>
    match m w with
    | (ys, Returned a, w') =>
        match k a w' with (ys', r, w'') => (ys ++ ys', r, w'') end
    | (ys, Thrown e, w') => (ys, Thrown e, w')
    end.

(** [await] inside a generator. *)
Definition await {Y A} (m : Async A) : Gen Y A :=
  fun w => match m w with (r, w') => ([], r, w') end.

Definition gtryCatch {Y A} (body : Gen Y A) (handler : Exception -> Gen Y A) : Gen Y A :=
  fun w =>
    match body w with
    | (ys, Returned a, w') => (ys, Returned a, w')
    | (ys, Thrown e, w') =>
        match handler e w' with (ys', r, w'') => (ys ++ ys', r, w'') end
    end.

End Runtime.

Declare Scope async_scope.
Delimit Scope async_scope with async.
Notation "'let*' x ':=' m 'in' k" := (bind m (fun x => k))
  (at level 10, x name, m at level 100, k at level 200)
  : async_scope.
Declare Scope gen_scope.
Delimit Scope gen_scope with gen.
Notation "'let*' x ':=' m 'in' k" := (gbind m (fun x => k))
  (at level 10, x name, m at level 100, k at level 200)
  : gen_scope.

(** ** Sorting and slicing of arrays *)

(** Insertion of [x] into a sorted list: [x] moves past [y] only when the
    comparison puts it strictly after [y]. *)
Fixpoint insertBy {A} (after : A -> A -> bool) (x : A) (l : list A) : list A :=
  match l with
  | [] => [x]
  | y :: ys => if after x y then y :: insertBy after x ys else x :: l
  end.

(** The stable sort [Array.prototype.sort] performs (and the order a
    [sort] clause of a query gives): [after a b] says that the comparator
    is positive on [(a, b)]. Elements the comparator does not separate keep
    their relative order. *)
Definition stableSort {A} (after : A -> A -> bool) (l : list A) : list A :=
  fold_right (insertBy after) [] l.

(** [l.slice(0, end)] for an integer [end]. *)
Definition slice0 {A} (l : list A) (end_ : Z) : list A :=
  let len := Z.of_nat (length l) in
  let k := if (end_ <? 0)%Z then Z.max (len + end_) 0 else Z.min end_ len in
  firstn (Z.to_nat k) l.

(** ** The document store

    The Mongoose models, as the services use them. Every call may reject
    (the [storeFault] of the environment decides), and then has no effect. *)
Section Store.
Context {num : Type}.
Local Open Scope async_scope.

Definition storeCall {A} (op : World num -> A * World num) : Async A :=
  fun w =>
    let w1 := set_storeCalls (S (storeCalls w)) w in
    match storeFault (env w) (storeCalls w) with
    | Some e => (Thrown e, w1)
    | None => match op w1 with (a, w2) => (Returned a, w2) end
    end.

(** [new Date()] *)
Definition newDate : Async (num:=num) Timestamp := fun w => (Returned (clock w), w).

Definition hasId (id : ObjectId) (c : Conversation) : bool := (c_id c =? id)%N.

(** [conversationModel.findById(id)]; [findById(undefined)] finds nothing. *)
Definition conversation_findById (id : option ObjectId) : Async (option Conversation) :=
  storeCall (fun w =>
    (match id with
     | Some i => find (hasId i) (conversations w)
     | None => None
     end, w)).

(** [conversationModel.findOne({ _id, studentId })] *)
Definition conversation_findOne (id studentId : ObjectId) : Async (option Conversation) :=
  storeCall (fun w =>
    (find (fun c => hasId id c && (c_studentId c =? studentId)%N) (conversations w), w)).

(** [conversationModel.create({ studentId, title, isActive, lastMessageAt })] *)
Definition conversation_create (studentId : ObjectId) (title : string)
    (isActive : bool) (lastMessageAt : Timestamp) : Async Conversation :=
  storeCall (fun w =>
    let c := {| c_id := nextObjectId w; c_studentId := studentId; c_title := title;
                c_isActive := isActive; c_lastMessageAt := lastMessageAt;
                c_messageCount := messageCountDefault (env w) |} in
    (c, tick (set_conversations (conversations w ++ [c]) w))).

(** [conversationModel.findByIdAndUpdate(id,
      { lastMessageAt, $inc: { messageCount: inc } })] *)
Definition conversation_findByIdAndUpdate (id : ObjectId) (lastMessageAt : Timestamp)
    (inc : Z) : Async unit :=
  storeCall (fun w =>
    (tt, set_conversations
           (map (fun c => if hasId id c
                          then {| c_id := c_id c; c_studentId := c_studentId c;
                                  c_title := c_title c; c_isActive := c_isActive c;
                                  c_lastMessageAt := lastMessageAt;
                                  c_messageCount := (c_messageCount c + inc)%Z |}
                          else c) (conversations w)) w)).

(** [conversationModel.updateMany({ studentId, _id: { $ne: id } },
      { isActive: false })] *)
Definition conversation_deactivateOthers (studentId id : ObjectId) : Async unit :=
  storeCall (fun w =>
    (tt, set_conversations
           (map (fun c => if (c_studentId c =? studentId)%N && negb (hasId id c)
                          then {| c_id := c_id c; c_studentId := c_studentId c;
                                  c_title := c_title c; c_isActive := false;
                                  c_lastMessageAt := c_lastMessageAt c;
                                  c_messageCount := c_messageCount c |}
                          else c) (conversations w)) w)).

(** [conversationModel.findByIdAndDelete(id)] *)
Definition conversation_findByIdAndDelete (id : ObjectId) : Async unit :=
  storeCall (fun w =>
    (tt, set_conversations (List.filter (fun c => negb (hasId id c)) (conversations w)) w)).

Definition ofConversation (id : ObjectId) (m : ChatMessage) : bool :=
  (m_conversationId m =? id)%N.

(** [chatMessageModel.create({ conversationId, role, content, metadata })] *)
Definition chatMessage_create (conversationId : ObjectId) (r : Role)
    (text : string) (metadata : option MessageMetadata) : Async ChatMessage :=
  storeCall (fun w =>
    let m := {| m_id := nextObjectId w; m_conversationId := conversationId;
                m_role := r; m_content := text; m_metadata := metadata;
                m_createdAt := clock w |} in
    (m, tick (set_chatMessages (chatMessages w ++ [m]) w))).

(** [chatMessageModel.find({ conversationId }).sort({ createdAt: 1 })
      .limit(n).lean()] *)
Definition chatMessage_findSortedLimit (conversationId : ObjectId) (n : nat)
    : Async (list ChatMessage) :=
  storeCall (fun w =>
    (firstn n
       (stableSort (fun a b => (m_createdAt b <? m_createdAt a)%N)
          (List.filter (ofConversation conversationId) (chatMessages w))), w)).

(** [chatMessageModel.deleteMany({ conversationId })], giving [deletedCount]. *)
Definition chatMessage_deleteMany (conversationId : ObjectId) : Async nat :=
  storeCall (fun w =>
    (length (List.filter (ofConversation conversationId) (chatMessages w)),
     set_chatMessages
       (List.filter (fun m => negb (ofConversation conversationId m)) (chatMessages w)) w)).

(** [knowledgeChunkModel.find(filter).lean()], the filter being [{}] or
    [{ courseId }]. *)
Definition knowledgeChunk_find (courseId : option ObjectId)
    : Async (list (KnowledgeChunk num)) :=
  storeCall (fun w =>
    (match courseId with
     | Some c => List.filter (fun k => (k_courseId k =? c)%N) (knowledgeChunks w)
     | None => knowledgeChunks w
     end, w)).

(** A store call whose query the server may refuse. *)
Definition storeQuery {A} (q : World num -> Exception + A) : Async A :=
  fun w =>
    let w1 := set_storeCalls (S (storeCalls w)) w in
    match storeFault (env w) (storeCalls w) with
    | Some e => (Thrown e, w1)
    | None =>
        match q w1 with
        | inl e => (Thrown e, w1)
        | inr a => (Returned a, w1)
        end
    end.

(** [.skip(skip).limit(limit)] on the documents of a query, for integers.
    Modelled from the documentation of MongoDB: a negative [skip] is
    refused (the text of the refusal is not modelled); [limit(0)] sets no
    limit; a negative limit is the limit of its absolute value. *)
Definition skipLimit {A} (skip limit : Z) (docs : list A) : Exception + list A :=
  if (skip <? 0)%Z
  then inl (JsError "MongoServerError" "skip" None)
  else
    let rest := drop (Z.to_nat skip) docs in
    inr (if (limit =? 0)%Z then rest else firstn (Z.to_nat (Z.abs limit)) rest).

(** [chatMessageModel.find({ conversationId }).sort({ createdAt: 1 })
      .skip(skip).limit(limit).lean()] *)
Definition chatMessage_findPage (conversationId : ObjectId) (skip limit : Z)
    : Async (list ChatMessage) :=
  storeQuery (fun w =>
    skipLimit skip limit
      (stableSort (fun a b => (m_createdAt b <? m_createdAt a)%N)
         (List.filter (ofConversation conversationId) (chatMessages w)))).

(** [chatMessageModel.countDocuments({ conversationId })] *)
Definition chatMessage_countDocuments (conversationId : ObjectId) : Async nat :=
  storeCall (fun w =>
    (length (List.filter (ofConversation conversationId) (chatMessages w)), w)).

Definition ofStudent (studentId : ObjectId) (c : Conversation) : bool :=
  (c_studentId c =? studentId)%N.

(** [conversationModel.find({ studentId }).sort({ lastMessageAt: -1 })
      .skip(skip).limit(limit).lean()] *)
Definition conversation_findPage (studentId : ObjectId) (skip limit : Z)
    : Async (list Conversation) :=
  storeQuery (fun w =>
    skipLimit skip limit
      (stableSort (fun a b => (c_lastMessageAt a <? c_lastMessageAt b)%N)
         (List.filter (ofStudent studentId) (conversations w)))).

(** [conversationModel.countDocuments({ studentId })] *)
Definition conversation_countDocuments (studentId : ObjectId) : Async nat :=
  storeCall (fun w =>
    (length (List.filter (ofStudent studentId) (conversations w)), w)).

Definition ofCourse (courseId : ObjectId) (k : KnowledgeChunk num) : bool :=
  (k_courseId k =? courseId)%N.

(** [knowledgeChunkModel.create({ courseId, content, embedding, sourceFile,
      chunkIndex, metadata: { tokenCount } })]. The record of a chunk has
    no place for [tokenCount], which nothing in the services reads. *)
Definition knowledgeChunk_create (courseId : ObjectId) (text : string)
    (embedding : list num) (sourceFile : string) (chunkIndex : Z) : Async unit :=
  storeCall (fun w =>
    let k := {| k_courseId := courseId; k_content := text; k_embedding := embedding;
                k_sourceFile := sourceFile; k_chunkIndex := chunkIndex;
                k_metadata := Some {| pageNumber := None; section := None |} |} in
    (tt, tick (set_knowledgeChunks (knowledgeChunks w ++ [k]) w))).

(** [knowledgeChunkModel.deleteMany({ courseId })], giving [deletedCount]. *)
Definition knowledgeChunk_deleteMany (courseId : ObjectId) : Async nat :=
  storeCall (fun w =>
    (length (List.filter (ofCourse courseId) (knowledgeChunks w)),
     set_knowledgeChunks
       (List.filter (fun k => negb (ofCourse courseId k)) (knowledgeChunks w)) w)).

(** [knowledgeChunkModel.countDocuments()] *)
Definition knowledgeChunk_countDocuments : Async nat :=
  storeCall (fun w => (length (knowledgeChunks w), w)).

(** [knowledgeChunkModel.distinct('courseId')]: the course identifiers
    that occur, each once. *)
Definition knowledgeChunk_distinctCourseId : Async (list ObjectId) :=
  storeCall (fun w => (remove_dups (map k_courseId (knowledgeChunks w)), w)).

End Store.

(** ** KnowledgeService (knowledge.service.ts) *)
Module KnowledgeService.

Record SearchResult (num : Type) := {
  r_content : string;
  r_courseId : ObjectId;
  r_score : num;
  r_metadata : option ChunkMetadata
}.
Arguments r_content {num}.
Arguments r_courseId {num}.
Arguments r_score {num}.
Arguments r_metadata {num}.

Record SearchOptions (num : Type) := {
  o_courseId : option ObjectId;
  o_limit : option Z;
  o_minScore : option num
}.
Arguments o_courseId {num}.
Arguments o_limit {num}.
Arguments o_minScore {num}.

Record Stats := { totalChunks : nat; coursesCovered : nat }.

Section WithNumbers.
Context {num : Type} `{Number num}.
Local Open Scope async_scope.

(** [isConfigured()]: the client exists when the key was set. *)
Definition isConfigured : Async (num:=num) bool :=
  fun w => (Returned (apiKey (env w)), w).

Definition createEmbedding (text : string) : Async (list num * Z) :=
  let* configured := isConfigured in
  if negb configured
  then throw (JsError "Error" "OpenAI not configured for generating embeddings" None)
  else fun w =>
    match embeddingsCreate (env w) text with
    | inr r => (Returned r, w)
    | inl error => (Thrown error, w)      (* logged and rethrown *)
    end.

(** One pass of the loop body of [cosineSimilarity]. *)
Definition accumulate (acc : num * num * num) (ab : num * num) : num * num * num :=
  match acc, ab with
  | (dotProduct, normA, normB), (a, b) =>
      (num_add dotProduct (num_mul a b),
       num_add normA (num_mul a a),
       num_add normB (num_mul b b))
  end.

Definition cosineSimilarity (vecA vecB : list num) : Exception + num :=
  if negb (length vecA =? length vecB)%nat
  then inl (JsError "Error" "Vectors must have the same length" None)
  else
    match fold_left accumulate (combine vecA vecB) (num_zero, num_zero, num_zero) with
    | (dotProduct, normA, normB) =>
        let magnitude := num_mul (num_sqrt normA) (num_sqrt normB) in
        inr (if num_eqb magnitude num_zero then num_zero
             else num_div dotProduct magnitude)
    end.

(** State of the loop of [splitIntoChunks]: the chunks pushed so far and
    [currentChunk]. *)
Definition chunkStep (maxChunkSize : Z) (st : list string * string)
    (sentence : string) : list string * string :=
  match st with
  | (chunks, currentChunk) =>
      if (Z.of_nat (String.length (currentChunk ++ sentence)) >? maxChunkSize)%Z
         && negb (JsString.isEmpty currentChunk)
      then (chunks ++ [JsString.trim currentChunk], sentence)
      else (chunks,
            (currentChunk ++ (if JsString.isEmpty currentChunk then "" else " ")
                          ++ sentence)%string)
  end.

Definition splitIntoChunks (text : string) (maxChunkSize : Z) : list string :=
  match fold_left (chunkStep maxChunkSize) (JsString.splitSentences text) ([], "") with
  | (chunks, currentChunk) =>
      if negb (JsString.isEmpty currentChunk)
      then chunks ++ [JsString.trim currentChunk]
      else chunks
  end.

(** [chunks.map((chunk) => ({ ...chunk, score: this.cosineSimilarity(
      queryEmbedding, chunk.embedding) }))]: the first mismatch throws. *)
Fixpoint scoreChunks (queryEmbedding : list num) (chunks : list (KnowledgeChunk num))
    : Exception + list (KnowledgeChunk num * num) :=
  match chunks with
  | [] => inr []
  | chunk :: rest =>
      match cosineSimilarity queryEmbedding (k_embedding chunk) with
      | inl e => inl e
      | inr score =>
          match scoreChunks queryEmbedding rest with
          | inl e => inl e
          | inr scored => inr ((chunk, score) :: scored)
          end
      end
  end.

(** The comparator [(a, b) => b.score - a.score] is positive. *)
Definition scoreAfter (a b : KnowledgeChunk num * num) : bool :=
  num_ltb num_zero (num_sub (snd b) (snd a)).

(** [options?.limit || 3] *)
Definition effectiveLimit (options : SearchOptions num) : Z :=
  match o_limit options with
  | Some l => if (l =? 0)%Z then 3%Z else l
  | None => 3%Z
  end.

(** [options?.minScore || 0.5] *)
Definition effectiveMinScore (options : SearchOptions num) : num :=
  match o_minScore options with
  | Some m => if num_truthy m then m else num_half
  | None => num_half
  end.

Definition toResult (c : KnowledgeChunk num * num) : SearchResult num :=
  {| r_content := k_content (fst c); r_courseId := k_courseId (fst c);
     r_score := snd c; r_metadata := k_metadata (fst c) |}.

(** The chain [.filter(...).sort(...).slice(0, limit)] and the final
    [map] of [searchSimilar]. *)
Definition rank (limit : Z) (minScore : num) (scored : list (KnowledgeChunk num * num))
    : list (KnowledgeChunk num * num) :=
  slice0 (stableSort scoreAfter
            (List.filter (fun c => num_leb minScore (snd c)) scored)) limit.

Definition searchSimilar (query : string) (options : SearchOptions num)
    : Async (list (SearchResult num)) :=
  let* configured := isConfigured in
  if negb configured then ret []
  else
    let limit := effectiveLimit options in
    let minScore := effectiveMinScore options in
    let* embedded :=
      tryCatch (let* e := createEmbedding query in ret (Some (fst e)))
               (fun error => ret None) in
    match embedded with
    | None => ret []                  (* the catch clause returns [] *)
    | Some queryEmbedding =>
        let* chunks := knowledgeChunk_find (o_courseId options) in
        if (length chunks =? 0)%nat then ret []
        else
          match scoreChunks queryEmbedding chunks with
          | inl error => throw error
          | inr scored => ret (map toResult (rank limit minScore scored))
          end
    end.

(** [deleteCourseChunks(courseId)], giving [deletedCount]. *)
Definition deleteCourseChunks (courseId : ObjectId) : Async (num:=num) nat :=
  let* deletedCount := knowledgeChunk_deleteMany courseId in
  ret deletedCount.

(** [getStats()] *)
Definition getStats : Async (num:=num) Stats :=
  let* total := knowledgeChunk_countDocuments in
  let* courses := knowledgeChunk_distinctCourseId in
  ret {| totalChunks := total; coursesCovered := length courses |}.

(** The callback of [batch.map] in [indexCourseContent]: the chunk is
    embedded and stored, and counted ([processed++], here the 1 it
    gives); a failure of either step is logged and the chunk is left
    out. *)
Definition indexChunk (courseId : ObjectId) (sourceFile : string) (chunkIndex : nat)
    (chunkText : string) : Async (num:=num) nat :=
  tryCatch
    (let* e := createEmbedding chunkText in
     let* _ := knowledgeChunk_create courseId chunkText (fst e) sourceFile
                 (Z.of_nat chunkIndex) in
     ret 1)
    (fun error => ret 0).

(** [await Promise.all(batch.map(callback))] for the batch that starts at
    chunk [i]. The callbacks run concurrently: every embedding is
    requested at once, and each chunk is stored when its embedding
    arrives. [order] lists the positions of the batch in the order of
    arrival, which is the order of the store calls. *)
Fixpoint indexBatch (courseId : ObjectId) (sourceFile : string) (i : nat)
    (batch : list string) (order : list nat) : Async (num:=num) nat :=
  match order with
  | [] => ret 0
  | index :: rest =>
      let* n :=
        match nth_error batch index with
        | Some chunkText => indexChunk courseId sourceFile (i + index) chunkText
        | None => ret 0
        end in
      let* m := indexBatch courseId sourceFile i batch rest in
      ret (n + m)
  end.

Definition batchSize : nat := 5.

(** [for (let i = 0; i < chunks.length; i += batchSize)]: the loop is
    entered at most [chunks.length] times, which bounds [fuel]. *)
Fixpoint indexBatches (arrival : nat -> list nat) (courseId : ObjectId)
    (sourceFile : string) (chunks : list string) (fuel i : nat)
    : Async (num:=num) nat :=
  match fuel with
  | 0 => ret 0
  | S fuel' =>
      if (i <? length chunks)%nat
      then
        let batch := firstn batchSize (drop i chunks) in
        let* n := indexBatch courseId sourceFile i batch (arrival i) in
        let* m := indexBatches arrival courseId sourceFile chunks fuel' (i + batchSize) in
        ret (n + m)
      else ret 0
  end.

(** [indexCourseContent(courseId, content, sourceFile)], giving
    [chunksCreated]. [arrival i] is the order in which the embeddings of
    the batch starting at [i] arrive. *)
Definition indexCourseContent (arrival : nat -> list nat) (courseId : ObjectId)
    (content : string) (sourceFile : string) : Async (num:=num) nat :=
  let* configured := isConfigured in
  if negb configured
  then throw (JsError "Error" "OpenAI not configured for indexing content" None)
  else
    let* _ := deleteCourseChunks courseId in
    let chunks := splitIntoChunks content 1000 in
    indexBatches arrival courseId sourceFile chunks (length chunks) 0.

End WithNumbers.
End KnowledgeService.

(** ** The rate limiter (ai.rate-limit.ts) *)
Section RateLimit.
Context {num : Type}.
Local Open Scope async_scope.

(** The limiter's [highWater]. *)
Definition highWater : nat := 20.

(** [Math.floor(Math.random() * k)] *)
Definition randomBelow (k : nat) : Async (num:=num) nat :=
  fun w =>
    (Returned (mathRandom (env w) (randomCalls w) k mod k),
     set_random (S (randomCalls w)) (sleptMs w) w).

(** [await sleep(ms)]: only the time waited is recorded. *)
Definition sleep (ms : N) : Async (num:=num) unit :=
  fun w => (Returned tt, set_random (randomCalls w) (sleptMs w + ms)%N w).

(** [status === code] for a status that may be undefined. *)
Definition statusIs (status : option Z) (code : Z) : bool :=
  match status with Some s => (s =? code)%Z | None => false end.

Definition is429 (status : option Z) : bool := statusIs status 429.

(** The [for(;;)] loop of the scheduled job. [attempt] counts up from 0
    and the loop is left for good once [attempt >= maxRetries]; the
    recursion is on [left = maxRetries - attempt], so [left = 0] reads
    [attempt >= maxRetries]. *)
Fixpoint retryLoop {A} (fn : Async A) (maxRetries left : nat) : Async (num:=num) A :=
  let attempt := maxRetries - left in
  tryCatch fn (fun err =>
    match left with
    | 0 => throw err
    | S left' =>
        if negb (is429 (exn_status err)) then throw err
        else
          let baseMs := (250 * 2 ^ N.of_nat attempt)%N in
          let* jitterMs := randomBelow 250 in
          let waitMs := (baseMs + N.of_nat jitterMs)%N in
          let* _ := sleep waitMs in
          retryLoop fn maxRetries left'
    end).

(** Modelled from the documentation of Bottleneck: with the OVERFLOW
    strategy a job submitted while [highWater] jobs are queued is not
    added, and the promise [schedule] gave for it is rejected; otherwise
    the job is run and the promise settles as the job does. The waiting
    the limiter imposes ([maxConcurrent], [minTime]) is not modelled. *)
Definition limiterSchedule {A} (job : Async A) : Async (num:=num) A :=
  fun w =>
    if (highWater <=? limiterQueued (env w))%nat
    then (Thrown (limiterDropped (env w)), w)
    else job w.

(** How the evaluation of an expression inside a [try] block ends. *)
Inductive Completion (A : Type) :=
| Normal (value : A)
| Abrupt (err : Exception).
Arguments Normal {A}.
Arguments Abrupt {A}.

(** The [catch] clause of [withRateLimitAndRetry]. *)
Definition overflowHandler {A} (err : Exception) : Async (num:=num) A :=
  let msg := exn_message err in
  let isOverflow :=
    String.eqb (exn_name err) "BottleneckError"
    || JsString.includes (JsString.toLowerCase msg) "overflow"
    || JsString.includes (JsString.toLowerCase msg) "highwater" in
  if isOverflow
  then throw (JsError "Error" "Rate limit queue overflow" (Some 429%Z))
  else throw err.

(** [try { return limiter.schedule(job); } catch (err) { ... }] in an
    [async] function. The call [limiter.schedule(job)] completes normally
    with a promise, and that promise is returned without [await]: the
    promise of [withRateLimitAndRetry] settles as it does. The [catch]
    clause is entered only by an abrupt completion of the call itself. *)
Definition withRateLimitAndRetry {A} (fn : Async A) (opts : option nat)
    : Async (num:=num) A :=
  let maxRetries := match opts with Some n => n | None => 5 end in
  match Normal (limiterSchedule (retryLoop fn maxRetries maxRetries)) with
  | Normal promise => promise
  | Abrupt err => overflowHandler err
  end.

End RateLimit.

(** ** AiService (ai.service.ts) *)
Module AiService.

Record AiResponse := {
  ai_content : string;
  ai_tokensUsed : option Z;
  ai_model : option string
}.

Definition baseSystemPrompt : string :=
"Eres un asistente educativo amigable y servicial para estudiantes de una plataforma de cursos online.

Tu objetivo es:
- Ayudar a los estudiantes con dudas sobre el contenido de sus cursos
- Motivar y dar apoyo emocional cuando sea necesario
- Sugerir recursos y técnicas de estudio
- Responder de forma clara, concisa y amigable

Reglas:
- No des respuestas a exámenes directamente, guía al estudiante para que llegue a la respuesta
- Si no sabes algo, admítelo y sugiere buscar ayuda adicional
- Mantén un tono positivo y motivador
- Usa ejemplos prácticos cuando sea posible".

Definition newline : string := String (ascii_of_nat 10) EmptyString.

Definition placeholderResponses : list string :=
  [ "¡Hola! Soy tu asistente de estudios. Veo que tienes una pregunta interesante. Para ayudarte mejor, ¿podrías darme más detalles sobre el tema específico del curso en el que necesitas ayuda?";
    "Entiendo tu duda. Este es un tema importante que muchos estudiantes encuentran desafiante. Te sugiero que revisemos los conceptos paso a paso. ¿Por dónde te gustaría empezar?";
    "¡Excelente pregunta! Esto demuestra que estás pensando críticamente sobre el material. Déjame darte una explicación que te ayude a entender mejor el concepto.";
    "Gracias por compartir tu pregunta. Para darte la mejor ayuda posible, necesito que OpenAI esté configurado. Por ahora, te recomiendo revisar el material del curso y volver con preguntas específicas." ].

(** The block appended to the system prompt when retrieval found text. *)
Definition contextBlock (relevantContext : list string) : string :=
  if (0 <? length relevantContext)%nat
  then (newline ++ newline ++ "INFORMACIÓN RELEVANTE:" ++ newline
        ++ JsString.join (newline ++ newline) relevantContext
        ++ newline ++ newline ++ "Usa esta información para responder.")%string
  else "".

(** The [input] of a provider call: the system prompt, the history, then
    the new user turn. *)
Definition buildMessages (systemPrompt : string) (history : list MessageHistory)
    (userMessage : string) : list MessageHistory :=
  {| role := system; content := systemPrompt |}
  :: history ++ [{| role := user; content := JsString.trim userMessage |}].

Section WithWorld.
Context {num : Type}.
Local Open Scope async_scope.

Definition isConfigured : Async (num:=num) bool :=
  fun w => (Returned (apiKey (env w)), w).

Definition generatePlaceholderResponse (userMessage : string)
    : Async (num:=num) AiResponse :=
  let* i := randomBelow (length placeholderResponses) in
  ret {| ai_content :=
           ("[RESPUESTA PLACEHOLDER - Implementar OpenAI]" ++ newline ++ newline
            ++ nth i placeholderResponses "")%string;
         ai_tokensUsed := Some 0%Z;
         ai_model := Some "placeholder" |}.

(** The function handed to [withRateLimitAndRetry]: one call of
    [openai.responses.create], then the check of its text. *)
Definition callProvider (messages : list MessageHistory) : Async (num:=num) AiResponse :=
  fun w =>
    let w' := set_responseCalls (S (responseCalls w)) w in
    match responsesCreate (env w) (responseCalls w) (chatModel (env w)) messages with
    | Rejects e => (Thrown e, w')
    | Resolves output_text total_tokens model =>
        match option_map JsString.trim output_text with
        | Some text =>
            if JsString.isEmpty text
            then (Thrown (OpenAiInvalidResponseException "Respuesta de OpenAI vacía"), w')
            else (Returned {| ai_content := text; ai_tokensUsed := total_tokens;
                              ai_model := Some model |}, w')
        | None =>
            (Thrown (OpenAiInvalidResponseException "Respuesta de OpenAI vacía"), w')
        end
    end.

(** The [catch] clause of [response]. *)
Definition classify {A} (error : Exception) : Async (num:=num) A :=
  let status := exn_status error in
  if statusIs status 429
  then throw (OpenAiRateLimitException
         "Demasiadas peticiones al asistente. Inténtalo de nuevo en unos segundos.")
  else if statusIs status 401 || statusIs status 403
  then throw (OpenAiMisconfiguredException
         "Configuración de OpenAI inválida. Por favor, verifica tu API key.")
  else throw (OpenAiUnavailableException
         "OpenAI no está disponible. Por favor, inténtalo de nuevo más tarde.").

Definition response (userMessage : string) (history : list MessageHistory)
    (systemPrompt : string) : Async (num:=num) AiResponse :=
  let* configured := isConfigured in
  if negb configured then generatePlaceholderResponse userMessage
  else
    let messages := buildMessages systemPrompt history userMessage in
    tryCatch (withRateLimitAndRetry (callProvider messages) None) classify.

Definition generateResponseWithRAG (userMessage : string)
    (history : list MessageHistory) (relevantContext : list string)
    : Async (num:=num) AiResponse :=
  response userMessage history (baseSystemPrompt ++ contextBlock relevantContext)%string.

(** [for (const word of words) { yield word + ' '; await sleep(50) }] *)
Fixpoint yieldWords (words : list string) : Gen (num:=num) string unit :=
  match words with
  | [] => gret tt
  | word :: rest =>
      (let* _ := yield (word ++ " ")%string in
       let* _ := await (sleep 50) in
       yieldWords rest)%gen
  end.

(** The deltas a provider stream delivers: the events of type
    [response.output_text.delta] that carry a [delta]. *)
Fixpoint deltas (events : list StreamEvent) : list string :=
  match events with
  | [] => []
  | event :: rest =>
      match ev_delta event with
      | Some delta =>
          if String.eqb (ev_type event) "response.output_text.delta"
          then delta :: deltas rest else deltas rest
      | None => deltas rest
      end
  end.

Definition stream (userMessage : string) (history : list MessageHistory)
    (systemPrompt : string) : Gen (num:=num) string unit :=
  fun w =>
    if negb (apiKey (env w))
    then
      (let* placeholder := await (generatePlaceholderResponse userMessage) in
       yieldWords (JsString.splitOn " " (ai_content placeholder)))%gen w
    else
      let messages := buildMessages systemPrompt history userMessage in
      gtryCatch
        (fun w =>
           match responsesStream (env w) (chatModel (env w)) messages with
           | StreamRejects e => ([], Thrown e, w)
           | StreamOpens events None => (deltas events, Returned tt, w)
           | StreamOpens events (Some e) => (deltas events, Thrown e, w)
           end)
        (fun error w =>
           ([], Thrown (OpenAiUnavailableException
              "Error al generar la respuesta en streaming. Inténtalo de nuevo."), w))
        w.

Definition generateStreamResponseWithRAG (userMessage : string)
    (history : list MessageHistory) (relevantContext : list string)
    : Gen (num:=num) string unit :=
  stream userMessage history (baseSystemPrompt ++ contextBlock relevantContext)%string.

Definition generateResponse (userMessage : string) (history : list MessageHistory)
    : Async (num:=num) AiResponse :=
  response userMessage history baseSystemPrompt.

(** [yield* this.stream(userMessage, history, this.baseSystemPrompt)] *)
Definition generateStreamResponse (userMessage : string) (history : list MessageHistory)
    : Gen (num:=num) string unit :=
  stream userMessage history baseSystemPrompt.

End WithWorld.
End AiService.

(** ** ChatService (chat.service.ts) *)
Module ChatService.

Record SendMessageDto := {
  studentId : ObjectId;
  message : string;
  conversationId : option ObjectId
}.

Record SendResult := {
  res_conversationId : ObjectId;
  res_userMessage : ChatMessage;
  res_assistantMessage : ChatMessage
}.

(** The objects [streamResponse] yields. *)
Inductive ChatEvent :=
| EvConversationId (conversationId : ObjectId)
| EvToken (token : string)
| EvDone (messageId : ObjectId).

Definition toHistory (m : ChatMessage) : MessageHistory :=
  {| role := m_role m; content := m_content m |}.

(** The value of [Math.ceil(total / limit)]. *)
Inductive PageCount := Pages (n : Z) | PagesInfinite | PagesNaN.

Record Pagination := {
  pg_page : Z;
  pg_limit : Z;
  pg_total : nat;
  pg_totalPages : PageCount
}.

(** What [getHistory] resolves to when it is not [null]. *)
Inductive History :=
| HistoryOfConversation (conversation : Conversation) (messages : list ChatMessage)
    (pagination : Pagination)
| HistoryOfStudent (conversations : list Conversation) (pagination : Pagination).

(** [Math.ceil(total / limit)] for a count and an integer: the quotient
    rounded up; [Infinity] or [NaN] when [limit] is 0. *)
Definition totalPages (total : nat) (limit : Z) : PageCount :=
  if (limit =? 0)%Z
  then (if (total =? 0)%nat then PagesNaN else PagesInfinite)
  else Pages (- ((- Z.of_nat total) / limit))%Z.

Section WithNumbers.
Context {num : Type} `{Number num}.
Local Open Scope async_scope.

(** *** The cache and the arrays it holds *)

(** An array literal: a new array object. *)
Definition newArray (items : list MessageHistory) : Async (num:=num) loc :=
  fun w =>
    let l := fresh (dom (arrays w)) in
    (Returned l, set_cache (conversationCache w) (<[l := items]> (arrays w)) w).

(** [array.push(item)] *)
Definition push (l : loc) (item : MessageHistory) : Async (num:=num) unit :=
  fun w =>
    (Returned tt,
     set_cache (conversationCache w)
       (<[l := default [] (arrays w !! l) ++ [item]]> (arrays w)) w).

(** Reading the elements of an array (iteration, spread). *)
Definition readArray (l : loc) : Async (num:=num) (list MessageHistory) :=
  fun w => (Returned (default [] (arrays w !! l)), w).

Definition cacheGet (id : ObjectId) : Async (num:=num) (option loc) :=
  fun w => (Returned (conversationCache w !! id), w).

Definition cacheSet (id : ObjectId) (l : loc) : Async (num:=num) unit :=
  fun w => (Returned tt, set_cache (<[id := l]> (conversationCache w)) (arrays w) w).

Definition cacheDelete (id : ObjectId) : Async (num:=num) unit :=
  fun w => (Returned tt, set_cache (delete id (conversationCache w)) (arrays w) w).

(** *** Helpers *)

Definition createConversation (studentId : ObjectId) : Async (num:=num) Conversation :=
  let* now := newDate in
  conversation_create studentId "Nueva conversación" true now.

(** The history for the prompt: the cached array when there is one,
    otherwise the result of the query, which is cached. The array
    itself is returned, not a copy. *)
Definition getConversationHistory (conversationId : ObjectId) : Async (num:=num) loc :=
  let* cached := cacheGet conversationId in
  match cached with
  | Some history => ret history
  | None =>
      let* messages := chatMessage_findSortedLimit conversationId 20 in
      let* history := newArray (map toHistory messages) in
      let* _ := cacheSet conversationId history in
      ret history
  end.

(** The [catch] clause the public methods share: an [HttpException] is
    rethrown, anything else becomes an internal server error. *)
Definition rethrow {A} (msg : string) (error : Exception) : Async (num:=num) A :=
  if isHttpException error then throw error
  else throw (InternalServerErrorException msg).

(** The best-effort retrieval step of [sendMessage] and [streamResponse]. *)
Definition retrieveContext (message : string) : Async (num:=num) (list string) :=
  tryCatch
    (let* searchResults :=
       KnowledgeService.searchSimilar message
         {| KnowledgeService.o_courseId := None;
            KnowledgeService.o_limit := Some 3%Z;
            KnowledgeService.o_minScore := Some num_half |} in
     ret (map KnowledgeService.r_content searchResults))
    (fun error => ret []).

(** *** Public methods *)

Definition sendMessage (dto : SendMessageDto) : Async (num:=num) SendResult :=
  tryCatch
    (let* found := conversation_findById (conversationId dto) in
     let* conversation :=
       match found with
       | Some c => ret c
       | None => createConversation (studentId dto)
       end in
     let* userMessage :=
       chatMessage_create (c_id conversation) user (message dto) None in
     let* relevantContext := retrieveContext (message dto) in
     let* history := getConversationHistory (c_id conversation) in
     let* turns := readArray history in
     let* aiResponse :=
       AiService.generateResponseWithRAG (message dto) turns relevantContext in
     let* assistantMessage :=
       chatMessage_create (c_id conversation) assistant
         (AiService.ai_content aiResponse)
         (Some {| tokensUsed := AiService.ai_tokensUsed aiResponse;
                  model := AiService.ai_model aiResponse |}) in
     let* now := newDate in
     let* _ := conversation_findByIdAndUpdate (c_id conversation) now 2 in
     ret {| res_conversationId := c_id conversation;
            res_userMessage := userMessage;
            res_assistantMessage := assistantMessage |})
    (rethrow "Error al enviar el mensaje").

Definition startNewConversation (studentId : ObjectId)
    (initialContext : option string) : Async (num:=num) Conversation :=
  tryCatch
    (let* conversation := createConversation studentId in
     let* history := newArray [] in
     let* _ :=
       match initialContext with
       | Some text =>
           if JsString.isEmpty text then ret tt
           else push history {| role := system; content := text |}
       | None => ret tt
       end in
     let* _ := cacheSet (c_id conversation) history in
     let* _ := conversation_deactivateOthers studentId (c_id conversation) in
     ret conversation)
    (rethrow "Error al crear la conversación").

Definition deleteHistory (studentId conversationId : ObjectId)
    : Async (num:=num) (option nat) :=
  tryCatch
    (let* found := conversation_findOne conversationId studentId in
     match found with
     | None => ret None
     | Some conversation =>
         let* deletedCount := chatMessage_deleteMany (c_id conversation) in
         let* _ := conversation_findByIdAndDelete (c_id conversation) in
         let* _ := cacheDelete conversationId in
         ret (Some deletedCount)
     end)
    (rethrow "Error al eliminar el historial").

(** [getHistory(studentId, conversationId?, page = 1, limit = 20)], for
    integer [page] and [limit]: a page of the messages of a conversation of
    the student, or a page of the conversations of the student. *)
Definition getHistory (studentId : ObjectId) (conversationId : option ObjectId)
    (page limit : option Z) : Async (num:=num) (option History) :=
  let page := default 1%Z page in
  let limit := default 20%Z limit in
  tryCatch
    (match conversationId with
     | Some id =>
         let* found := conversation_findOne id studentId in
         match found with
         | None => ret None
         | Some conversation =>
             let skip := ((page - 1) * limit)%Z in
             let* both :=
               promiseAll2
                 (chatMessage_findPage (c_id conversation) skip limit)
                 (chatMessage_countDocuments (c_id conversation)) in
             ret (Some (HistoryOfConversation conversation (fst both)
                          {| pg_page := page; pg_limit := limit; pg_total := snd both;
                             pg_totalPages := totalPages (snd both) limit |}))
         end
     | None =>
         let skip := ((page - 1) * limit)%Z in
         let* both :=
           promiseAll2
             (conversation_findPage studentId skip limit)
             (conversation_countDocuments studentId) in
         ret (Some (HistoryOfStudent (fst both)
                      {| pg_page := page; pg_limit := limit; pg_total := snd both;
                         pg_totalPages := totalPages (snd both) limit |}))
     end)
    (rethrow "Error al obtener el historial").

(** [for await (const token of tokens) { fullContent += token;
      yield { token } }]: every token is passed on as it arrives; the
    loop ends with the text accumulated, or with what the token
    generator raised. *)
Definition forAwaitTokens (tokens : Gen (num:=num) string unit)
    : Gen (num:=num) ChatEvent string :=
  fun w =>
    match tokens w with
    | (ts, Returned _, w') => (map EvToken ts, Returned (String.concat "" ts), w')
    | (ts, Thrown e, w') => (map EvToken ts, Thrown e, w')
    end.

Definition streamResponse (dto : SendMessageDto) : Gen (num:=num) ChatEvent unit :=
  (let* found :=
     await (match conversationId dto with
            | Some id => conversation_findById (Some id)
            | None =>
                let* c := createConversation (studentId dto) in ret (Some c)
            end)%async in
   let* conversation :=
     await (match found with
            | Some c => ret c
            | None => createConversation (studentId dto)
            end) in
   let* _ := yield (EvConversationId (c_id conversation)) in
   let* _ := await (chatMessage_create (c_id conversation) user (message dto) None) in
   let* history := await (getConversationHistory (c_id conversation)) in
   let* relevantContext := await (retrieveContext (message dto)) in
   let* turns := await (readArray history) in
   let* fullContent :=
     forAwaitTokens
       (AiService.generateStreamResponseWithRAG (message dto) turns relevantContext) in
   let* assistantMessage :=
     await (chatMessage_create (c_id conversation) assistant fullContent
              (Some {| tokensUsed := None; model := Some "stream" |})) in
   let* now := await newDate in
   let* _ := await (conversation_findByIdAndUpdate (c_id conversation) now 2) in
   yield (EvDone (m_id assistantMessage)))%gen.

End WithNumbers.
End ChatService.

(** ** ChatController.streamMessage (chat.controller.ts) *)
Module ChatController.
Import ChatService.

(** The JSON object of a frame [data: <json>\n\n]. *)
Inductive Frame :=
| FrameConversationId (conversationId : ObjectId)
| FrameToken (token : string)
| FrameDone (messageId : ObjectId)
| FrameError (error : string).

Definition frameOf (event : ChatEvent) : Frame :=
  match event with
  | EvConversationId id => FrameConversationId id
  | EvToken token => FrameToken token
  | EvDone id => FrameDone id
  end.

Section WithNumbers.
Context {num : Type} `{Number num}.

(** The frames written to the response: one per event of
    [streamResponse], and the frame of the [catch] clause when the
    generator raised. Every thrown value of the model is an [Error], so
    the frame carries its message. *)
Definition streamMessage (dto : SendMessageDto) (w : World num)
    : list Frame * World num :=
  match streamResponse dto w with
  | (events, Returned _, w') => (map frameOf events, w')
  | (events, Thrown error, w') =>
      (map frameOf events ++ [FrameError (exn_message error)], w')
  end.

Definition NotFoundException := HttpException 404.

(** [DELETE chat/history/:studentId/:conversationId]: no content, or
    not found when the service gave [null]. *)
Definition deleteHistory (studentId conversationId : ObjectId) : Async (num:=num) unit :=
  (let* result := ChatService.deleteHistory studentId conversationId in
   match result with
   | None =>
       throw (NotFoundException
                ("Conversación " ++ JsString.toHexString conversationId
                 ++ " no encontrada")%string)
   | Some _ => ret tt
   end)%async.

End WithNumbers.
End ChatController.

(** ** KnowledgeController (knowledge.controller.ts) *)
Module KnowledgeController.
Import KnowledgeService.

Record IndexBody := {
  b_courseId : option ObjectId;
  b_content : option string;
  b_sourceFile : option string
}.

(** [!value] for a string that may be missing. *)
Definition blank (value : option string) : bool :=
  match value with
  | Some text => JsString.isEmpty text
  | None => true
  end.

Section WithNumbers.
Context {num : Type} `{Number num}.
Local Open Scope async_scope.

(** [POST knowledge/index] *)
Definition indexContent (arrival : nat -> list nat) (body : IndexBody)
    : Async (num:=num) nat :=
  match b_courseId body, b_content body with
  | Some courseId, Some text =>
      if JsString.isEmpty text
      then throw (JsError "Error" "Course ID and content are required" None)
      else indexCourseContent arrival courseId text
             (if blank (b_sourceFile body) then "unknown"
              else default "" (b_sourceFile body))
  | _, _ => throw (JsError "Error" "Course ID and content are required" None)
  end.

(** [GET knowledge/search?q=&courseId=&limit=], [limit] being the number
    the parameter denotes. *)
Definition search (query : option string) (courseId : option ObjectId)
    (limit : option Z) : Async (num:=num) (list (SearchResult num)) :=
  if blank query then ret []
  else
    searchSimilar (default "" query)
      {| o_courseId := courseId;
         o_limit := match limit with
                    | Some l => if (l =? 0)%Z then None else Some l
                    | None => None
                    end;
         o_minScore := None |}.

(** [GET knowledge/stats] *)
Definition getStats : Async (num:=num) Stats := KnowledgeService.getStats.

(** [DELETE knowledge/course/:courseId] *)
Definition deleteCourseKnowledge (courseId : ObjectId) : Async (num:=num) nat :=
  deleteCourseChunks courseId.

End WithNumbers.
End KnowledgeController.

(** * Properties *)

(** ** Strings *)
Section StringFacts.
Import JsString.
Local Open Scope string_scope.

Lemma length_append (s t : string) :
  String.length (s ++ t) = String.length s + String.length t.
Proof. induction s as [|c s IH]; simpl; [reflexivity | now rewrite IH]. Qed.

Lemma isEmpty_true (s : string) : isEmpty s = true <-> s = "".
Proof. destruct s; simpl; split; congruence. Qed.

Lemma isEmpty_length (s : string) : isEmpty s = false <-> 0 < String.length s.
Proof. destruct s; simpl; split; (congruence || lia). Qed.

Lemma trimStart_length (s : string) : String.length (trimStart s) <= String.length s.
Proof.
  induction s as [|c s IH]; simpl; [lia|].
  destruct (isWhiteSpace c); simpl; lia.
Qed.

Lemma trimEnd_length (s : string) : String.length (trimEnd s) <= String.length s.
Proof.
  induction s as [|c s IH]; simpl; [lia|].
  destruct (isWhiteSpace c && isEmpty (trimEnd s)); simpl; lia.
Qed.

Lemma trim_length (s : string) : String.length (trim s) <= String.length s.
Proof.
  unfold trim. etransitivity; [apply trimEnd_length | apply trimStart_length].
Qed.

(** The code units of a list of pieces, one more per piece: what the
    pieces take when each is followed by one separating unit. *)
Fixpoint spread (pieces : list string) : nat :=
  match pieces with
  | [] => 0
  | p :: rest => String.length p + 1 + spread rest
  end.

(** The pieces of a split, with one unit for each separator between
    them, fit in the text. *)
Lemma splitGo_spread (s cur : string) (mode : SplitMode) :
  spread (splitGo cur mode s) <= String.length cur + String.length s + 1.
Proof.
  revert cur mode. induction s as [|c s IH]; intros cur mode; simpl; [lia|].
  destruct mode as [afterEnd|].
  - destruct (afterEnd && isWhiteSpace c); simpl.
    + specialize (IH "" InSeparator). simpl in IH. lia.
    + specialize (IH (cur ++ String c "") (InPiece (isSentenceEnd c))).
      rewrite length_append in IH. simpl in IH. lia.
  - destruct (isWhiteSpace c).
    + specialize (IH "" InSeparator). simpl in IH. lia.
    + specialize (IH (String c "") (InPiece (isSentenceEnd c))). simpl in IH. lia.
Qed.

Lemma splitGo_head (s cur : string) (afterEnd : bool) :
  exists p rest, splitGo cur (InPiece afterEnd) s = p :: rest
                 /\ String.length cur <= String.length p.
Proof.
  revert cur afterEnd. induction s as [|c s IH]; intros cur afterEnd; simpl.
  - exists cur, []. split; [reflexivity | lia].
  - destruct (afterEnd && isWhiteSpace c).
    + eexists _, _. split; [reflexivity | lia].
    + destruct (IH (cur ++ String c "") (isSentenceEnd c)) as (p & rest & E & L).
      exists p, rest. split; [exact E|]. rewrite length_append in L. lia.
Qed.

(** The first piece of a text that is not empty is not empty. *)
Lemma splitSentences_head (text : string) :
  text <> "" ->
  exists p rest, splitSentences text = p :: rest /\ 0 < String.length p.
Proof.
  intros Hne. destruct text as [|c s]; [congruence|].
  unfold splitSentences. simpl.
  destruct (splitGo_head s (String c "") (isSentenceEnd c)) as (p & rest & E & L).
  exists p, rest. split; [exact E | simpl in L; lia].
Qed.

Lemma splitSentences_spread (text : string) :
  spread (splitSentences text) <= String.length text + 1.
Proof. unfold splitSentences. apply (splitGo_spread text "" (InPiece false)). Qed.

End StringFacts.

(** ** KnowledgeService.splitIntoChunks *)
Section SplitIntoChunks.
Import JsString KnowledgeService.
Local Open Scope string_scope.

(** While the buffer and the sentences still to come fit in
    [maxChunkSize], the loop only appends. *)
Lemma chunkStep_fold_fits (maxChunkSize : Z) (sentences : list string) :
  forall (chunks : list string) (currentChunk : string),
    0 < String.length currentChunk ->
    (Z.of_nat (String.length currentChunk + spread sentences) <= maxChunkSize)%Z ->
    exists buffer,
      fold_left (chunkStep maxChunkSize) sentences (chunks, currentChunk)
        = (chunks, buffer)
      /\ String.length buffer = String.length currentChunk + spread sentences.
Proof.
  induction sentences as [|s rest IH]; intros chunks cur Hpos Hfit; simpl.
  - exists cur. split; [reflexivity | lia].
  - simpl in Hfit.
    assert (Hcur : isEmpty cur = false) by (apply isEmpty_length; exact Hpos).
    rewrite Hcur. simpl.
    replace (Z.of_nat (String.length (cur ++ s)) >? maxChunkSize)%Z with false.
    2:{ symmetry. rewrite Z.gtb_ltb. apply Z.ltb_ge. rewrite length_append. lia. }
    simpl.
    destruct (IH chunks (cur ++ " " ++ s)%string) as (buffer & E & L).
    + rewrite !length_append. simpl. lia.
    + rewrite !length_append. simpl. lia.
    + exists buffer. split; [exact E|].
      rewrite L, !length_append. simpl. lia.
Qed.

(** On an empty buffer the loop takes the sentence as the buffer. *)
Lemma chunkStep_first (maxChunkSize : Z) (chunks : list string) (sentence : string) :
  chunkStep maxChunkSize (chunks, "") sentence = (chunks, sentence).
Proof. unfold chunkStep. simpl isEmpty. rewrite andb_false_r. reflexivity. Qed.

(** The loop started on a text that is not empty and fits in
    [maxChunkSize] ends with no chunk pushed and a buffer that is not
    empty and no longer than the text. *)
Lemma chunk_loop_short_text (text : string) (maxChunkSize : Z) :
  text <> "" ->
  (Z.of_nat (String.length text) <= maxChunkSize)%Z ->
  exists buffer,
    fold_left (chunkStep maxChunkSize) (splitSentences text) ([], "") = ([], buffer)
    /\ 0 < String.length buffer <= String.length text.
Proof.
  intros Hne Hfit.
  destruct (splitSentences_head text Hne) as (p & rest & E & Hp).
  pose proof (splitSentences_spread text) as Hs. rewrite E in Hs |- *.
  simpl in Hs. change (fold_left (chunkStep maxChunkSize) (p :: rest) ([], ""))
    with (fold_left (chunkStep maxChunkSize) rest (chunkStep maxChunkSize ([], "") p)).
  rewrite chunkStep_first.
  destruct (chunkStep_fold_fits maxChunkSize rest [] p Hp) as (buffer & Ef & L).
  - lia.
  - exists buffer. split; [exact Ef | lia].
Qed.

(** C8, as amended: a text that is not empty and no longer than
    [maxChunkSize] gives exactly one chunk, itself no longer than
    [maxChunkSize]; the empty text gives no chunk at all, because an empty
    buffer is never pushed. *)
Theorem splitIntoChunks_short_text (text : string) (maxChunkSize : Z) :
  (Z.of_nat (String.length text) <= maxChunkSize)%Z ->
  (text = "" -> splitIntoChunks text maxChunkSize = [])
  /\ (text <> "" ->
      exists chunk,
        splitIntoChunks text maxChunkSize = [chunk]
        /\ (Z.of_nat (String.length chunk) <= maxChunkSize)%Z).
Proof.
  intros Hfit. split.
  - intros ->. unfold splitIntoChunks.
    change (fold_left (chunkStep maxChunkSize) (splitSentences "") ([], ""))
      with (chunkStep maxChunkSize ([], "") "").
    rewrite chunkStep_first. reflexivity.
  - intros Hne.
    destruct (chunk_loop_short_text text maxChunkSize Hne Hfit) as (buffer & E & L).
    unfold splitIntoChunks. rewrite E.
    assert (Hb : isEmpty buffer = false) by (apply isEmpty_length; lia).
    rewrite Hb. simpl. exists (trim buffer). split; [reflexivity|].
    pose proof (trim_length buffer). lia.
Qed.

Lemma splitIntoChunks_short_text_witness :
  exists chunk, splitIntoChunks "Short text." 1000 = [chunk].
Proof.
  destruct (splitIntoChunks_short_text "Short text." 1000) as [_ Hone].
  - vm_compute. discriminate.
  - destruct Hone as (chunk & E & _); [discriminate|].
    exists chunk. exact E.
Defined.

(** C8 as stated fails on the empty text: its length is at most any
    non-negative [maxChunkSize], and it has no chunk. *)
Lemma splitIntoChunks_empty_text_counterexample :
  (Z.of_nat (String.length "") <= 5)%Z
  /\ List.length (splitIntoChunks "" 5) <> 1.
Proof. split; [vm_compute; discriminate | vm_compute; discriminate]. Qed.

(** The test of the loop measures the buffer and the sentence without the
    space that joins them: two sentences of 3 and 2 code units are packed
    into one chunk of 6 although [maxChunkSize] is 5. *)
Example splitIntoChunks_joining_space_not_counted :
  splitSentences "ab. cd" = ["ab."; "cd"]
  /\ splitIntoChunks "ab. cd" 5 = ["ab. cd"]
  /\ String.length "ab. cd" = 6.
Proof. repeat split. Qed.

End SplitIntoChunks.

(** ** KnowledgeService.cosineSimilarity *)



Section CosineAnyNumber.
Context {num : Type} `{Number num}.
Import KnowledgeService.






End CosineAnyNumber.

Section CosineExactReal.
Import KnowledgeService.
Import Reals Lra.
Local Open Scope R_scope.






End CosineExactReal.



(** With a norm that overflows, a zero vector does not give 0 either: the
    product of the norms is [0 * infinity], not a number. *)
Example cosineSimilarity_overflow_nan :
  match KnowledgeService.cosineSimilarity [0%float] [0x1p600%float] with
  | inr score => PrimFloat.is_nan score = true
  | inl _ => False
  end.
Proof. vm_compute. reflexivity. Qed.

(** ** Sorting *)
Section StableSort.
Context {A : Type} (after : A -> A -> bool).

Lemma insertBy_In (x y : A) (l : list A) :
  In y (insertBy after x l) <-> y = x \/ In y l.
Proof.
  induction l as [|z l IH]; simpl.
  - intuition congruence.
  - destruct (after x z); simpl; rewrite ?IH; intuition congruence.
Qed.

Lemma stableSort_In (y : A) (l : list A) : In y (stableSort after l) <-> In y l.
Proof.
  induction l as [|x l IH]; simpl; [tauto|].
  rewrite insertBy_In, IH. intuition congruence.
Qed.

Lemma insertBy_length (x : A) (l : list A) :
  length (insertBy after x l) = S (length l).
Proof.
  induction l as [|z l IH]; simpl; [reflexivity|].
  destruct (after x z); simpl; congruence.
Qed.

Lemma stableSort_length (l : list A) : length (stableSort after l) = length l.
Proof.
  induction l as [|x l IH]; simpl; [reflexivity|].
  rewrite insertBy_length. congruence.
Qed.


(** [a] may stand before [b]: the comparator does not put it after. *)
Definition inOrder (a b : A) : Prop := after a b = false.

Hypothesis after_asym : forall a b, after a b = true -> after b a = false.

Lemma insertBy_HdRel (x y : A) (l : list A) :
  after x y = true -> HdRel inOrder y l -> HdRel inOrder y (insertBy after x l).
Proof.
  intros Hxy Hhd. destruct l as [|z l]; simpl.
  - constructor. apply after_asym, Hxy.
  - destruct (after x z); constructor.
    + apply HdRel_inv in Hhd. exact Hhd.
    + apply after_asym, Hxy.
Qed.

Lemma insertBy_Sorted (x : A) (l : list A) :
  Sorted inOrder l -> Sorted inOrder (insertBy after x l).
Proof.
  induction l as [|y l IH]; intros Hs; simpl.
  - repeat constructor.
  - apply Sorted_inv in Hs as [Hs Hhd].
    destruct (after x y) eqn:Hxy.
    + constructor; [apply IH, Hs | apply insertBy_HdRel; assumption].
    + constructor; [constructor; assumption | constructor; exact Hxy].
Qed.

Lemma stableSort_Sorted (l : list A) : Sorted inOrder (stableSort after l).
Proof.
  induction l as [|x l IH]; simpl; [constructor | apply insertBy_Sorted, IH].
Qed.

End StableSort.

Lemma Sorted_firstn {A : Type} (R : A -> A -> Prop) (n : nat) (l : list A) :
  Sorted R l -> Sorted R (firstn n l).
Proof.
  revert l. induction n as [|n IH]; intros [|x l] Hs; simpl; try constructor.
  - apply IH. apply Sorted_inv in Hs. tauto.
  - apply Sorted_inv in Hs as [_ Hhd].
    destruct n; simpl; [constructor|].
    destruct l as [|y l]; constructor. apply HdRel_inv in Hhd. exact Hhd.
Qed.





(** ** The comparator on binary64 and on exact reals *)

(** The comparator [(a, b) => b.score - a.score] never asks for both
    orders of a pair. *)
Class ComparatorLaw (num : Type) `{Number num} : Prop :=
  sub_asym : forall x y : num,
    num_ltb num_zero (num_sub y x) = true -> num_ltb num_zero (num_sub x y) = false.

Definition sfPositive (z : spec_float) : bool := SFltb (S754_zero false) z.

Lemma binary_round_aux_negative (mx ex : Z) (lx : location) :
  sfPositive (binary_round_aux prec emax true mx ex lx) = false.
Proof.
  unfold binary_round_aux.
  destruct (shr_fexp prec emax mx ex lx) as [mrs' e'].
  destruct (shr_fexp prec emax _ e' loc_Exact) as [mrs'' e''].
  destruct (shr_m mrs''); try reflexivity.
  destruct (e'' <=? emax - prec)%Z; reflexivity.
Qed.

Lemma binary_normalize_positive (m e : Z) :
  sfPositive (binary_normalize prec emax m e false) = true -> (0 < m)%Z.
Proof.
  destruct m as [|p|p]; simpl; intros Hp.
  - discriminate.
  - lia.
  - unfold binary_round in Hp.
    destruct (shl_align p e _) as [mz ez].
    rewrite binary_round_aux_negative in Hp. discriminate.
Qed.

Lemma SFsub_finite_asym (sx : bool) (mx : positive) (ex : Z)
    (sy : bool) (my : positive) (ey : Z) :
  sfPositive (SFsub prec emax (S754_finite sy my ey) (S754_finite sx mx ex)) = true ->
  sfPositive (SFsub prec emax (S754_finite sx mx ex) (S754_finite sy my ey)) = false.
Proof.
  unfold SFsub. cbv zeta. rewrite (Z.min_comm ex ey).
  set (ez := Z.min ey ex).
  set (a := cond_Zopp sy (Zpos (fst (shl_align my ey ez)))).
  set (b := cond_Zopp sx (Zpos (fst (shl_align mx ex ez)))).
  intros Hp. apply binary_normalize_positive in Hp.
  destruct (sfPositive (binary_normalize prec emax (b - a) ez false)) eqn:Hq;
    [|reflexivity].
  apply binary_normalize_positive in Hq. lia.
Qed.

Lemma SFsub_asym (x y : spec_float) :
  sfPositive (SFsub prec emax y x) = true ->
  sfPositive (SFsub prec emax x y) = false.
Proof.
  destruct x as [sx|sx| |sx mx ex], y as [sy|sy| |sy my ey];
    try apply SFsub_finite_asym;
    try (destruct sx); try (destruct sy); simpl; try reflexivity; try discriminate.
Qed.

#[global] Instance binary64_comparator : ComparatorLaw PrimFloat.float.
Proof.
  intros x y. unfold num_ltb, num_sub, num_zero, binary64.
  rewrite !ltb_spec, !sub_spec.
  change (Prim2SF PrimFloat.zero) with (S754_zero false).
  apply SFsub_asym.
Qed.

#[global] Instance exactReal_comparator : ComparatorLaw Rdefinitions.R.
Proof.
  intros x y. unfold num_ltb, num_sub, num_zero, exactReal, Rbool.
  destruct (RIneq.Rlt_dec _ _) as [H1|_]; [|discriminate].
  destruct (RIneq.Rlt_dec _ _) as [H2|_]; [|reflexivity].
  intros _. exfalso. Lra.lra.
Qed.

(** ** KnowledgeService.searchSimilar *)
Section SearchSimilar.
Context {num : Type} `{Number num}.
Import KnowledgeService.








End SearchSimilar.

(** ** Sample worlds, on binary64 *)

(** A configured service whose collaborators all answer: the store never
    rejects, every text embeds to [[1, 0, 0]], the provider answers at
    once, the limiter is idle. *)
Definition sampleEnv : Env PrimFloat.float := {|
  apiKey := true;
  chatModel := "gpt-4";
  messageCountDefault := 0%Z;
  storeFault := fun _ => None;
  embeddingsCreate := fun _ => inr ([1; 0; 0]%float, 10%Z);
  responsesCreate := fun _ _ _ => Resolves (Some "Hi there") (Some 10%Z) "gpt-4";
  responsesStream := fun _ _ =>
    StreamOpens [ {| ev_type := "response.output_text.delta"; ev_delta := Some "a" |};
                  {| ev_type := "response.output_text.delta"; ev_delta := Some "b" |} ]
                None;
  limiterQueued := 0;
  limiterDropped := JsError "Error" "This job has been dropped by Bottleneck" None;
  mathRandom := fun _ _ => 0
|}.

Definition worldOf (e : Env PrimFloat.float) (chunks : list (KnowledgeChunk PrimFloat.float))
    (msgs : list ChatMessage) : World PrimFloat.float := {|
  env := e;
  conversations := [];
  chatMessages := msgs;
  knowledgeChunks := chunks;
  nextObjectId := 100%N;
  clock := 1000%N;
  conversationCache := ∅;
  arrays := ∅;
  storeCalls := 0;
  responseCalls := 0;
  randomCalls := 0;
  sleptMs := 0%N
|}.

Definition chunkOf (course : ObjectId) (text : string) (embedding : list PrimFloat.float)
    (index : Z) : KnowledgeChunk PrimFloat.float :=
  {| k_courseId := course; k_content := text; k_embedding := embedding;
     k_sourceFile := "course.pdf"; k_chunkIndex := index; k_metadata := None |}.


(** The chunks of the service's own test: orthogonal, identical, at 45
    degrees. *)
Definition testChunks : list (KnowledgeChunk PrimFloat.float) :=
  [ chunkOf 1%N "Chunk 1 (Orthogonal)" [0; 1; 0]%float 0%Z;
    chunkOf 1%N "Chunk 2 (Identical)" [1; 0; 0]%float 1%Z;
    chunkOf 1%N "Chunk 3 (Semi)"
      [0x1.6a09e667f3bcdp-1; 0x1.6a09e667f3bcdp-1; 0]%float 2%Z ].


Section SearchSimilarRanking.
Import KnowledgeService.




End SearchSimilarRanking.

(** ** The generation client *)
Section Generation.
Context {num : Type}.
Import AiService.

(** The generation client touches nothing of the world but its own
    counters: provider calls made, random numbers drawn, time slept. *)
Definition touchCounters (calls draws : nat) (slept : N) (w : World num) : World num :=
  set_random draws slept (set_responseCalls calls w).

Definition countersOnly {A} (m : Async (num:=num) A) : Prop :=
  forall w, exists calls draws slept out,
    m w = (out, touchCounters calls draws slept w).

Lemma touchCounters_id (w : World num) :
  w = touchCounters (responseCalls w) (randomCalls w) (sleptMs w) w.
Proof. destruct w. reflexivity. Qed.

Lemma countersOnly_pure {A} (f : World num -> Outcome A) :
  countersOnly (fun w => (f w, w)).
Proof.
  intros w. exists (responseCalls w), (randomCalls w), (sleptMs w), (f w).
  rewrite <- touchCounters_id. reflexivity.
Qed.

Lemma countersOnly_throw {A} (e : Exception) : countersOnly (throw (A:=A) e).
Proof. apply (countersOnly_pure (fun _ => Thrown e)). Qed.

Lemma countersOnly_ret {A} (a : A) : countersOnly (ret a).
Proof. apply (countersOnly_pure (fun _ => Returned a)). Qed.

Lemma countersOnly_bind {A B} (m : Async A) (k : A -> Async B) :
  countersOnly m -> (forall a, countersOnly (k a)) -> countersOnly (bind m k).
Proof.
  intros Hm Hk w. unfold bind.
  destruct (Hm w) as (c & d & s & [a|e] & ->).
  - destruct (Hk a (touchCounters c d s w)) as (c' & d' & s' & out & ->).
    exists c', d', s', out. reflexivity.
  - exists c, d, s, (Thrown e). reflexivity.
Qed.

Lemma countersOnly_tryCatch {A} (m : Async A) (h : Exception -> Async A) :
  countersOnly m -> (forall e, countersOnly (h e)) -> countersOnly (tryCatch m h).
Proof.
  intros Hm Hh w. unfold tryCatch.
  destruct (Hm w) as (c & d & s & [a|e] & ->).
  - exists c, d, s, (Returned a). reflexivity.
  - destruct (Hh e (touchCounters c d s w)) as (c' & d' & s' & out & ->).
    exists c', d', s', out. reflexivity.
Qed.

Lemma countersOnly_randomBelow (k : nat) : countersOnly (randomBelow k).
Proof. intros w. eexists _, _, _, _. unfold randomBelow. reflexivity. Qed.

Lemma countersOnly_sleep (ms : N) : countersOnly (sleep ms).
Proof. intros w. eexists _, _, _, _. unfold sleep. reflexivity. Qed.

Lemma countersOnly_retryLoop {A} (fn : Async A) (maxRetries left : nat) :
  countersOnly fn -> countersOnly (retryLoop fn maxRetries left).
Proof.
  intros Hfn. induction left as [|left IH]; simpl.
  - apply countersOnly_tryCatch; [exact Hfn | intros e; apply countersOnly_throw].
  - apply countersOnly_tryCatch; [exact Hfn|]. intros e.
    destruct (negb (is429 (exn_status e))); [apply countersOnly_throw|].
    apply countersOnly_bind; [apply countersOnly_randomBelow|]. intros jitter.
    apply countersOnly_bind; [apply countersOnly_sleep|]. intros _. exact IH.
Qed.

Lemma countersOnly_limiterSchedule {A} (job : Async A) :
  countersOnly job -> countersOnly (limiterSchedule job).
Proof.
  intros Hjob w. unfold limiterSchedule.
  destruct (highWater <=? limiterQueued (env w))%nat.
  - apply (countersOnly_pure (fun w => Thrown (limiterDropped (env w)))).
  - apply Hjob.
Qed.

Lemma countersOnly_callProvider (messages : list MessageHistory) :
  countersOnly (callProvider (num:=num) messages).
Proof.
  intros w. unfold callProvider.
  destruct (responsesCreate _ _ _ _) as [e|text tokens m].
  - eexists _, _, _, _. reflexivity.
  - destruct (option_map JsString.trim text) as [t|]; [destruct (JsString.isEmpty t)|];
      eexists _, _, _, _; reflexivity.
Qed.

Lemma countersOnly_response (userMessage : string) (history : list MessageHistory)
    (systemPrompt : string) :
  countersOnly (response (num:=num) userMessage history systemPrompt).
Proof.
  intros w. unfold response, bind, isConfigured.
  destruct (apiKey (env w)); simpl.
  - apply countersOnly_tryCatch.
    + unfold withRateLimitAndRetry.
      apply countersOnly_limiterSchedule, countersOnly_retryLoop, countersOnly_callProvider.
    + intros e. unfold classify. cbv zeta.
      destruct (statusIs (exn_status e) 429); [apply countersOnly_throw|].
      destruct (statusIs (exn_status e) 401 || statusIs (exn_status e) 403);
        apply countersOnly_throw.
  - unfold generatePlaceholderResponse.
    apply countersOnly_bind; [apply countersOnly_randomBelow|].
    intros i. apply countersOnly_ret.
Qed.

End Generation.

(** ** Retry and rate limiting *)

(** Equality of two worlds that differ in how their counters are written. *)
Ltac world_eq :=
  unfold touchCounters, set_random, set_responseCalls; simpl;
  f_equal; try lia.

Section Retry.
Context {num : Type}.
Import AiService.

(** The provider answers call number [n] with a rate-limit signal. *)
Definition rateLimitedAt (w : World num) (messages : list MessageHistory) (n : nat) : Prop :=
  exists e, responsesCreate (env w) n (chatModel (env w)) messages = Rejects e
            /\ is429 (exn_status e) = true.




End Retry.

Section ResponsePolicy.
Context {num : Type}.
Import AiService.

Definition rateLimitMessage : string :=
  "Demasiadas peticiones al asistente. Inténtalo de nuevo en unos segundos.".
Definition unavailableMessage : string :=
  "OpenAI no está disponible. Por favor, inténtalo de nuevo más tarde.".

Lemma response_configured (userMessage : string) (history : list MessageHistory)
    (systemPrompt : string) (w : World num) :
  apiKey (env w) = true ->
  response userMessage history systemPrompt w
  = tryCatch
      (limiterSchedule
         (retryLoop (callProvider (buildMessages systemPrompt history userMessage)) 5 5))
      classify w.
Proof.
  intros Hkey. unfold response, bind, isConfigured. rewrite Hkey. reflexivity.
Qed.

Lemma limiterSchedule_idle {A} (job : Async A) (w : World num) :
  (limiterQueued (env w) < highWater)%nat -> limiterSchedule job w = job w.
Proof.
  intros Hidle. unfold limiterSchedule.
  destruct (Nat.leb_spec highWater (limiterQueued (env w))); [lia | reflexivity].
Qed.


(** Had the [catch] clause of [withRateLimitAndRetry] been entered with
    the limiter's overflow error, the rate-limit failure would follow. *)
Lemma overflowHandler_rate_limited {A} (message : string) (w : World num) :
  tryCatch (overflowHandler (A:=A) (JsError "BottleneckError" message None)) classify w
  = (Thrown (OpenAiRateLimitException rateLimitMessage), w).
Proof. reflexivity. Qed.

(** C4, on the queue-capacity rejection: a generation call made while the
    limiter's queue is full ends with the rejection of the limiter passed
    to the [catch] clause of [response] as it is; having no [status], it
    surfaces as the unavailable failure, not as the rate-limit failure. *)
Theorem response_queue_overflow_unavailable (userMessage : string)
    (history : list MessageHistory) (systemPrompt : string) (w : World num) :
  apiKey (env w) = true ->
  (highWater <= limiterQueued (env w))%nat ->
  exn_status (limiterDropped (env w)) = None ->
  response userMessage history systemPrompt w
  = (Thrown (OpenAiUnavailableException unavailableMessage), w).
Proof.
  intros Hkey Hfull Hstatus.
  rewrite (response_configured _ _ _ _ Hkey). unfold tryCatch, limiterSchedule.
  destruct (Nat.leb_spec highWater (limiterQueued (env w))) as [_|Hlt]; [|lia].
  unfold classify. cbv zeta. rewrite Hstatus. reflexivity.
Qed.

End ResponsePolicy.


(** The sample environment with the limiter's queue at its capacity. *)
Definition overloadedEnv : Env PrimFloat.float := {|
  apiKey := true;
  chatModel := chatModel sampleEnv;
  messageCountDefault := messageCountDefault sampleEnv;
  storeFault := storeFault sampleEnv;
  embeddingsCreate := embeddingsCreate sampleEnv;
  responsesCreate := responsesCreate sampleEnv;
  responsesStream := responsesStream sampleEnv;
  limiterQueued := 20;
  limiterDropped := limiterDropped sampleEnv;
  mathRandom := mathRandom sampleEnv
|}.

Lemma response_queue_overflow_witness :
  fst (AiService.response "Hello" [] AiService.baseSystemPrompt
         (worldOf overloadedEnv [] []))
  = Thrown (OpenAiUnavailableException unavailableMessage).
Proof.
  rewrite (response_queue_overflow_unavailable "Hello" [] AiService.baseSystemPrompt
             (worldOf overloadedEnv [] []) eq_refl ltac:(vm_compute; lia) eq_refl).
  reflexivity.
Defined.

(** ** The store when it does not reject *)
Section ReliableStore.
Context {num : Type}.

(** No store call of the request is rejected. *)
Definition reliable (w : World num) : Prop := forall n, storeFault (env w) n = None.

Lemma storeCall_reliable {A} (op : World num -> A * World num) (w : World num) :
  reliable w ->
  storeCall op w
  = (Returned (fst (op (set_storeCalls (S (storeCalls w)) w))),
     snd (op (set_storeCalls (S (storeCalls w)) w))).
Proof.
  intros Hrel. unfold storeCall. rewrite Hrel.
  destruct (op _). reflexivity.
Qed.

(** A rejected store call throws and changes nothing but the count of
    calls. *)
Lemma storeCall_rejected {A} (op : World num -> A * World num) (w : World num)
    (e : Exception) :
  storeFault (env w) (storeCalls w) = Some e ->
  storeCall op w = (Thrown e, set_storeCalls (S (storeCalls w)) w).
Proof. intros Hfault. unfold storeCall. rewrite Hfault. reflexivity. Qed.

End ReliableStore.

(** ** Frames: what the steps of a request leave alone *)
Section Frames.
Context {num : Type} `{Number num}.
Import ChatService.

(** The retrieval step always returns, and touches nothing but the count
    of store calls. *)
Lemma searchSimilar_frame (query : string) (options : KnowledgeService.SearchOptions num)
    (w : World num) :
  exists out calls,
    KnowledgeService.searchSimilar query options w = (out, set_storeCalls calls w).
Proof.
  assert (Hid : w = set_storeCalls (storeCalls w) w) by (destruct w; reflexivity).
  unfold KnowledgeService.searchSimilar, KnowledgeService.createEmbedding,
    KnowledgeService.isConfigured, knowledgeChunk_find, storeCall.
  unfold bind, tryCatch, ret, throw.
  destruct (apiKey (env w)) eqn:Hkey; cbn; rewrite ?Hkey; cbn.
  2:{ eexists _, _. rewrite Hid at 1. reflexivity. }
  destruct (embeddingsCreate (env w) query) as [e|[qe tokens]]; cbn.
  { eexists _, _. rewrite Hid at 1. reflexivity. }
  destruct (storeFault (env w) (storeCalls w)).
  { eexists _, _. reflexivity. }
  destruct (length _ =? 0)%nat.
  { eexists _, _. reflexivity. }
  destruct (KnowledgeService.scoreChunks qe _); eexists _, _; reflexivity.
Qed.

Lemma retrieveContext_frame (message : string) (w : World num) :
  exists relevantContext calls,
    retrieveContext message w = (Returned relevantContext, set_storeCalls calls w).
Proof.
  unfold retrieveContext, tryCatch, bind, ret.
  destruct (searchSimilar_frame message
              {| KnowledgeService.o_courseId := None;
                 KnowledgeService.o_limit := Some 3%Z;
                 KnowledgeService.o_minScore := Some num_half |} w)
    as ([results|e] & calls & ->); eexists _, _; reflexivity.
Qed.

End Frames.

(** ** The context cache *)
Section ContextCache.
Context {num : Type} `{Number num}.
Import ChatService.

(** The messages of a conversation in ascending order of creation, the
    first [n] of them. *)
Definition oldestMessages (n : nat) (conversationId : ObjectId) (w : World num)
    : list ChatMessage :=
  firstn n (stableSort (fun a b => (m_createdAt b <? m_createdAt a)%N)
              (List.filter (ofConversation conversationId) (chatMessages w))).

(** A hit returns the cached array itself and does nothing else. *)
Lemma getConversationHistory_hit (conversationId : ObjectId) (history : loc)
    (w : World num) :
  conversationCache w !! conversationId = Some history ->
  getConversationHistory conversationId w = (Returned history, w).
Proof.
  intros Hhit. unfold getConversationHistory, bind, cacheGet. rewrite Hhit. reflexivity.
Qed.

(** A miss loads the first 20 messages of the conversation in ascending
    order of creation into a new array and caches that array. *)
Lemma getConversationHistory_miss (conversationId : ObjectId) (w : World num) :
  conversationCache w !! conversationId = None ->
  storeFault (env w) (storeCalls w) = None ->
  let history := fresh (dom (arrays w)) in
  getConversationHistory conversationId w
  = (Returned history,
     set_cache (<[conversationId := history]> (conversationCache w))
               (<[history := map toHistory (oldestMessages 20 conversationId w)]> (arrays w))
               (set_storeCalls (S (storeCalls w)) w)).
Proof.
  intros Hmiss Hok history.
  unfold getConversationHistory, bind, cacheGet. rewrite Hmiss.
  unfold chatMessage_findSortedLimit, storeCall. rewrite Hok. reflexivity.
Qed.

(** A miss during an outage of the store throws and caches nothing. *)
Lemma getConversationHistory_miss_rejected (conversationId : ObjectId) (w : World num)
    (e : Exception) :
  conversationCache w !! conversationId = None ->
  storeFault (env w) (storeCalls w) = Some e ->
  getConversationHistory conversationId w
  = (Thrown e, set_storeCalls (S (storeCalls w)) w).
Proof.
  intros Hmiss Hfault.
  unfold getConversationHistory, bind, cacheGet. rewrite Hmiss.
  unfold chatMessage_findSortedLimit, storeCall. rewrite Hfault. reflexivity.
Qed.

(** After a load, a second load returns the same array. *)
Lemma getConversationHistory_again (conversationId : ObjectId) (history : loc)
    (w w' : World num) :
  getConversationHistory conversationId w = (Returned history, w') ->
  getConversationHistory conversationId w' = (Returned history, w').
Proof.
  intros Hrun. apply getConversationHistory_hit.
  destruct (conversationCache w !! conversationId) as [l|] eqn:Hc.
  - rewrite (getConversationHistory_hit _ _ _ Hc) in Hrun.
    inversion Hrun; subst. exact Hc.
  - destruct (storeFault (env w) (storeCalls w)) as [e|] eqn:Hf.
    + rewrite (getConversationHistory_miss_rejected _ _ _ Hc Hf) in Hrun. discriminate.
    + rewrite (getConversationHistory_miss _ _ Hc Hf) in Hrun.
      inversion Hrun; subst. simpl. apply lookup_insert_eq.
Qed.

End ContextCache.

(** A conversation of 21 messages, created at times 1 to 21, whose window
    is not cached. *)
Definition numbered (n : N) : ChatMessage :=
  {| m_id := n; m_conversationId := 7%N;
     m_role := if N.even n then assistant else user;
     m_content := String (ascii_of_N (64 + n)) EmptyString;
     m_metadata := None; m_createdAt := n |}.

Definition longConversation : list ChatMessage :=
  map (fun n => numbered (N.of_nat n)) (seq 1 21).

(** C5, on a conversation of 21 messages: the window built on a miss holds
    the messages created at times 1 to 20 and leaves out the newest one,
    created at time 21; the 20 most recent are those created at times 2 to
    21. *)
Theorem getConversationHistory_keeps_oldest :
  let w := worldOf sampleEnv [] longConversation in
  match ChatService.getConversationHistory 7%N w with
  | (Returned history, w') =>
      arrays w' !! history
      = Some (map ChatService.toHistory (map (fun n => numbered (N.of_nat n)) (seq 1 20)))
      /\ arrays w' !! history
         <> Some (map ChatService.toHistory
                    (map (fun n => numbered (N.of_nat n)) (seq 2 20)))
  | (Thrown _, _) => False
  end.
Proof. vm_compute. split; [reflexivity | discriminate]. Qed.

Section ContextWindow.
Context {num : Type} `{Number num}.
Import ChatService.

(** The window of a conversation that is not cached, when the store
    answers: [getConversationHistory] builds it in an array of its own
    from the first 20 messages of the conversation in ascending order of
    creation, caches that array, and returns the same array on the next
    call without reading the store. *)
Theorem getConversationHistory_window (conversationId : ObjectId) (w : World num) :
  conversationCache w !! conversationId = None ->
  storeFault (env w) (storeCalls w) = None ->
  exists history w',
    getConversationHistory conversationId w = (Returned history, w')
    /\ arrays w !! history = None
    /\ arrays w' !! history
       = Some (map toHistory (oldestMessages 20 conversationId w))
    /\ conversationCache w' !! conversationId = Some history
    /\ storeCalls w' = S (storeCalls w)
    /\ getConversationHistory conversationId w' = (Returned history, w').
Proof.
  intros Hmiss Hok.
  pose proof (getConversationHistory_miss conversationId w Hmiss Hok) as Hrun.
  cbv zeta in Hrun.
  eexists _, _. split; [exact Hrun|].
  split.
  { apply not_elem_of_dom. apply is_fresh. }
  split; [simpl; apply lookup_insert_eq|].
  split; [simpl; apply lookup_insert_eq|].
  split; [reflexivity|].
  exact (getConversationHistory_again _ _ _ _ Hrun).
Qed.

End ContextWindow.

Lemma getConversationHistory_window_witness :
  exists history w',
    ChatService.getConversationHistory 7%N (worldOf sampleEnv [] longConversation)
    = (Returned history, w')
    /\ arrays (worldOf sampleEnv [] longConversation) !! history = None
    /\ arrays w' !! history
       = Some (map ChatService.toHistory
                 (oldestMessages 20 7%N (worldOf sampleEnv [] longConversation)))
    /\ conversationCache w' !! 7%N = Some history
    /\ storeCalls w' = S (storeCalls (worldOf sampleEnv [] longConversation))
    /\ ChatService.getConversationHistory 7%N w' = (Returned history, w').
Proof.
  apply (getConversationHistory_window 7%N (worldOf sampleEnv [] longConversation));
    reflexivity.
Defined.

(** ** ChatService.sendMessage *)
Section SendMessage.
Context {num : Type} `{Number num}.
Import ChatService.

(** The steps of [sendMessage] once the conversation is resolved. *)
Definition sendTail (dto : SendMessageDto) (conversation : Conversation)
    : Async (num:=num) SendResult :=
  (let* userMessage :=
     chatMessage_create (c_id conversation) user (message dto) None in
   let* relevantContext := retrieveContext (message dto) in
   let* history := getConversationHistory (c_id conversation) in
   let* turns := readArray history in
   let* aiResponse :=
     AiService.generateResponseWithRAG (message dto) turns relevantContext in
   let* assistantMessage :=
     chatMessage_create (c_id conversation) assistant
       (AiService.ai_content aiResponse)
       (Some {| tokensUsed := AiService.ai_tokensUsed aiResponse;
                model := AiService.ai_model aiResponse |}) in
   let* now := newDate in
   let* _ := conversation_findByIdAndUpdate (c_id conversation) now 2 in
   ret {| res_conversationId := c_id conversation;
          res_userMessage := userMessage;
          res_assistantMessage := assistantMessage |})%async.

Lemma sendMessage_unfold (dto : SendMessageDto) :
  sendMessage dto
  = tryCatch
      (let* found := conversation_findById (conversationId dto) in
       let* conversation :=
         match found with
         | Some c => ret c
         | None => createConversation (studentId dto)
         end in
       sendTail dto conversation)%async
      (rethrow "Error al enviar el mensaje").
Proof. reflexivity. Qed.

(** The user message the request persists. *)
Definition userMessageOf (dto : SendMessageDto) (conversationId : ObjectId)
    (w : World num) : ChatMessage :=
  {| m_id := nextObjectId w; m_conversationId := conversationId; m_role := user;
     m_content := message dto; m_metadata := None; m_createdAt := clock w |}.

(** The assistant message persisted after it, from a generated answer. *)
Definition assistantMessageOf (aiResponse : AiService.AiResponse)
    (conversationId : ObjectId) (w : World num) : ChatMessage :=
  {| m_id := N.succ (nextObjectId w); m_conversationId := conversationId;
     m_role := assistant; m_content := AiService.ai_content aiResponse;
     m_metadata := Some {| tokensUsed := AiService.ai_tokensUsed aiResponse;
                           model := AiService.ai_model aiResponse |};
     m_createdAt := N.succ (clock w) |}.

(** The update of the conversation that ends a request. *)
Definition bump (id : ObjectId) (now : Timestamp) (c : Conversation) : Conversation :=
  if hasId id c
  then {| c_id := c_id c; c_studentId := c_studentId c; c_title := c_title c;
          c_isActive := c_isActive c; c_lastMessageAt := now;
          c_messageCount := (c_messageCount c + 2)%Z |}
  else c.


Lemma generate_frame (userMessage : string) (turns : list MessageHistory)
    (relevantContext : list string) (w : World num) :
  exists calls draws slept out,
    AiService.generateResponseWithRAG userMessage turns relevantContext w
    = (out, touchCounters calls draws slept w).
Proof. apply countersOnly_response. Qed.

Lemma sendTail_run (dto : SendMessageDto) (c : Conversation) (w : World num) :
  reliable w ->
  let um := userMessageOf dto (c_id c) w in
  exists relevantContext turns wg out wg',
    AiService.generateResponseWithRAG (message dto) turns relevantContext wg = (out, wg')
    /\ env wg = env w
    /\ conversations wg = conversations w
    /\ chatMessages wg = chatMessages w ++ [um]
    /\ (forall l, conversationCache w !! c_id c = Some l ->
          turns = default [] (arrays w !! l)
          /\ conversationCache wg = conversationCache w /\ arrays wg = arrays w)
    /\ (conversationCache w !! c_id c = None ->
          turns = map toHistory (oldestMessages 20 (c_id c) wg))
    /\ match out with
       | Thrown e => sendTail dto c w = (Thrown e, wg')
       | Returned aiResponse =>
           let am := assistantMessageOf aiResponse (c_id c) w in
           exists w',
             sendTail dto c w
             = (Returned {| res_conversationId := c_id c; res_userMessage := um;
                            res_assistantMessage := am |}, w')
             /\ conversations w'
                = map (bump (c_id c) (N.succ (N.succ (clock w)))) (conversations w)
             /\ chatMessages w' = chatMessages w ++ [um; am]
             /\ conversationCache w' = conversationCache wg
             /\ arrays w' = arrays wg
       end.
Proof.
  intros Hrel um.
  set (w1 := tick (set_chatMessages (chatMessages w ++ [um])
                     (set_storeCalls (S (storeCalls w)) w))).
  assert (E1 : chatMessage_create (c_id c) user (message dto) None w = (Returned um, w1)).
  { unfold chatMessage_create. rewrite storeCall_reliable by exact Hrel. reflexivity. }
  destruct (retrieveContext_frame (message dto) w1) as (ctx & k & E2).
  set (w2 := set_storeCalls k w1) in E2.
  assert (Hturns : forall l w3 out wg',
             getConversationHistory (c_id c) w2 = (Returned l, w3) ->
             reliable w3 ->
             nextObjectId w3 = N.succ (nextObjectId w) ->
             clock w3 = N.succ (clock w) ->
             conversations w3 = conversations w ->
             chatMessages w3 = chatMessages w ++ [um] ->
             AiService.generateResponseWithRAG (message dto)
               (default [] (arrays w3 !! l)) ctx w3 = (out, wg') ->
             match out with
             | Thrown e => sendTail dto c w = (Thrown e, wg')
             | Returned aiResponse =>
                 let am := assistantMessageOf aiResponse (c_id c) w in
                 exists w',
                   sendTail dto c w
                   = (Returned {| res_conversationId := c_id c; res_userMessage := um;
                                  res_assistantMessage := am |}, w')
                   /\ conversations w'
                      = map (bump (c_id c) (N.succ (N.succ (clock w)))) (conversations w)
                   /\ chatMessages w' = chatMessages w ++ [um; am]
                   /\ conversationCache w' = conversationCache w3
                   /\ arrays w' = arrays w3
             end).
  { intros l w3 out wg' E3 Hrel3 Hid Hclock Hconv Hmsgs E5.
    destruct (generate_frame (message dto) (default [] (arrays w3 !! l)) ctx w3)
      as (cc & d & sl & out' & E5').
    rewrite E5' in E5. inversion E5; subst out' wg'. clear E5.
    assert (Eprefix : forall (k : ChatMessage -> AiService.AiResponse
                                  -> Async (num:=num) SendResult),
               (let* userMessage :=
                  chatMessage_create (c_id c) user (message dto) None in
                let* relevantContext := retrieveContext (message dto) in
                let* history := getConversationHistory (c_id c) in
                let* turns := readArray history in
                let* aiResponse :=
                  AiService.generateResponseWithRAG (message dto) turns relevantContext in
                k userMessage aiResponse)%async w
               = match out with
                 | Returned ai => k um ai (touchCounters cc d sl w3)
                 | Thrown e => (Thrown e, touchCounters cc d sl w3)
                 end).
    { intros k'. unfold bind. rewrite E1; cbv beta iota. rewrite E2; cbv beta iota.
      rewrite E3; cbv beta iota. unfold readArray; cbv beta iota.
      rewrite E5'. reflexivity. }
    destruct out as [ai|e].
    - cbv zeta. eexists. split.
      + unfold sendTail. rewrite Eprefix.
        unfold bind, chatMessage_create, newDate, conversation_findByIdAndUpdate, ret.
        rewrite storeCall_reliable by exact Hrel3. cbv beta iota.
        rewrite storeCall_reliable by exact Hrel3. cbv beta iota.
        simpl. rewrite Hid, Hclock. reflexivity.
      + simpl. rewrite Hconv, Hmsgs. repeat apply conj; try reflexivity.
        rewrite <- app_assoc. reflexivity.
    - unfold sendTail. rewrite Eprefix. reflexivity. }
  destruct (conversationCache w !! c_id c) as [l|] eqn:Hc.
  - assert (E3 : getConversationHistory (c_id c) w2 = (Returned l, w2))
      by (apply getConversationHistory_hit; exact Hc).
    destruct (generate_frame (message dto) (default [] (arrays w2 !! l)) ctx w2)
      as (cc & d & sl & out & E5).
    exists ctx, (default [] (arrays w2 !! l)), w2, out, (touchCounters cc d sl w2).
    repeat apply conj; try reflexivity; try exact E5.
    + intros l' [= <-]. repeat apply conj; reflexivity.
    + discriminate.
    + apply (Hturns l w2 out _ E3 Hrel eq_refl eq_refl eq_refl eq_refl E5).
  - set (l := fresh (dom (arrays w2))).
    set (w3 := set_cache (<[c_id c := l]> (conversationCache w2))
                 (<[l := map toHistory (oldestMessages 20 (c_id c) w2)]> (arrays w2))
                 (set_storeCalls (S (storeCalls w2)) w2)).
    assert (E3 : getConversationHistory (c_id c) w2 = (Returned l, w3))
      by (apply getConversationHistory_miss; [exact Hc | apply Hrel]).
    destruct (generate_frame (message dto) (default [] (arrays w3 !! l)) ctx w3)
      as (cc & d & sl & out & E5).
    exists ctx, (default [] (arrays w3 !! l)), w3, out, (touchCounters cc d sl w3).
    repeat apply conj; try reflexivity; try exact E5.
    + discriminate.
    + intros _. subst w3. simpl. rewrite lookup_insert_eq. reflexivity.
    + apply (Hturns l w3 out _ E3 Hrel eq_refl eq_refl eq_refl eq_refl E5).
Qed.




(** The conversation [sendMessage] creates when none is given. *)
Definition newConversation (studentId : ObjectId) (w : World num) : Conversation :=
  {| c_id := nextObjectId w; c_studentId := studentId;
     c_title := "Nueva conversación"; c_isActive := true;
     c_lastMessageAt := clock w; c_messageCount := messageCountDefault (env w) |}.

End SendMessage.


(** ** What a request leaves of the cache *)
Section CacheFrame.
Context {num : Type} `{Number num}.
Import ChatService.

(** Every cached key still maps to the same array, and every array that
    existed still has the same elements. *)
Definition keepsEntries (w w' : World num) : Prop :=
  (forall id l, conversationCache w !! id = Some l -> conversationCache w' !! id = Some l)
  /\ (forall l h, arrays w !! l = Some h -> arrays w' !! l = Some h).

Lemma keepsEntries_refl (w : World num) : keepsEntries w w.
Proof. split; auto. Qed.

Lemma keepsEntries_trans (w1 w2 w3 : World num) :
  keepsEntries w1 w2 -> keepsEntries w2 w3 -> keepsEntries w1 w3.
Proof. intros [Hc1 Ha1] [Hc2 Ha2]. split; auto. Qed.

Lemma keepsEntries_same (w w' : World num) :
  conversationCache w' = conversationCache w -> arrays w' = arrays w ->
  keepsEntries w w'.
Proof. intros Hc Ha. split; intros; [rewrite Hc | rewrite Ha]; assumption. Qed.

Definition keepsCache {A} (m : Async (num:=num) A) : Prop :=
  forall w, keepsEntries w (snd (m w)).

Definition genKeepsCache {Y A} (g : Gen (num:=num) Y A) : Prop :=
  forall w, keepsEntries w (snd (g w)).

Lemma keepsCache_ret {A} (a : A) : keepsCache (ret a).
Proof. intros w. apply keepsEntries_refl. Qed.

Lemma keepsCache_throw {A} (e : Exception) : keepsCache (throw (A:=A) e).
Proof. intros w. apply keepsEntries_refl. Qed.

Lemma keepsCache_bind {A B} (m : Async A) (k : A -> Async B) :
  keepsCache m -> (forall a, keepsCache (k a)) -> keepsCache (bind m k).
Proof.
  intros Hm Hk w. unfold bind. specialize (Hm w).
  destruct (m w) as [[a|e] w1]; simpl in *; [|exact Hm].
  eapply keepsEntries_trans; [exact Hm | apply Hk].
Qed.

Lemma keepsCache_tryCatch {A} (m : Async A) (h : Exception -> Async A) :
  keepsCache m -> (forall e, keepsCache (h e)) -> keepsCache (tryCatch m h).
Proof.
  intros Hm Hh w. unfold tryCatch. specialize (Hm w).
  destruct (m w) as [[a|e] w1]; simpl in *; [exact Hm|].
  eapply keepsEntries_trans; [exact Hm | apply Hh].
Qed.

Lemma keepsCache_rethrow {A} (msg : string) (e : Exception) :
  keepsCache (rethrow (A:=A) msg e).
Proof. unfold rethrow. destruct (isHttpException e); apply keepsCache_throw. Qed.

(** A store call whose operation leaves cache and arrays alone. *)
Lemma keepsCache_storeCall {A} (op : World num -> A * World num) :
  (forall w, conversationCache (snd (op w)) = conversationCache w
             /\ arrays (snd (op w)) = arrays w) ->
  keepsCache (storeCall op).
Proof.
  intros Hop w. unfold storeCall.
  destruct (storeFault (env w) (storeCalls w)); simpl.
  - apply keepsEntries_same; reflexivity.
  - specialize (Hop (set_storeCalls (S (storeCalls w)) w)).
    destruct (op _) as [a w2]. simpl in *. apply keepsEntries_same; tauto.
Qed.

Lemma keepsCache_countersOnly {A} (m : Async A) : countersOnly m -> keepsCache m.
Proof.
  intros Hm w. destruct (Hm w) as (c & d & s & out & ->). simpl.
  apply keepsEntries_same; reflexivity.
Qed.

Lemma keepsCache_retrieveContext (message : string) : keepsCache (retrieveContext message).
Proof.
  intros w. destruct (retrieveContext_frame message w) as (ctx & calls & ->). simpl.
  apply keepsEntries_same; reflexivity.
Qed.

Lemma keepsCache_readArray (l : loc) : keepsCache (readArray l).
Proof. intros w. apply keepsEntries_refl. Qed.

Lemma keepsCache_newDate : keepsCache newDate.
Proof. intros w. apply keepsEntries_refl. Qed.

(** A miss adds an entry for a key that had none, in a new array. *)
Lemma keepsCache_getConversationHistory (conversationId : ObjectId) :
  keepsCache (getConversationHistory conversationId).
Proof.
  intros w.
  destruct (conversationCache w !! conversationId) as [l|] eqn:Hc.
  - rewrite (getConversationHistory_hit _ _ _ Hc). apply keepsEntries_refl.
  - destruct (storeFault (env w) (storeCalls w)) as [e|] eqn:Hf.
    + rewrite (getConversationHistory_miss_rejected _ _ _ Hc Hf).
      apply keepsEntries_same; reflexivity.
    + rewrite (getConversationHistory_miss _ _ Hc Hf). cbv zeta.
      split; intros x y Hxy; unfold set_cache; cbn [snd conversationCache arrays].
      * rewrite lookup_insert_ne; [exact Hxy|].
        intros Heq. rewrite Heq in Hc. rewrite Hc in Hxy. discriminate.
      * rewrite lookup_insert_ne; [exact Hxy|].
        intros <-. apply (is_fresh (dom (arrays w))).
        apply elem_of_dom. eexists. exact Hxy.
Qed.

Lemma keepsCache_chatMessage_create (id : ObjectId) (r : Role) (text : string)
    (metadata : option MessageMetadata) :
  keepsCache (chatMessage_create id r text metadata).
Proof. apply keepsCache_storeCall. intros w. split; reflexivity. Qed.

Lemma keepsCache_createConversation (studentId : ObjectId) :
  keepsCache (createConversation studentId).
Proof.
  apply keepsCache_bind; [apply keepsCache_newDate|]. intros now.
  apply keepsCache_storeCall. intros w. split; reflexivity.
Qed.

Lemma keepsCache_findById (id : option ObjectId) : keepsCache (conversation_findById id).
Proof. apply keepsCache_storeCall. intros w. split; reflexivity. Qed.

Lemma keepsCache_findByIdAndUpdate (id : ObjectId) (now : Timestamp) (inc : Z) :
  keepsCache (conversation_findByIdAndUpdate id now inc).
Proof. apply keepsCache_storeCall. intros w. split; reflexivity. Qed.

(** [sendMessage] leaves every cached window as it was, whatever its
    outcome. *)
Lemma keepsCache_sendMessage (dto : SendMessageDto) : keepsCache (sendMessage dto).
Proof.
  unfold sendMessage.
  apply keepsCache_tryCatch; [|intros e; apply keepsCache_rethrow].
  apply keepsCache_bind; [apply keepsCache_findById|]. intros found.
  apply keepsCache_bind.
  { destruct found; [apply keepsCache_ret | apply keepsCache_createConversation]. }
  intros conversation.
  apply keepsCache_bind; [apply keepsCache_chatMessage_create|]. intros userMessage.
  apply keepsCache_bind; [apply keepsCache_retrieveContext|]. intros relevantContext.
  apply keepsCache_bind; [apply keepsCache_getConversationHistory|]. intros history.
  apply keepsCache_bind; [apply keepsCache_readArray|]. intros turns.
  apply keepsCache_bind.
  { apply keepsCache_countersOnly, countersOnly_response. }
  intros aiResponse.
  apply keepsCache_bind; [apply keepsCache_chatMessage_create|]. intros assistantMessage.
  apply keepsCache_bind; [apply keepsCache_newDate|]. intros now.
  apply keepsCache_bind; [apply keepsCache_findByIdAndUpdate|]. intros _.
  apply keepsCache_ret.
Qed.

End CacheFrame.

(** ** Generators *)
Section GeneratorFrames.
Context {num : Type} `{Number num}.
Import ChatService.

Lemma genKeepsCache_gret {Y A} (a : A) : genKeepsCache (gret (num:=num) (Y:=Y) a).
Proof. intros w. apply keepsEntries_refl. Qed.

Lemma genKeepsCache_yield {Y} (y : Y) : genKeepsCache (yield (num:=num) y).
Proof. intros w. apply keepsEntries_refl. Qed.

Lemma genKeepsCache_await {Y A} (m : Async (num:=num) A) :
  keepsCache m -> genKeepsCache (await (num:=num) (Y:=Y) m).
Proof.
  intros Hm w. unfold await. specialize (Hm w). destruct (m w) as [r w']. exact Hm.
Qed.

Lemma genKeepsCache_gbind {Y A B} (g : Gen (num:=num) Y A) (k : A -> Gen (num:=num) Y B) :
  genKeepsCache g -> (forall a, genKeepsCache (k a)) -> genKeepsCache (gbind g k).
Proof.
  intros Hg Hk w. unfold gbind. specialize (Hg w).
  destruct (g w) as [[ys [a|e]] w1]; simpl in *; [|exact Hg].
  specialize (Hk a w1). destruct (k a w1) as [[ys' r] w2]. simpl in *.
  eapply keepsEntries_trans; eassumption.
Qed.

(** The token generator of the client touches only the counters. *)
Definition genCountersOnly {Y A} (g : Gen (num:=num) Y A) : Prop :=
  forall w, exists calls draws slept ys out,
    g w = (ys, out, touchCounters calls draws slept w).

Lemma genCountersOnly_yieldWords (words : list string) :
  genCountersOnly (AiService.yieldWords (num:=num) words).
Proof.
  induction words as [|word rest IH]; intros w; simpl.
  - exists (responseCalls w), (randomCalls w), (sleptMs w), [], (Returned tt).
    unfold gret. rewrite <- touchCounters_id. reflexivity.
  - unfold gbind, yield, await, sleep.
    destruct (IH (set_random (randomCalls w) (sleptMs w + 50)%N w))
      as (c & d & s & ys & out & ->).
    eexists _, _, _, _, _. reflexivity.
Qed.

Lemma genCountersOnly_stream (userMessage : string) (history : list MessageHistory)
    (systemPrompt : string) :
  genCountersOnly (AiService.stream (num:=num) userMessage history systemPrompt).
Proof.
  intros w. unfold AiService.stream.
  destruct (apiKey (env w)); simpl.
  - unfold gtryCatch.
    destruct (responsesStream (env w) (chatModel (env w)) _) as [e|events [e|]];
      exists (responseCalls w), (randomCalls w), (sleptMs w); eexists _, _;
      rewrite <- touchCounters_id; reflexivity.
  - unfold gbind, await, AiService.generatePlaceholderResponse, bind, randomBelow, ret.
    destruct (genCountersOnly_yieldWords
                (JsString.splitOn " "
                   (AiService.ai_content
                      {| AiService.ai_content :=
                           ("[RESPUESTA PLACEHOLDER - Implementar OpenAI]"
                            ++ AiService.newline ++ AiService.newline
                            ++ nth (mathRandom (env w) (randomCalls w)
                                      (length AiService.placeholderResponses)
                                    mod length AiService.placeholderResponses)
                                 AiService.placeholderResponses "")%string;
                         AiService.ai_tokensUsed := Some 0%Z;
                         AiService.ai_model := Some "placeholder" |}))
                (set_random (S (randomCalls w)) (sleptMs w) w))
      as (c & d & s & ys & out & Hrun).
    rewrite Hrun. eexists _, _, _, _, _. reflexivity.
Qed.

Lemma forAwaitTokens_frame (tokens : Gen (num:=num) string unit) :
  genCountersOnly tokens -> genCountersOnly (forAwaitTokens tokens).
Proof.
  intros Ht w. unfold forAwaitTokens.
  destruct (Ht w) as (c & d & s & ys & [u|e] & ->); eexists _, _, _, _, _; reflexivity.
Qed.

Lemma genKeepsCache_countersOnly {Y A} (g : Gen (num:=num) Y A) :
  genCountersOnly g -> genKeepsCache g.
Proof.
  intros Hg w. destruct (Hg w) as (c & d & s & ys & out & ->). simpl.
  apply keepsEntries_same; reflexivity.
Qed.

(** [streamResponse] leaves every cached window as it was, whatever its
    outcome. *)
Lemma genKeepsCache_streamResponse (dto : SendMessageDto) :
  genKeepsCache (streamResponse dto).
Proof.
  unfold streamResponse.
  apply genKeepsCache_gbind.
  { apply genKeepsCache_await. destruct (conversationId dto).
    - apply keepsCache_findById.
    - apply keepsCache_bind; [apply keepsCache_createConversation|].
      intros c. apply keepsCache_ret. }
  intros found. apply genKeepsCache_gbind.
  { apply genKeepsCache_await.
    destruct found; [apply keepsCache_ret | apply keepsCache_createConversation]. }
  intros conversation.
  apply genKeepsCache_gbind; [apply genKeepsCache_yield|]. intros _.
  apply genKeepsCache_gbind.
  { apply genKeepsCache_await, keepsCache_chatMessage_create. }
  intros _. apply genKeepsCache_gbind.
  { apply genKeepsCache_await, keepsCache_getConversationHistory. }
  intros history. apply genKeepsCache_gbind.
  { apply genKeepsCache_await, keepsCache_retrieveContext. }
  intros relevantContext. apply genKeepsCache_gbind.
  { apply genKeepsCache_await, keepsCache_readArray. }
  intros turns. apply genKeepsCache_gbind.
  { apply genKeepsCache_countersOnly, forAwaitTokens_frame, genCountersOnly_stream. }
  intros fullContent. apply genKeepsCache_gbind.
  { apply genKeepsCache_await, keepsCache_chatMessage_create. }
  intros assistantMessage. apply genKeepsCache_gbind.
  { apply genKeepsCache_await, keepsCache_newDate. }
  intros now. apply genKeepsCache_gbind.
  { apply genKeepsCache_await, keepsCache_findByIdAndUpdate. }
  intros _. apply genKeepsCache_yield.
Qed.

End GeneratorFrames.

(** ** ChatService.streamResponse *)
Section StreamResponse.
Context {num : Type} `{Number num}.
Import ChatService.

(** The steps of [streamResponse] once the conversation is resolved. *)
Definition streamTail (dto : SendMessageDto) (conversation : Conversation)
    : Gen (num:=num) ChatEvent unit :=
  (let* _ := yield (EvConversationId (c_id conversation)) in
   let* _ := await (chatMessage_create (c_id conversation) user (message dto) None) in
   let* history := await (getConversationHistory (c_id conversation)) in
   let* relevantContext := await (retrieveContext (message dto)) in
   let* turns := await (readArray history) in
   let* fullContent :=
     forAwaitTokens
       (AiService.generateStreamResponseWithRAG (message dto) turns relevantContext) in
   let* assistantMessage :=
     await (chatMessage_create (c_id conversation) assistant fullContent
              (Some {| tokensUsed := None; model := Some "stream" |})) in
   let* now := await newDate in
   let* _ := await (conversation_findByIdAndUpdate (c_id conversation) now 2) in
   yield (EvDone (m_id assistantMessage)))%gen.

(** The resolution of the conversation at the head of [streamResponse]. *)
Definition streamResolve (dto : SendMessageDto) : Async (num:=num) Conversation :=
  (let* found :=
     match conversationId dto with
     | Some id => conversation_findById (Some id)
     | None => let* c := createConversation (studentId dto) in ret (Some c)
     end in
   match found with
   | Some c => ret c
   | None => createConversation (studentId dto)
   end)%async.

Lemma streamResponse_unfold (dto : SendMessageDto) (w : World num) :
  streamResponse dto w
  = match streamResolve dto w with
    | (Returned conversation, w') => streamTail dto conversation w'
    | (Thrown e, w') => ([], Thrown e, w')
    end.
Proof.
  change (streamResponse dto)
    with (gbind (await (match conversationId dto with
                        | Some id => conversation_findById (Some id)
                        | None =>
                            (let* c := createConversation (studentId dto) in
                             ret (Some c))%async
                        end))
            (fun found =>
               gbind (await (match found with
                             | Some c => ret c
                             | None => createConversation (studentId dto)
                             end))
                 (fun conversation => streamTail dto conversation))).
  unfold gbind, await, streamResolve. unfold bind at 2.
  destruct (match conversationId dto with
            | Some id => conversation_findById (Some id)
            | None => _
            end w) as [[found|e] w1]; [|reflexivity].
  destruct (match found with Some c => ret c | None => _ end w1) as [[c|e] w2];
    [|reflexivity].
  destruct (streamTail dto c w2) as [[ys r] w3]. reflexivity.
Qed.

(** The assistant message persisted when a stream ends. *)
Definition streamedMessageOf (fullContent : string) (conversationId : ObjectId)
    (w : World num) : ChatMessage :=
  {| m_id := N.succ (nextObjectId w); m_conversationId := conversationId;
     m_role := assistant; m_content := fullContent;
     m_metadata := Some {| tokensUsed := None; model := Some "stream" |};
     m_createdAt := N.succ (clock w) |}.

Lemma streamTail_run (dto : SendMessageDto) (c : Conversation) (w : World num) :
  reliable w ->
  let um := userMessageOf dto (c_id c) w in
  exists relevantContext turns wg tokens out wg',
    AiService.generateStreamResponseWithRAG (message dto) turns relevantContext wg
      = (tokens, out, wg')
    /\ env wg = env w
    /\ chatMessages wg = chatMessages w ++ [um]
    /\ (forall l, conversationCache w !! c_id c = Some l ->
          turns = default [] (arrays w !! l))
    /\ match out with
       | Thrown e =>
           streamTail dto c w
           = (EvConversationId (c_id c) :: map EvToken tokens, Thrown e, wg')
           /\ chatMessages wg' = chatMessages w ++ [um]
       | Returned _ =>
           let am := streamedMessageOf (String.concat "" tokens) (c_id c) w in
           exists w',
             streamTail dto c w
             = (EvConversationId (c_id c) :: map EvToken tokens ++ [EvDone (m_id am)],
                Returned tt, w')
             /\ conversations w'
                = map (bump (c_id c) (N.succ (N.succ (clock w)))) (conversations w)
             /\ chatMessages w' = chatMessages w ++ [um; am]
       end.
Proof.
  intros Hrel um.
  set (w1 := tick (set_chatMessages (chatMessages w ++ [um])
                     (set_storeCalls (S (storeCalls w)) w))).
  assert (E1 : chatMessage_create (c_id c) user (message dto) None w = (Returned um, w1)).
  { unfold chatMessage_create. rewrite storeCall_reliable by exact Hrel. reflexivity. }
  assert (Hturns : forall l w2 ctx w3 tokens out wg',
             getConversationHistory (c_id c) w1 = (Returned l, w2) ->
             retrieveContext (message dto) w2 = (Returned ctx, w3) ->
             reliable w3 ->
             nextObjectId w3 = N.succ (nextObjectId w) ->
             clock w3 = N.succ (clock w) ->
             conversations w3 = conversations w ->
             chatMessages w3 = chatMessages w ++ [um] ->
             AiService.generateStreamResponseWithRAG (message dto)
               (default [] (arrays w3 !! l)) ctx w3 = (tokens, out, wg') ->
             match out with
             | Thrown e =>
                 streamTail dto c w
                 = (EvConversationId (c_id c) :: map EvToken tokens, Thrown e, wg')
                 /\ chatMessages wg' = chatMessages w ++ [um]
             | Returned _ =>
                 let am := streamedMessageOf (String.concat "" tokens) (c_id c) w in
                 exists w',
                   streamTail dto c w
                   = (EvConversationId (c_id c) :: map EvToken tokens ++ [EvDone (m_id am)],
                      Returned tt, w')
                   /\ conversations w'
                      = map (bump (c_id c) (N.succ (N.succ (clock w)))) (conversations w)
                   /\ chatMessages w' = chatMessages w ++ [um; am]
             end).
  { intros l w2 ctx w3 tokens out wg' E2 E3 Hrel3 Hid Hclock Hconv Hmsgs E5.
    destruct (genCountersOnly_stream (message dto) (default [] (arrays w3 !! l))
                (AiService.baseSystemPrompt ++ AiService.contextBlock ctx)%string w3)
      as (cc & d & sl & ys' & out' & E5').
    unfold AiService.generateStreamResponseWithRAG in E5. rewrite E5' in E5.
    inversion E5; subst ys' out' wg'. clear E5.
    assert (Eprefix : forall (k : string -> Gen (num:=num) ChatEvent unit),
               (let* _ := yield (EvConversationId (c_id c)) in
                let* _ := await (chatMessage_create (c_id c) user (message dto) None) in
                let* history := await (getConversationHistory (c_id c)) in
                let* relevantContext := await (retrieveContext (message dto)) in
                let* turns := await (readArray history) in
                let* fullContent :=
                  forAwaitTokens
                    (AiService.generateStreamResponseWithRAG (message dto) turns
                       relevantContext) in
                k fullContent)%gen w
               = match out with
                 | Returned _ =>
                     match k (String.concat "" tokens) (touchCounters cc d sl w3) with
                     | (ys, r, w') =>
                         (EvConversationId (c_id c) :: map EvToken tokens ++ ys, r, w')
                     end
                 | Thrown e =>
                     (EvConversationId (c_id c) :: map EvToken tokens, Thrown e,
                      touchCounters cc d sl w3)
                 end).
    { intros k'. unfold gbind, yield, await. rewrite E1; cbv beta iota.
      rewrite E2; cbv beta iota. rewrite E3; cbv beta iota.
      unfold readArray; cbv beta iota. unfold forAwaitTokens.
      unfold AiService.generateStreamResponseWithRAG. rewrite E5'.
      destruct out as [u|e]; cbv beta iota.
      - destruct (k' _ _) as [[ys r] w']. reflexivity.
      - reflexivity. }
    destruct out as [u|e].
    - cbv zeta. eexists. split.
      + unfold streamTail. rewrite Eprefix.
        unfold gbind, await, yield, chatMessage_create, newDate,
          conversation_findByIdAndUpdate.
        rewrite storeCall_reliable by exact Hrel3. cbv beta iota.
        rewrite storeCall_reliable by exact Hrel3. cbv beta iota.
        simpl. rewrite Hid, Hclock. reflexivity.
      + simpl. rewrite Hconv, Hmsgs. repeat apply conj; try reflexivity.
        rewrite <- app_assoc. reflexivity.
    - unfold streamTail. rewrite Eprefix. split; [reflexivity|]. exact Hmsgs. }
  destruct (conversationCache w !! c_id c) as [l|] eqn:Hc.
  - assert (E2 : getConversationHistory (c_id c) w1 = (Returned l, w1))
      by (apply getConversationHistory_hit; exact Hc).
    destruct (retrieveContext_frame (message dto) w1) as (ctx & k & E3).
    set (w3 := set_storeCalls k w1) in E3.
    destruct (AiService.generateStreamResponseWithRAG (message dto)
                (default [] (arrays w3 !! l)) ctx w3) as [[tokens out] wg'] eqn:E5.
    exists ctx, (default [] (arrays w3 !! l)), w3, tokens, out, wg'.
    repeat apply conj; try reflexivity; try exact E5.
    + intros l' [= <-]. reflexivity.
    + apply (Hturns l w1 ctx w3 tokens out wg' E2 E3 Hrel eq_refl eq_refl eq_refl
               eq_refl E5).
  - set (l := fresh (dom (arrays w1))).
    set (w2 := set_cache (<[c_id c := l]> (conversationCache w1))
                 (<[l := map toHistory (oldestMessages 20 (c_id c) w1)]> (arrays w1))
                 (set_storeCalls (S (storeCalls w1)) w1)).
    assert (E2 : getConversationHistory (c_id c) w1 = (Returned l, w2))
      by (apply getConversationHistory_miss; [exact Hc | apply Hrel]).
    destruct (retrieveContext_frame (message dto) w2) as (ctx & k & E3).
    set (w3 := set_storeCalls k w2) in E3.
    destruct (AiService.generateStreamResponseWithRAG (message dto)
                (default [] (arrays w3 !! l)) ctx w3) as [[tokens out] wg'] eqn:E5.
    exists ctx, (default [] (arrays w3 !! l)), w3, tokens, out, wg'.
    repeat apply conj; try reflexivity; try exact E5.
    + discriminate.
    + apply (Hturns l w2 ctx w3 tokens out wg' E2 E3 Hrel eq_refl eq_refl eq_refl
               eq_refl E5).
Qed.



(** On a store that does not reject, the conversation is resolved, and
    nothing but the conversations and the counters of the store changes. *)
Lemma streamResolve_reliable (dto : SendMessageDto) (w : World num) :
  reliable w ->
  exists c wb,
    streamResolve dto w = (Returned c, wb)
    /\ reliable wb
    /\ env wb = env w
    /\ chatMessages wb = chatMessages w
    /\ conversationCache wb = conversationCache w
    /\ arrays wb = arrays w
    /\ (forall id c0,
          conversationId dto = Some id ->
          find (hasId id) (conversations w) = Some c0 -> c = c0).
Proof.
  intros Hrel.
  unfold streamResolve, bind, conversation_findById, createConversation, newDate,
    conversation_create, storeCall, bind, ret.
  destruct (conversationId dto) as [id|]; cbn; rewrite Hrel; cbn.
  - destruct (find (hasId id) (conversations w)) as [c|] eqn:Hfind; cbn.
    + eexists _, _. split; [reflexivity|]. repeat apply conj; try reflexivity.
      * exact Hrel.
      * intros id' c0 [= <-]. rewrite Hfind. intros [= <-]. reflexivity.
    + rewrite Hrel. eexists _, _. split; [reflexivity|].
      repeat apply conj; try reflexivity.
      * exact Hrel.
      * intros id' c0 [= <-]. rewrite Hfind. discriminate.
  - eexists _, _. split; [reflexivity|]. repeat apply conj; try reflexivity.
    + exact Hrel.
    + discriminate.
Qed.

End StreamResponse.

(** ** ChatController.streamMessage *)
Section StreamMessage.
Context {num : Type} `{Number num}.
Import ChatService ChatController.

Definition streamFailedMessage : string :=
  "Error al generar la respuesta en streaming. Inténtalo de nuevo.".




End StreamMessage.



Definition holaDto : ChatService.SendMessageDto :=
  {| ChatService.studentId := 5%N; ChatService.message := "Hola";
     ChatService.conversationId := None |}.



(** ** The cached window across requests *)
Section StaleWindow.
Context {num : Type} `{Number num}.
Import ChatService.

Lemma find_hasId (id : ObjectId) (l : list Conversation) (c : Conversation) :
  find (hasId id) l = Some c -> c_id c = id.
Proof. intros Hfind. apply find_some in Hfind as [_ Hid]. apply N.eqb_eq. exact Hid. Qed.

(** C10: a window that is cached is left as it is by [sendMessage] and by
    [streamResponse], whatever their outcome: the key still maps to the
    same array with the same elements, and the next load returns that
    array without reading the store. On a store that does not reject, a
    request that succeeds for this conversation persists a user and an
    assistant message of the conversation, which the window therefore does
    not hold. *)
Theorem cached_window_not_refreshed (dto : SendMessageDto) (w : World num)
    (id : ObjectId) (history : loc) (window : list MessageHistory) :
  conversationCache w !! id = Some history ->
  arrays w !! history = Some window ->
  (forall out w',
      sendMessage dto w = (out, w') ->
      conversationCache w' !! id = Some history
      /\ arrays w' !! history = Some window
      /\ getConversationHistory id w' = (Returned history, w'))
  /\ (forall events out w',
        streamResponse dto w = (events, out, w') ->
        conversationCache w' !! id = Some history
        /\ arrays w' !! history = Some window
        /\ getConversationHistory id w' = (Returned history, w'))
  /\ (reliable w ->
      conversationId dto = Some id ->
      (exists c, find (hasId id) (conversations w) = Some c) ->
      (forall r w',
          sendMessage dto w = (Returned r, w') ->
          chatMessages w' = chatMessages w ++ [res_userMessage r; res_assistantMessage r]
          /\ m_conversationId (res_userMessage r) = id
          /\ m_conversationId (res_assistantMessage r) = id)
      /\ (forall events u w',
            streamResponse dto w = (events, Returned u, w') ->
            exists userMessage assistantMessage,
              chatMessages w' = chatMessages w ++ [userMessage; assistantMessage]
              /\ m_conversationId userMessage = id
              /\ m_conversationId assistantMessage = id)).
Proof.
  intros Hcached Hwindow. split; [|split].
  - intros out w' Hrun.
    pose proof (keepsCache_sendMessage dto w) as [Hc Ha]. rewrite Hrun in Hc, Ha.
    simpl in Hc, Ha. repeat apply conj; auto.
    apply getConversationHistory_hit. auto.
  - intros events out w' Hrun.
    pose proof (genKeepsCache_streamResponse dto w) as [Hc Ha]. rewrite Hrun in Hc, Ha.
    simpl in Hc, Ha. repeat apply conj; auto.
    apply getConversationHistory_hit. auto.
  - intros Hrel Hid (c & Hfind). pose proof (find_hasId _ _ _ Hfind) as Hcid. split.
    + intros r w' Hrun.
      set (wa := set_storeCalls (S (storeCalls w)) w).
      assert (Eresolve : forall k : Conversation -> Async (num:=num) SendResult,
                 (let* found := conversation_findById (conversationId dto) in
                  let* conversation :=
                    match found with
                    | Some c => ret c
                    | None => createConversation (studentId dto)
                    end in
                  k conversation)%async w = k c wa).
      { intros k. unfold bind, conversation_findById, storeCall, ret.
        rewrite Hid. cbn. rewrite Hrel. cbn. rewrite Hfind. reflexivity. }
      rewrite sendMessage_unfold in Hrun. unfold tryCatch in Hrun.
      rewrite Eresolve in Hrun.
      destruct (sendTail_run dto c wa Hrel)
        as (ctx & turns & wg & out & wg' & Egen & _ & _ & _ & _ & _ & Hout).
      destruct out as [ai|e].
      * destruct Hout as (w0 & Etail & _ & Hmsgs & _). rewrite Etail in Hrun.
        inversion Hrun; subst r w'. simpl. rewrite Hmsgs, Hcid.
        repeat apply conj; reflexivity.
      * rewrite Hout in Hrun. unfold rethrow in Hrun.
        destruct (isHttpException e); discriminate.
    + intros events u w' Hrun.
      destruct (streamResolve_reliable dto w Hrel)
        as (c' & wb & Eres & Hrelb & _ & Hmsgsb & _ & _ & Hsame).
      specialize (Hsame id c Hid Hfind). subst c'.
      rewrite streamResponse_unfold, Eres in Hrun.
      destruct (streamTail_run dto c wb Hrelb)
        as (ctx & turns & wg & tokens & out & wg' & Egen & _ & _ & _ & Hout).
      destruct out as [u'|e].
      * destruct Hout as (w0 & Etail & _ & Hmsgs). rewrite Etail in Hrun.
        inversion Hrun; subst. eexists _, _. rewrite Hmsgs, Hmsgsb.
        repeat apply conj; reflexivity.
      * destruct Hout as [Etail _]. rewrite Etail in Hrun. discriminate.
Qed.

End StaleWindow.

(** A world in which the conversation 7 exists, holds three messages, and
    has a window of the first two of them cached. *)
Definition chattedWorld : World PrimFloat.float := {|
  env := sampleEnv;
  conversations :=
    [ {| c_id := 7%N; c_studentId := 5%N; c_title := "Nueva conversación";
         c_isActive := true; c_lastMessageAt := 3%N; c_messageCount := 2%Z |} ];
  chatMessages := [ numbered 1; numbered 2; numbered 3 ];
  knowledgeChunks := [];
  nextObjectId := 100%N;
  clock := 1000%N;
  conversationCache := {[ 7%N := 0%nat ]};
  arrays := {[ 0%nat := [ ChatService.toHistory (numbered 1);
                          ChatService.toHistory (numbered 2) ] ]};
  storeCalls := 0;
  responseCalls := 0;
  randomCalls := 0;
  sleptMs := 0%N
|}.

Lemma cached_window_not_refreshed_witness :
  let dto := {| ChatService.studentId := 5%N; ChatService.message := "Hola";
                ChatService.conversationId := Some 7%N |} in
  match ChatService.sendMessage dto chattedWorld with
  | (Returned r, w') =>
      List.length (chatMessages w') = 5
      /\ arrays w' !! 0%nat
         = Some [ ChatService.toHistory (numbered 1); ChatService.toHistory (numbered 2) ]
  | (Thrown _, _) => False
  end.
Proof.
  intros dto.
  destruct (ChatService.sendMessage dto chattedWorld) as [[r|e] w'] eqn:Hrun.
  - destruct (cached_window_not_refreshed dto chattedWorld 7%N 0%nat
                [ ChatService.toHistory (numbered 1); ChatService.toHistory (numbered 2) ]
                eq_refl eq_refl)
      as (Hsend & _ & Hgrow).
    destruct (Hsend _ _ Hrun) as (_ & Hsame & _).
    destruct Hgrow as [Hgrow _];
      [intros n; reflexivity | reflexivity | eexists; reflexivity |].
    destruct (Hgrow _ _ Hrun) as (Hmsgs & _).
    split; [rewrite Hmsgs; reflexivity | exact Hsame].
  - vm_compute in Hrun. discriminate.
Defined.

(** ** Resets and invalidations of the cache *)
Section CacheReset.
Context {num : Type} `{Number num}.
Import ChatService.




End CacheReset.


(** ** Retrieval is best effort *)
Section BestEffortRetrieval.
Context {num : Type} `{Number num}.
Import ChatService.

(** The options with which the chat service searches. *)
Definition chatSearchOptions : KnowledgeService.SearchOptions num :=
  {| KnowledgeService.o_courseId := None; KnowledgeService.o_limit := Some 3%Z;
     KnowledgeService.o_minScore := Some num_half |}.





End BestEffortRetrieval.

(** The embeddings endpoint is down. *)
Definition embeddingOutageEnv : Env PrimFloat.float := {|
  apiKey := true;
  chatModel := chatModel sampleEnv;
  messageCountDefault := messageCountDefault sampleEnv;
  storeFault := storeFault sampleEnv;
  embeddingsCreate := fun _ => inl (JsError "APIConnectionError" "Connection error." None);
  responsesCreate := responsesCreate sampleEnv;
  responsesStream := responsesStream sampleEnv;
  limiterQueued := 0;
  limiterDropped := limiterDropped sampleEnv;
  mathRandom := mathRandom sampleEnv
|}.


(** With the embeddings endpoint down the message is answered, with no
    retrieved context. *)
Example sendMessage_survives_embedding_outage :
  match fst (ChatService.sendMessage holaDto (worldOf embeddingOutageEnv testChunks [])) with
  | Returned r => m_content (ChatService.res_assistantMessage r) = "Hi there"
  | Thrown _ => False
  end.
Proof. vm_compute. reflexivity. Qed.

(** A chunk whose embedding has two components, against query embeddings
    of three: scoring it throws. *)
Definition misshapenChunks : list (KnowledgeChunk PrimFloat.float) :=
  [ chunkOf 1%N "Chunk of another model" [1; 0]%float 0%Z ].

(** The search throws, and the message is answered all the same. *)
Example sendMessage_survives_retrieval_failure :
  fst (KnowledgeService.searchSimilar "Hola" chatSearchOptions
         (worldOf sampleEnv misshapenChunks []))
  = Thrown (JsError "Error" "Vectors must have the same length" None)
  /\ match fst (ChatService.sendMessage holaDto (worldOf sampleEnv misshapenChunks [])) with
     | Returned r => m_content (ChatService.res_assistantMessage r) = "Hi there"
     | Thrown _ => False
     end.
Proof. split; vm_compute; reflexivity. Qed.

(** * Further properties of the services *)

(** ** KnowledgeService: when a search fails *)
Section SearchFailure.
Context {num : Type} `{Number num}.
Import KnowledgeService.





End SearchFailure.

(** ** KnowledgeService: how many results a search returns *)
Section SearchCount.
Context {num : Type} `{Number num}.
Import KnowledgeService.

Lemma insertBy_Permutation {A} (after : A -> A -> bool) (x : A) (l : list A) :
  Permutation (insertBy after x l) (x :: l).
Proof.
  induction l as [|y l IH]; simpl; [reflexivity|].
  destruct (after x y); [|reflexivity].
  rewrite IH. apply perm_swap.
Qed.

Lemma stableSort_Permutation {A} (after : A -> A -> bool) (l : list A) :
  Permutation (stableSort after l) l.
Proof.
  induction l as [|x l IH]; simpl; [reflexivity|].
  rewrite insertBy_Permutation. apply perm_skip, IH.
Qed.






End SearchCount.


(** ** KnowledgeService: deleting the chunks of a course, and the statistics *)
Section CourseChunks.
Context {num : Type} `{Number num}.
Import KnowledgeService.

(** The chunks of the courses other than [courseId], in their order. *)
Definition otherCourses (courseId : ObjectId) (chunks : list (KnowledgeChunk num))
    : list (KnowledgeChunk num) :=
  List.filter (fun k => negb (ofCourse courseId k)) chunks.

Lemma otherCourses_none (courseId : ObjectId) (chunks : list (KnowledgeChunk num)) :
  List.filter (ofCourse courseId) (otherCourses courseId chunks) = [].
Proof.
  induction chunks as [|k chunks IH]; simpl; [reflexivity|].
  destruct (ofCourse courseId k) eqn:Hk; simpl; [exact IH|].
  rewrite Hk. exact IH.
Qed.

Lemma otherCourses_idem (courseId : ObjectId) (chunks : list (KnowledgeChunk num)) :
  otherCourses courseId (otherCourses courseId chunks) = otherCourses courseId chunks.
Proof.
  induction chunks as [|k chunks IH]; simpl; [reflexivity|].
  destruct (ofCourse courseId k) eqn:Hk; simpl; [exact IH|].
  rewrite Hk. simpl. f_equal. exact IH.
Qed.

Lemma filter_split_length {A} (f : A -> bool) (l : list A) :
  length (List.filter f l) + length (List.filter (fun x => negb (f x)) l) = length l.
Proof.
  induction l as [|x l IH]; simpl; [reflexivity|].
  destruct (f x); simpl; lia.
Qed.

Lemma deleteCourseChunks_run (courseId : ObjectId) (w : World num) :
  storeFault (env w) (storeCalls w) = None ->
  deleteCourseChunks courseId w
  = (Returned (length (List.filter (ofCourse courseId) (knowledgeChunks w))),
     set_knowledgeChunks (otherCourses courseId (knowledgeChunks w))
       (set_storeCalls (S (storeCalls w)) w)).
Proof.
  intros Hok. unfold deleteCourseChunks, knowledgeChunk_deleteMany, storeCall, bind, ret.
  rewrite Hok. reflexivity.
Qed.

(** When the store accepts the call, [deleteCourseChunks] removes the
    chunks of the course and no other: it gives their number, the chunks
    of the other courses stay in their order, and nothing else of the
    store changes. Deleting again finds nothing to delete. When the store
    rejects the call, nothing is deleted. *)
Theorem deleteCourseChunks_removes_course (courseId : ObjectId) (w : World num) :
  (storeFault (env w) (storeCalls w) = None ->
   exists deletedCount w',
     deleteCourseChunks courseId w = (Returned deletedCount, w')
     /\ deletedCount = length (List.filter (ofCourse courseId) (knowledgeChunks w))
     /\ knowledgeChunks w' = otherCourses courseId (knowledgeChunks w)
     /\ List.filter (ofCourse courseId) (knowledgeChunks w') = []
     /\ length (knowledgeChunks w') + deletedCount = length (knowledgeChunks w)
     /\ conversations w' = conversations w /\ chatMessages w' = chatMessages w
     /\ (storeFault (env w') (storeCalls w') = None ->
         exists w'', deleteCourseChunks courseId w' = (Returned 0, w'')
                     /\ knowledgeChunks w'' = knowledgeChunks w'))
  /\ (forall e, storeFault (env w) (storeCalls w) = Some e ->
        exists w', deleteCourseChunks courseId w = (Thrown e, w')
                   /\ knowledgeChunks w' = knowledgeChunks w).
Proof.
  split.
  - intros Hok. eexists _, _. split; [apply deleteCourseChunks_run, Hok|].
    simpl. repeat apply conj; try reflexivity.
    + apply otherCourses_none.
    + rewrite Nat.add_comm. apply filter_split_length.
    + intros Hok'. eexists. split.
      * rewrite deleteCourseChunks_run by exact Hok'. simpl.
        rewrite otherCourses_none. reflexivity.
      * simpl. apply otherCourses_idem.
  - intros e Hfault. eexists. split.
    + unfold deleteCourseChunks, knowledgeChunk_deleteMany, storeCall, bind.
      rewrite Hfault. reflexivity.
    + reflexivity.
Qed.

Lemma getStats_run (w : World num) :
  storeFault (env w) (storeCalls w) = None ->
  storeFault (env w) (S (storeCalls w)) = None ->
  getStats w
  = (Returned {| totalChunks := length (knowledgeChunks w);
                 coursesCovered :=
                   length (remove_dups (map k_courseId (knowledgeChunks w))) |},
     set_storeCalls (S (S (storeCalls w))) w).
Proof.
  intros Hok1 Hok2.
  unfold getStats, knowledgeChunk_countDocuments, knowledgeChunk_distinctCourseId,
    storeCall, bind, ret.
  rewrite Hok1. simpl. rewrite Hok2. reflexivity.
Qed.

Lemma remove_dups_length_le {A} `{EqDecision A} (l : list A) :
  length (remove_dups l) <= length l.
Proof.
  induction l as [|x l IH]; simpl; [lia|].
  destruct (decide_rel elem_of x l); simpl; lia.
Qed.

Lemma remove_dups_nil_inv {A} `{EqDecision A} (l : list A) :
  remove_dups l = [] -> l = [].
Proof.
  intros Hnil. destruct l as [|x l]; [reflexivity|].
  assert (Hin : x ∈ remove_dups (x :: l)) by (apply elem_of_remove_dups; left).
  rewrite Hnil in Hin. inversion Hin.
Qed.

(** The statistics, when the store accepts the two queries: the number
    of chunks, and the number of courses that have a chunk, each course
    counted once. The courses are never more than the chunks, a course is
    counted as soon as there is a chunk, and the call changes nothing but
    the count of store calls. *)
Theorem getStats_counts (w : World num) :
  storeFault (env w) (storeCalls w) = None ->
  storeFault (env w) (S (storeCalls w)) = None ->
  exists stats,
    getStats w = (Returned stats, set_storeCalls (S (S (storeCalls w))) w)
    /\ totalChunks stats = length (knowledgeChunks w)
    /\ coursesCovered stats <= totalChunks stats
    /\ (coursesCovered stats = 0 <-> totalChunks stats = 0)
    /\ (forall courseId,
          (exists k, In k (knowledgeChunks w) /\ k_courseId k = courseId)
          <-> courseId ∈ remove_dups (map k_courseId (knowledgeChunks w)))
    /\ coursesCovered stats
       = length (remove_dups (map k_courseId (knowledgeChunks w)))
    /\ NoDup (remove_dups (map k_courseId (knowledgeChunks w))).
Proof.
  intros Hok1 Hok2. eexists. split; [apply getStats_run; assumption|].
  simpl. repeat apply conj; try reflexivity.
  - etransitivity; [apply remove_dups_length_le|]. rewrite length_map. reflexivity.
  - intros Hzero. apply length_zero_iff_nil in Hzero.
    apply remove_dups_nil_inv in Hzero. apply map_eq_nil in Hzero.
    rewrite Hzero. reflexivity.
  - intros Hzero. apply length_zero_iff_nil in Hzero. rewrite Hzero. reflexivity.
  - intros courseId. split.
    + intros (k & Hin & <-). apply elem_of_remove_dups. apply list_elem_of_In.
      apply in_map. exact Hin.
    + intros Hin. apply elem_of_remove_dups, list_elem_of_In, in_map_iff in Hin.
      destruct Hin as (k & Hk & Hin). exists k. split; assumption.
  - apply NoDup_remove_dups.
Qed.

End CourseChunks.

Lemma getStats_counts_witness :
  exists stats,
    KnowledgeService.getStats (worldOf sampleEnv testChunks [])
    = (Returned stats,
       set_storeCalls (S (S (storeCalls (worldOf sampleEnv testChunks []))))
         (worldOf sampleEnv testChunks []))
    /\ KnowledgeService.totalChunks stats = 3
    /\ KnowledgeService.coursesCovered stats = 1.
Proof.
  destruct (getStats_counts (worldOf sampleEnv testChunks []) eq_refl eq_refl)
    as (stats & Hrun & Htotal & _ & _ & _ & Hcourses & _).
  exists stats. split; [exact Hrun|]. split; [exact Htotal | exact Hcourses].
Defined.

Section StatsAfterDelete.
Context {num : Type} `{Number num}.
Import KnowledgeService.

Lemma courses_after_delete (courseId : ObjectId) (chunks : list (KnowledgeChunk num)) :
  In courseId (map k_courseId chunks) ->
  length (remove_dups (map k_courseId chunks))
  = S (length (remove_dups (map k_courseId (otherCourses courseId chunks)))).
Proof.
  intros Hin.
  change (S (length (remove_dups (map k_courseId (otherCourses courseId chunks)))))
    with (length (courseId
                  :: remove_dups (map k_courseId (otherCourses courseId chunks)))).
  apply Permutation_length. apply NoDup_Permutation.
  - apply NoDup_remove_dups.
  - apply NoDup_cons. split; [|apply NoDup_remove_dups].
    rewrite elem_of_remove_dups, list_elem_of_In, in_map_iff.
    intros (k & Hk & Hink). apply filter_In in Hink as [_ Hother].
    unfold ofCourse in Hother. rewrite Hk, N.eqb_refl in Hother. discriminate.
  - intros x. rewrite elem_of_cons, !elem_of_remove_dups, !list_elem_of_In, !in_map_iff.
    split.
    + intros (k & Hk & Hink).
      destruct (N.eq_dec x courseId) as [->|Hne]; [left; reflexivity|].
      right. exists k. split; [exact Hk|]. apply filter_In. split; [exact Hink|].
      unfold ofCourse. rewrite Hk. destruct (N.eqb_spec x courseId); [contradiction|].
      reflexivity.
    + intros [->|(k & Hk & Hink)].
      * apply in_map_iff in Hin. exact Hin.
      * exists k. split; [exact Hk|]. apply filter_In in Hink. tauto.
Qed.

Lemma courses_after_delete_none (courseId : ObjectId)
    (chunks : list (KnowledgeChunk num)) :
  ~ In courseId (map k_courseId chunks) ->
  otherCourses courseId chunks = chunks.
Proof.
  induction chunks as [|k chunks IH]; simpl; intros Hnot; [reflexivity|].
  unfold ofCourse at 1. destruct (N.eqb_spec (k_courseId k) courseId) as [Heq|Hne]; simpl.
  - exfalso. apply Hnot. left. exact Heq.
  - f_equal. apply IH. intros Hin. apply Hnot. right. exact Hin.
Qed.

(** The statistics before and after the chunks of a course are deleted,
    on a store that does not reject: the number of chunks falls by the
    number deleted, and the number of courses by one when the course had
    a chunk, and not at all when it had none. *)
Theorem getStats_after_delete (courseId : ObjectId) (w : World num) :
  reliable w ->
  exists before deletedCount w1 after w2,
    getStats w = (Returned before, set_storeCalls (S (S (storeCalls w))) w)
    /\ deleteCourseChunks courseId w = (Returned deletedCount, w1)
    /\ getStats w1 = (Returned after, w2)
    /\ totalChunks after + deletedCount = totalChunks before
    /\ coursesCovered after + (if (0 <? deletedCount)%nat then 1 else 0)
       = coursesCovered before.
Proof.
  intros Hrel.
  eexists _, _, _, _, _. split; [apply getStats_run; apply Hrel|].
  split; [apply deleteCourseChunks_run; apply Hrel|].
  split; [apply getStats_run; apply Hrel|].
  simpl. split.
  - rewrite Nat.add_comm. apply filter_split_length.
  - destruct (in_dec N.eq_dec courseId (map k_courseId (knowledgeChunks w)))
      as [Hin|Hnot].
    + rewrite (courses_after_delete courseId (knowledgeChunks w) Hin).
      apply in_map_iff in Hin as (k & Hk & Hink).
      assert (Hpos : 0 < length (List.filter (ofCourse courseId) (knowledgeChunks w))).
      { assert (Hf : In k (List.filter (ofCourse courseId) (knowledgeChunks w))).
        { apply filter_In. split; [exact Hink|]. unfold ofCourse. rewrite Hk.
          apply N.eqb_refl. }
        destruct (List.filter (ofCourse courseId) (knowledgeChunks w));
          [inversion Hf | simpl; lia]. }
      destruct (Nat.ltb_spec 0
                  (length (List.filter (ofCourse courseId) (knowledgeChunks w))));
        lia.
    + rewrite (courses_after_delete_none courseId (knowledgeChunks w) Hnot).
      assert (Hnone : List.filter (ofCourse courseId) (knowledgeChunks w) = []).
      { rewrite <- (courses_after_delete_none courseId (knowledgeChunks w) Hnot).
        apply otherCourses_none. }
      rewrite Hnone. simpl. lia.
Qed.

End StatsAfterDelete.

Lemma getStats_after_delete_witness :
  exists before deletedCount w1 after w2,
    KnowledgeService.getStats (worldOf sampleEnv testChunks [])
    = (Returned before,
       set_storeCalls (S (S (storeCalls (worldOf sampleEnv testChunks []))))
         (worldOf sampleEnv testChunks []))
    /\ KnowledgeService.deleteCourseChunks 1%N (worldOf sampleEnv testChunks [])
       = (Returned deletedCount, w1)
    /\ KnowledgeService.getStats w1 = (Returned after, w2)
    /\ KnowledgeService.totalChunks after + deletedCount
       = KnowledgeService.totalChunks before
    /\ KnowledgeService.coursesCovered after
       + (if (0 <? deletedCount)%nat then 1 else 0)
       = KnowledgeService.coursesCovered before.
Proof.
  apply (getStats_after_delete 1%N (worldOf sampleEnv testChunks [])).
  intros n. reflexivity.
Defined.

(** ** KnowledgeService: indexing the content of a course *)
Section IndexCourseContent.
Context {num : Type} `{Number num}.
Import KnowledgeService.

(** The chunk texts with their indices, from index [i] on. *)
Fixpoint enumFrom (i : nat) (texts : list string) : list (nat * string) :=
  match texts with
  | [] => []
  | text :: rest => (i, text) :: enumFrom (S i) rest
  end.

(** The document [indexCourseContent] stores for a chunk, when the
    provider embeds its text. *)
Definition storedChunk (e : Env num) (courseId : ObjectId) (sourceFile : string)
    (chunk : nat * string) : option (KnowledgeChunk num) :=
  match embeddingsCreate e (snd chunk) with
  | inr (embedding, _) =>
      Some {| k_courseId := courseId; k_content := snd chunk;
              k_embedding := embedding; k_sourceFile := sourceFile;
              k_chunkIndex := Z.of_nat (fst chunk);
              k_metadata := Some {| pageNumber := None; section := None |} |}
  | inl _ => None
  end.

(** The chunks of a batch in the order of arrival. *)
Definition batchItems (i : nat) (batch : list string) (order : list nat)
    : list (nat * string) :=
  omap (fun index => option_map (pair (i + index)) (nth_error batch index)) order.

(** What one run leaves unchanged, and what it appends to the chunks. *)
Definition appendsChunks (created : list (KnowledgeChunk num)) (w w' : World num) : Prop :=
  env w' = env w
  /\ knowledgeChunks w' = knowledgeChunks w ++ created
  /\ conversations w' = conversations w
  /\ chatMessages w' = chatMessages w
  /\ conversationCache w' = conversationCache w
  /\ arrays w' = arrays w.

Lemma appendsChunks_refl (w : World num) : appendsChunks [] w w.
Proof. unfold appendsChunks. rewrite app_nil_r. repeat apply conj; reflexivity. Qed.

Lemma appendsChunks_trans (a b : list (KnowledgeChunk num)) (w1 w2 w3 : World num) :
  appendsChunks a w1 w2 -> appendsChunks b w2 w3 -> appendsChunks (a ++ b) w1 w3.
Proof.
  intros (He & Hk & Hc & Hm & Hcc & Ha) (He' & Hk' & Hc' & Hm' & Hcc' & Ha').
  unfold appendsChunks. rewrite He', Hk', Hc', Hm', Hcc', Ha', Hk, app_assoc.
  repeat apply conj; assumption || reflexivity.
Qed.

Lemma reliable_env (w w' : World num) : env w' = env w -> reliable w -> reliable w'.
Proof. intros He Hrel n. rewrite He. apply Hrel. Qed.

Lemma indexChunk_run (courseId : ObjectId) (sourceFile : string) (chunkIndex : nat)
    (chunkText : string) (w : World num) :
  reliable w -> apiKey (env w) = true ->
  exists w',
    indexChunk courseId sourceFile chunkIndex chunkText w
    = (Returned (length (option_list
                           (storedChunk (env w) courseId sourceFile
                              (chunkIndex, chunkText)))), w')
    /\ appendsChunks
         (option_list (storedChunk (env w) courseId sourceFile (chunkIndex, chunkText)))
         w w'.
Proof.
  intros Hrel Hkey.
  unfold indexChunk, createEmbedding, isConfigured, knowledgeChunk_create, storedChunk.
  unfold tryCatch, bind, ret, throw. rewrite Hkey. cbn.
  destruct (embeddingsCreate (env w) chunkText) as [e|[embedding tokens]]; cbn.
  - exists w. split; [reflexivity | apply appendsChunks_refl].
  - rewrite storeCall_reliable by exact Hrel. cbn.
    eexists. split; [reflexivity|].
    unfold appendsChunks. cbn. repeat apply conj; reflexivity.
Qed.

Lemma indexBatch_run (courseId : ObjectId) (sourceFile : string) (i : nat)
    (batch : list string) (order : list nat) (w : World num) :
  reliable w -> apiKey (env w) = true ->
  exists w',
    indexBatch courseId sourceFile i batch order w
    = (Returned (length (omap (storedChunk (env w) courseId sourceFile)
                           (batchItems i batch order))), w')
    /\ appendsChunks
         (omap (storedChunk (env w) courseId sourceFile) (batchItems i batch order))
         w w'.
Proof.
  revert w. induction order as [|index order IH]; intros w Hrel Hkey.
  - exists w. split; [reflexivity | apply appendsChunks_refl].
  - simpl. unfold batchItems. simpl.
    destruct (nth_error batch index) as [chunkText|] eqn:Hnth; simpl.
    + destruct (indexChunk_run courseId sourceFile (i + index) chunkText w Hrel Hkey)
        as (w1 & Erun & Happ).
      assert (Henv : env w1 = env w) by apply Happ.
      destruct (IH w1) as (w2 & Erest & Happ2).
      { apply (reliable_env w); assumption. }
      { rewrite Henv. exact Hkey. }
      rewrite Henv in Erest, Happ2.
      exists w2. split.
      * unfold bind. rewrite Erun, Erest. unfold ret. f_equal. f_equal.
        fold (batchItems i batch order).
        destruct (storedChunk (env w) courseId sourceFile (i + index, chunkText));
          simpl; reflexivity.
      * fold (batchItems i batch order).
        pose proof (appendsChunks_trans _ _ _ _ _ Happ Happ2) as Hall.
        destruct (storedChunk (env w) courseId sourceFile (i + index, chunkText));
          exact Hall.
    + destruct (IH w Hrel Hkey) as (w2 & Erest & Happ2).
      exists w2. split; [|exact Happ2].
      unfold bind, ret at 1. rewrite Erest. reflexivity.
Qed.

(** The documents the loop over the batches stores, batch after batch. *)
Fixpoint createdBy (arrival : nat -> list nat) (e : Env num) (courseId : ObjectId)
    (sourceFile : string) (chunks : list string) (fuel i : nat)
    : list (KnowledgeChunk num) :=
  match fuel with
  | 0 => []
  | S fuel' =>
      if (i <? length chunks)%nat
      then omap (storedChunk e courseId sourceFile)
             (batchItems i (firstn batchSize (drop i chunks)) (arrival i))
           ++ createdBy arrival e courseId sourceFile chunks fuel' (i + batchSize)
      else []
  end.

Lemma indexBatches_run (arrival : nat -> list nat) (courseId : ObjectId)
    (sourceFile : string) (chunks : list string) (fuel i : nat) (w : World num) :
  reliable w -> apiKey (env w) = true ->
  exists w',
    indexBatches arrival courseId sourceFile chunks fuel i w
    = (Returned (length (createdBy arrival (env w) courseId sourceFile chunks fuel i)),
       w')
    /\ appendsChunks (createdBy arrival (env w) courseId sourceFile chunks fuel i) w w'.
Proof.
  revert i w. induction fuel as [|fuel IH]; intros i w Hrel Hkey.
  - exists w. split; [reflexivity | apply appendsChunks_refl].
  - simpl. destruct (i <? length chunks)%nat.
    + destruct (indexBatch_run courseId sourceFile i (firstn batchSize (drop i chunks))
                  (arrival i) w Hrel Hkey) as (w1 & Erun & Happ).
      assert (Henv : env w1 = env w) by apply Happ.
      destruct (IH (i + batchSize) w1) as (w2 & Erest & Happ2).
      { apply (reliable_env w); assumption. }
      { rewrite Henv. exact Hkey. }
      rewrite Henv in Erest, Happ2.
      exists w2. split.
      * unfold bind. rewrite Erun, Erest. unfold ret. rewrite length_app. reflexivity.
      * apply (appendsChunks_trans _ _ _ _ _ Happ Happ2).
    + exists w. split; [reflexivity | apply appendsChunks_refl].
Qed.

Lemma omap_seq_shift {A} (f : nat -> option A) (a n : nat) :
  omap f (seq (S a) n) = omap (fun x => f (S x)) (seq a n).
Proof.
  revert a. induction n as [|n IH]; intros a; simpl; [reflexivity|].
  rewrite IH. reflexivity.
Qed.

Lemma omap_ext_fun {A B} (f g : A -> option B) (l : list A) :
  (forall x, f x = g x) -> omap f l = omap g l.
Proof.
  intros Hfg. induction l as [|x l IH]; csimpl; [reflexivity|].
  rewrite Hfg, IH. reflexivity.
Qed.

(** In the order of the batch, the items are the chunks of the batch
    with their indices. *)
Lemma batchItems_seq (i : nat) (batch : list string) :
  batchItems i batch (seq 0 (length batch)) = enumFrom i batch.
Proof.
  unfold batchItems. revert i. induction batch as [|text batch IH]; intros i;
    [reflexivity|].
  cbn [length seq enumFrom]. csimpl. rewrite Nat.add_0_r. f_equal.
  rewrite omap_seq_shift. rewrite <- IH. apply omap_ext_fun. intros index.
  cbn. rewrite Nat.add_succ_r. reflexivity.
Qed.

Lemma enumFrom_app (i : nat) (l1 l2 : list string) :
  enumFrom i (l1 ++ l2) = enumFrom i l1 ++ enumFrom (i + length l1) l2.
Proof.
  revert i. induction l1 as [|x l1 IH]; intros i; simpl.
  - rewrite Nat.add_0_r. reflexivity.
  - rewrite IH. rewrite Nat.add_succ_r. reflexivity.
Qed.

Lemma enumFrom_batch (i : nat) (l : list string) :
  enumFrom i l
  = enumFrom i (firstn batchSize l) ++ enumFrom (i + batchSize) (drop batchSize l).
Proof.
  rewrite <- (firstn_skipn batchSize l) at 1. rewrite enumFrom_app.
  f_equal. change (skipn batchSize l) with (drop batchSize l).
  destruct (Nat.le_gt_cases batchSize (length l)) as [Hle|Hgt].
  - rewrite length_firstn, Nat.min_l by exact Hle. reflexivity.
  - rewrite (drop_ge l batchSize) by lia. reflexivity.
Qed.

(** Whatever the order of arrival inside each batch, the documents stored
    are those of the chunks the provider embeds, each once. *)
Lemma createdBy_Permutation (arrival : nat -> list nat) (e : Env num)
    (courseId : ObjectId) (sourceFile : string) (chunks : list string) :
  (forall i, Permutation (arrival i)
               (seq 0 (length (firstn batchSize (drop i chunks))))) ->
  forall fuel i,
    length chunks <= i + fuel ->
    Permutation (createdBy arrival e courseId sourceFile chunks fuel i)
      (omap (storedChunk e courseId sourceFile) (enumFrom i (drop i chunks))).
Proof.
  intros Harrival. induction fuel as [|fuel IH]; intros i Hfuel.
  - simpl. rewrite drop_ge by lia. reflexivity.
  - simpl. destruct (Nat.ltb_spec i (length chunks)) as [Hlt|Hge].
    + rewrite (enumFrom_batch i (drop i chunks)), omap_app.
      apply Permutation_app.
      * unfold batchItems. rewrite (Harrival i).
        fold (batchItems i (firstn batchSize (drop i chunks))
                (seq 0 (length (firstn batchSize (drop i chunks))))).
        rewrite batchItems_seq. reflexivity.
      * rewrite drop_drop. apply IH. unfold batchSize. lia.
    + rewrite drop_ge by lia. reflexivity.
Qed.

(** The provider embeds the text. *)
Definition embeddable (e : Env num) (text : string) : bool :=
  match embeddingsCreate e text with inr _ => true | inl _ => false end.

Lemma storedChunk_count (e : Env num) (courseId : ObjectId) (sourceFile : string)
    (i : nat) (texts : list string) :
  length (omap (storedChunk e courseId sourceFile) (enumFrom i texts))
  = length (List.filter (embeddable e) texts).
Proof.
  revert i. induction texts as [|text texts IH]; intros i; simpl; [reflexivity|].
  unfold storedChunk at 1, embeddable at 1. simpl.
  destruct (embeddingsCreate e text) as [err|[embedding tokens]]; simpl; rewrite IH;
    reflexivity.
Qed.

(** Indexing a course replaces its chunks. With the key set, on a store
    that does not reject, and whatever the order in which the embeddings
    of each batch arrive: the chunks the course had are deleted; the
    content is split at 1000 characters and one document is stored for
    each chunk the provider embeds, and none for the others; the
    documents carry the course, the text of the chunk, its embedding, the
    source file and the index of the chunk in the split; they come after
    the chunks of the other courses, which stay as they were; the result
    is the number of documents stored. *)
Theorem indexCourseContent_reindexes (arrival : nat -> list nat) (courseId : ObjectId)
    (body sourceFile : string) (w : World num) :
  reliable w ->
  apiKey (env w) = true ->
  (forall i, Permutation (arrival i)
               (seq 0 (length (firstn batchSize (drop i (splitIntoChunks body 1000)))))) ->
  exists created w',
    indexCourseContent arrival courseId body sourceFile w
    = (Returned (length created), w')
    /\ knowledgeChunks w' = otherCourses courseId (knowledgeChunks w) ++ created
    /\ Permutation created
         (omap (storedChunk (env w) courseId sourceFile)
            (enumFrom 0 (splitIntoChunks body 1000)))
    /\ length created
       = length (List.filter (embeddable (env w)) (splitIntoChunks body 1000))
    /\ conversations w' = conversations w
    /\ chatMessages w' = chatMessages w.
Proof.
  intros Hrel Hkey Harrival.
  set (chunks := splitIntoChunks body 1000) in *.
  set (w1 := set_knowledgeChunks (otherCourses courseId (knowledgeChunks w))
               (set_storeCalls (S (storeCalls w)) w)).
  destruct (indexBatches_run arrival courseId sourceFile chunks (length chunks) 0 w1)
    as (w' & Erun & Happ); [exact Hrel | exact Hkey |].
  change (env w1) with (env w) in Erun, Happ.
  pose proof (createdBy_Permutation arrival (env w) courseId sourceFile chunks
                Harrival (length chunks) 0 (Nat.le_refl _)) as Hperm.
  rewrite drop_0 in Hperm.
  exists (createdBy arrival (env w) courseId sourceFile chunks (length chunks) 0), w'.
  destruct Happ as (_ & Hk & Hc & Hm & _ & _).
  repeat apply conj.
  - unfold indexCourseContent, bind, isConfigured. rewrite Hkey. cbn.
    rewrite deleteCourseChunks_run by apply Hrel.
    fold chunks. fold w1. exact Erun.
  - exact Hk.
  - exact Hperm.
  - rewrite (Permutation_length Hperm). apply storedChunk_count.
  - exact Hc.
  - exact Hm.
Qed.

(** Without the key nothing is indexed and nothing is deleted:
    [indexCourseContent] throws at once. With the key and a provider that
    embeds none of the chunks, on a store that does not reject, the call
    returns 0 and the course is left without chunks: those it had are
    deleted all the same. *)
Theorem indexCourseContent_nothing_embedded (arrival : nat -> list nat)
    (courseId : ObjectId) (body sourceFile : string) (w : World num) :
  (apiKey (env w) = false ->
   indexCourseContent arrival courseId body sourceFile w
   = (Thrown (JsError "Error" "OpenAI not configured for indexing content" None), w))
  /\ (apiKey (env w) = true ->
      reliable w ->
      (forall text, embeddable (env w) text = false) ->
      exists w',
        indexCourseContent arrival courseId body sourceFile w = (Returned 0, w')
        /\ knowledgeChunks w' = otherCourses courseId (knowledgeChunks w)
        /\ List.filter (ofCourse courseId) (knowledgeChunks w') = []).
Proof.
  split.
  - intros Hkey. unfold indexCourseContent, bind, isConfigured. rewrite Hkey.
    reflexivity.
  - intros Hkey Hrel Hnone.
    set (chunks := splitIntoChunks body 1000).
    set (w1 := set_knowledgeChunks (otherCourses courseId (knowledgeChunks w))
                 (set_storeCalls (S (storeCalls w)) w)).
    destruct (indexBatches_run arrival courseId sourceFile chunks (length chunks) 0 w1)
      as (w' & Erun & Happ); [exact Hrel | exact Hkey |].
    change (env w1) with (env w) in Erun, Happ.
    assert (Hempty : forall fuel i,
               createdBy arrival (env w) courseId sourceFile chunks fuel i = []).
    { induction fuel as [|fuel IH]; intros i; simpl; [reflexivity|].
      destruct (i <? length chunks)%nat; [|reflexivity].
      rewrite IH, app_nil_r.
      induction (batchItems i (firstn batchSize (drop i chunks)) (arrival i))
        as [|[index text] items IHitems]; simpl; [reflexivity|].
      unfold storedChunk at 1. simpl.
      specialize (Hnone text). unfold embeddable in Hnone.
      destruct (embeddingsCreate (env w) text) as [err|[embedding tokens]];
        [exact IHitems | discriminate]. }
    rewrite Hempty in Erun, Happ. destruct Happ as (_ & Hk & _).
    rewrite app_nil_r in Hk.
    exists w'. repeat apply conj.
    + unfold indexCourseContent, bind, isConfigured. rewrite Hkey. cbn.
      rewrite deleteCourseChunks_run by apply Hrel.
      fold chunks. fold w1. exact Erun.
    + exact Hk.
    + rewrite Hk. apply otherCourses_none.
Qed.

End IndexCourseContent.

(** The embeddings of a batch arrive in the reverse of the order in which
    they were requested. *)
Definition reverseArrival (chunks : list string) (i : nat) : list nat :=
  rev (seq 0 (length (firstn KnowledgeService.batchSize (drop i chunks)))).

Fixpoint repeated (n : nat) (sentence : string) : string :=
  match n with
  | 0 => EmptyString
  | S n' => (sentence ++ repeated n' sentence)%string
  end.

(** A text of 2160 characters: three chunks. *)
Definition lessonText : string := repeated 60 "Una frase de relleno para el curso. ".

Lemma indexCourseContent_reindexes_witness :
  exists created w',
    KnowledgeService.indexCourseContent
      (reverseArrival (KnowledgeService.splitIntoChunks lessonText 1000))
      1%N lessonText "react.pdf" (worldOf sampleEnv testChunks [])
    = (Returned (length created), w')
    /\ knowledgeChunks w'
       = otherCourses 1%N (knowledgeChunks (worldOf sampleEnv testChunks [])) ++ created
    /\ Permutation created
         (omap (storedChunk sampleEnv 1%N "react.pdf")
            (enumFrom 0 (KnowledgeService.splitIntoChunks lessonText 1000)))
    /\ length created
       = length (List.filter (embeddable sampleEnv)
                   (KnowledgeService.splitIntoChunks lessonText 1000))
    /\ conversations w' = conversations (worldOf sampleEnv testChunks [])
    /\ chatMessages w' = chatMessages (worldOf sampleEnv testChunks []).
Proof.
  apply (indexCourseContent_reindexes
           (reverseArrival (KnowledgeService.splitIntoChunks lessonText 1000))
           1%N lessonText "react.pdf" (worldOf sampleEnv testChunks [])).
  - intros n. reflexivity.
  - reflexivity.
  - intros i. unfold reverseArrival. symmetry. apply Permutation_rev.
Defined.

(** The three chunks are stored, the last of the batch first. *)
Example indexCourseContent_three_chunks :
  match KnowledgeService.indexCourseContent
          (reverseArrival (KnowledgeService.splitIntoChunks lessonText 1000))
          1%N lessonText "react.pdf" (worldOf sampleEnv testChunks []) with
  | (Returned chunksCreated, w') =>
      chunksCreated = 3
      /\ map k_chunkIndex (knowledgeChunks w') = [2; 1; 0]%Z
  | (Thrown _, _) => False
  end.
Proof. vm_compute. split; reflexivity. Qed.

Lemma indexCourseContent_nothing_embedded_witness :
  exists w',
    KnowledgeService.indexCourseContent (fun _ => [0]) 1%N "Hola." "react.pdf"
      (worldOf embeddingOutageEnv testChunks [])
    = (Returned 0, w')
    /\ knowledgeChunks w'
       = otherCourses 1%N (knowledgeChunks (worldOf embeddingOutageEnv testChunks []))
    /\ List.filter (ofCourse 1%N) (knowledgeChunks w') = [].
Proof.
  apply (proj2 (indexCourseContent_nothing_embedded (fun _ => [0]) 1%N "Hola."
                  "react.pdf" (worldOf embeddingOutageEnv testChunks []))).
  - reflexivity.
  - intros n. reflexivity.
  - intros text. reflexivity.
Defined.

(** ** AiService: without the key, and on replies it cannot use *)
Section GenerationEdges.
Context {num : Type}.
Import AiService.

(** The text of the placeholder reply number [i]. *)
Definition placeholderText (i : nat) : string :=
  ("[RESPUESTA PLACEHOLDER - Implementar OpenAI]" ++ newline ++ newline
   ++ nth i placeholderResponses "")%string.

(** Without the key, generation cannot fail: whatever the message, the
    history and the retrieved context, the reply is one of the four
    placeholder texts, with 0 tokens and the model name [placeholder]; the
    provider is not called, and one random number is drawn. *)
Theorem generation_without_key (userMessage : string) (history : list MessageHistory)
    (relevantContext : list string) (w : World num) :
  apiKey (env w) = false ->
  exists i,
    i < 4
    /\ generateResponseWithRAG userMessage history relevantContext w
       = (Returned {| ai_content := placeholderText i; ai_tokensUsed := Some 0%Z;
                      ai_model := Some "placeholder" |},
          set_random (S (randomCalls w)) (sleptMs w) w)
    /\ generateResponse userMessage history w
       = generateResponseWithRAG userMessage history relevantContext w.
Proof.
  intros Hkey. exists (mathRandom (env w) (randomCalls w) 4 mod 4).
  split; [apply Nat.mod_upper_bound; discriminate|].
  unfold generateResponse, generateResponseWithRAG, response, bind, isConfigured.
  rewrite Hkey. split; reflexivity.
Qed.

(** A reply of the provider without text, or with white space only, is
    not retried: after that single call the generation fails, and what the
    caller sees is the unavailable failure (503), not the invalid-response
    failure (502) that was raised inside. *)
Theorem response_empty_completion (userMessage : string) (history : list MessageHistory)
    (systemPrompt : string) (w : World num) (output_text : option string)
    (tokens : option Z) (m : string) :
  apiKey (env w) = true ->
  (limiterQueued (env w) < highWater)%nat ->
  responsesCreate (env w) (responseCalls w) (chatModel (env w))
    (buildMessages systemPrompt history userMessage)
  = Resolves output_text tokens m ->
  match output_text with
  | Some text => JsString.isEmpty (JsString.trim text) = true
  | None => True
  end ->
  response userMessage history systemPrompt w
  = (Thrown (OpenAiUnavailableException unavailableMessage),
     touchCounters (S (responseCalls w)) (randomCalls w) (sleptMs w) w).
Proof.
  intros Hkey Hidle Hreply Hblank.
  rewrite (response_configured _ _ _ _ Hkey). unfold tryCatch.
  rewrite (limiterSchedule_idle _ _ Hidle).
  assert (Hcall : callProvider (buildMessages systemPrompt history userMessage) w
                  = (Thrown (OpenAiInvalidResponseException "Respuesta de OpenAI vacía"),
                     set_responseCalls (S (responseCalls w)) w)).
  { unfold callProvider. rewrite Hreply.
    destruct output_text as [text|]; simpl; [rewrite Hblank|]; reflexivity. }
  simpl. unfold tryCatch. rewrite Hcall. reflexivity.
Qed.

End GenerationEdges.

(** The provider that answers every call with white space. *)
Definition blankReplyEnv : Env PrimFloat.float := {|
  apiKey := true;
  chatModel := chatModel sampleEnv;
  messageCountDefault := messageCountDefault sampleEnv;
  storeFault := storeFault sampleEnv;
  embeddingsCreate := embeddingsCreate sampleEnv;
  responsesCreate := fun _ _ _ => Resolves (Some "   ") (Some 3%Z) "gpt-4";
  responsesStream := responsesStream sampleEnv;
  limiterQueued := 0;
  limiterDropped := limiterDropped sampleEnv;
  mathRandom := mathRandom sampleEnv
|}.

(** The sample environment without the key. *)
Definition keylessEnv : Env PrimFloat.float := {|
  apiKey := false;
  chatModel := chatModel sampleEnv;
  messageCountDefault := messageCountDefault sampleEnv;
  storeFault := storeFault sampleEnv;
  embeddingsCreate := embeddingsCreate sampleEnv;
  responsesCreate := responsesCreate sampleEnv;
  responsesStream := responsesStream sampleEnv;
  limiterQueued := 0;
  limiterDropped := limiterDropped sampleEnv;
  mathRandom := fun _ _ => 6
|}.

Lemma generation_without_key_witness :
  exists i,
    i < 4
    /\ AiService.generateResponseWithRAG "Hola" [] ["React es una biblioteca"]
         (worldOf keylessEnv [] [])
       = (Returned {| AiService.ai_content := placeholderText i;
                      AiService.ai_tokensUsed := Some 0%Z;
                      AiService.ai_model := Some "placeholder" |},
          set_random (S (randomCalls (worldOf keylessEnv [] [])))
            (sleptMs (worldOf keylessEnv [] [])) (worldOf keylessEnv [] []))
    /\ AiService.generateResponse "Hola" [] (worldOf keylessEnv [] [])
       = AiService.generateResponseWithRAG "Hola" [] ["React es una biblioteca"]
           (worldOf keylessEnv [] []).
Proof.
  apply (generation_without_key "Hola" [] ["React es una biblioteca"]
           (worldOf keylessEnv [] [])).
  reflexivity.
Defined.

Lemma response_empty_completion_witness :
  fst (AiService.response "Hola" [] AiService.baseSystemPrompt
         (worldOf blankReplyEnv [] []))
  = Thrown (OpenAiUnavailableException unavailableMessage).
Proof.
  rewrite (response_empty_completion "Hola" [] AiService.baseSystemPrompt
             (worldOf blankReplyEnv [] []) (Some "   ") (Some 3%Z) "gpt-4"
             eq_refl ltac:(vm_compute; lia) eq_refl eq_refl).
  reflexivity.
Defined.

(** ** The waits of the retry loop *)
Section Backoff.
Context {num : Type}.
Import AiService.

Lemma pow2_step (a : nat) : (2 ^ N.of_nat (S a) = 2 * 2 ^ N.of_nat a)%N.
Proof. rewrite Nat2N.inj_succ. apply N.pow_succ_r'. Qed.

(** One retry: the world after the rate-limit signal, the draw of the
    jitter and the wait. *)
Definition afterRetry (attempt : nat) (w : World num) : World num :=
  set_random (S (randomCalls w))
    (sleptMs w + (250 * 2 ^ N.of_nat attempt
                  + N.of_nat (mathRandom (env w) (randomCalls w) 250 mod 250)))%N
    (set_responseCalls (S (responseCalls w)) w).

Lemma retryLoop_retries {A} (fn : Async A) (maxRetries left : nat) (w w1 : World num)
    (e : Exception) :
  fn w = (Thrown e, w1) ->
  is429 (exn_status e) = true ->
  retryLoop fn maxRetries (S left) w
  = retryLoop fn maxRetries left
      (set_random (S (randomCalls w1))
         (sleptMs w1 + (250 * 2 ^ N.of_nat (maxRetries - S left)
                        + N.of_nat (mathRandom (env w1) (randomCalls w1) 250 mod 250)))%N
         w1).
Proof.
  intros Hfn H429. simpl. unfold tryCatch at 1. rewrite Hfn. rewrite H429. cbn [negb].
  unfold bind, randomBelow, sleep. reflexivity.
Qed.

Lemma callProvider_rateLimited (messages : list MessageHistory) (w : World num) :
  rateLimitedAt w messages (responseCalls w) ->
  exists e, callProvider messages w = (Thrown e, set_responseCalls (S (responseCalls w)) w)
            /\ is429 (exn_status e) = true.
Proof.
  intros (e & Hrej & H429). exists e. split; [|exact H429].
  unfold callProvider. rewrite Hrej. reflexivity.
Qed.

(** After [k] rate-limit signals the loop has drawn [k] random numbers and
    waited [250 * 2^a] ms plus a jitter below 250 ms before retry number
    [a + 1], [a] counting from the attempt at which the loop is
    entered. *)
Lemma retryLoop_waits (messages : list MessageHistory) (maxRetries : nat)
    (text : string) (tokens : option Z) (m : string) :
  forall (k left : nat) (w : World num),
    k <= left -> left <= maxRetries ->
    (forall i, i < k -> rateLimitedAt w messages (responseCalls w + i)) ->
    responsesCreate (env w) (responseCalls w + k) (chatModel (env w)) messages
      = Resolves (Some text) tokens m ->
    JsString.isEmpty (JsString.trim text) = false ->
    exists jitter slept,
      retryLoop (callProvider messages) maxRetries left w
      = (Returned {| ai_content := JsString.trim text; ai_tokensUsed := tokens;
                     ai_model := Some m |},
         touchCounters (responseCalls w + k + 1) (randomCalls w + k) slept w)
      /\ (jitter <= 249 * N.of_nat k)%N
      /\ (slept + 250 * 2 ^ N.of_nat (maxRetries - left)
          = sleptMs w + 250 * 2 ^ N.of_nat (maxRetries - left + k) + jitter)%N.
Proof.
  induction k as [|k IH]; intros left w Hle Hmax Hlimited Hok Htext.
  - rewrite Nat.add_0_r in Hok. exists 0%N, (sleptMs w). split; [|split].
    + destruct left; simpl; unfold tryCatch, callProvider; rewrite Hok; simpl;
        rewrite Htext; f_equal; world_eq.
    + lia.
    + rewrite Nat.add_0_r. lia.
  - destruct left as [|left]; [lia|].
    destruct (callProvider_rateLimited messages w) as (e & Hcall & H429).
    { specialize (Hlimited 0). rewrite Nat.add_0_r in Hlimited. apply Hlimited. lia. }
    rewrite (retryLoop_retries _ _ _ _ _ _ Hcall H429).
    change (set_random _ _ (set_responseCalls (S (responseCalls w)) w))
      with (afterRetry (maxRetries - S left) w).
    set (w1 := afterRetry (maxRetries - S left) w).
    destruct (IH left w1) as (jitter & slept & Hrun & Hjitter & Hslept).
    + lia.
    + lia.
    + intros i Hi. replace (responseCalls w1 + i) with (responseCalls w + S i)
        by (simpl; lia). apply (Hlimited (S i)). lia.
    + replace (responseCalls w1 + k) with (responseCalls w + S k) by (simpl; lia).
      exact Hok.
    + exact Htext.
    + exists (N.of_nat (mathRandom (env w) (randomCalls w) 250 mod 250) + jitter)%N, slept.
      split; [|split].
      * rewrite Hrun. f_equal. unfold w1, afterRetry. world_eq.
      * pose proof (Nat.mod_upper_bound (mathRandom (env w) (randomCalls w) 250) 250).
        lia.
      * replace (maxRetries - left) with (S (maxRetries - S left)) in Hslept by lia.
        replace (S (maxRetries - S left) + k) with (maxRetries - S left + S k)
          in Hslept by lia.
        rewrite pow2_step in Hslept. unfold w1, afterRetry in Hslept.
        cbn [sleptMs set_random] in Hslept. lia.
Qed.

(** The same when the signal persists: [left] retries, then the failure. *)
Lemma retryLoop_waits_exhausted (messages : list MessageHistory) (maxRetries : nat) :
  forall (left : nat) (w : World num),
    left <= maxRetries ->
    (forall i, i <= left -> rateLimitedAt w messages (responseCalls w + i)) ->
    exists e jitter slept,
      retryLoop (callProvider messages) maxRetries left w
      = (Thrown e, touchCounters (responseCalls w + left + 1) (randomCalls w + left)
                     slept w)
      /\ is429 (exn_status e) = true
      /\ (jitter <= 249 * N.of_nat left)%N
      /\ (slept + 250 * 2 ^ N.of_nat (maxRetries - left)
          = sleptMs w + 250 * 2 ^ N.of_nat maxRetries + jitter)%N.
Proof.
  induction left as [|left IH]; intros w Hmax Hlimited.
  - destruct (callProvider_rateLimited messages w) as (e & Hcall & H429).
    { specialize (Hlimited 0). rewrite Nat.add_0_r in Hlimited. apply Hlimited. lia. }
    exists e, 0%N, (sleptMs w). repeat apply conj; try exact H429; try lia.
    + simpl. unfold tryCatch. rewrite Hcall. unfold throw. f_equal. world_eq.
    + rewrite Nat.sub_0_r. lia.
  - destruct (callProvider_rateLimited messages w) as (e & Hcall & H429).
    { specialize (Hlimited 0). rewrite Nat.add_0_r in Hlimited. apply Hlimited. lia. }
    rewrite (retryLoop_retries _ _ _ _ _ _ Hcall H429).
    change (set_random _ _ (set_responseCalls (S (responseCalls w)) w))
      with (afterRetry (maxRetries - S left) w).
    set (w1 := afterRetry (maxRetries - S left) w).
    destruct (IH w1) as (e' & jitter & slept & Hrun & H429' & Hjitter & Hslept).
    + lia.
    + intros i Hi. replace (responseCalls w1 + i) with (responseCalls w + S i)
        by (simpl; lia). apply (Hlimited (S i)). lia.
    + exists e', (N.of_nat (mathRandom (env w) (randomCalls w) 250 mod 250) + jitter)%N,
        slept.
      repeat apply conj; try exact H429'.
      * rewrite Hrun. f_equal. unfold w1, afterRetry. world_eq.
      * pose proof (Nat.mod_upper_bound (mathRandom (env w) (randomCalls w) 250) 250).
        lia.
      * replace (maxRetries - left) with (S (maxRetries - S left)) in Hslept by lia.
        rewrite pow2_step in Hslept. unfold w1, afterRetry in Hslept.
        cbn [sleptMs set_random] in Hslept. lia.
Qed.

Lemma response_rate_limited (userMessage : string) (history : list MessageHistory)
    (systemPrompt : string) (w : World num) :
  apiKey (env w) = true ->
  (limiterQueued (env w) < highWater)%nat ->
  (forall i, i <= 5 ->
     rateLimitedAt w (buildMessages systemPrompt history userMessage)
       (responseCalls w + i)) ->
  exists jitter,
    (jitter <= 1245)%N
    /\ response userMessage history systemPrompt w
       = (Thrown (OpenAiRateLimitException rateLimitMessage),
          touchCounters (responseCalls w + 6) (randomCalls w + 5)
            (sleptMs w + 7750 + jitter)%N w).
Proof.
  intros Hkey Hidle Hlimited.
  rewrite (response_configured _ _ _ _ Hkey). unfold tryCatch.
  rewrite (limiterSchedule_idle _ _ Hidle).
  destruct (retryLoop_waits_exhausted _ 5 5 w (Nat.le_refl 5) Hlimited)
    as (e & jitter & slept & -> & H429 & Hjitter & Hslept).
  exists jitter. split; [simpl in Hjitter; lia|].
  unfold classify. cbv zeta. unfold is429 in H429. rewrite H429. unfold throw.
  f_equal. rewrite Nat.sub_diag in Hslept.
  change (2 ^ N.of_nat 0)%N with 1%N in Hslept.
  change (2 ^ N.of_nat 5)%N with 32%N in Hslept.
  replace slept with (sleptMs w + 7750 + jitter)%N by lia.
  world_eq.
Qed.

(** The backoff of a generation call made while the limiter has room.
    When the provider answers [k] calls with a rate-limit signal and then
    with text, the call has waited [250 * (2^k - 1)] ms plus [k] jitters
    of less than 250 ms each, and drawn [k] random numbers. When the
    signal persists through six calls, the rate-limit failure comes after
    five waits, 7750 ms plus five jitters. *)
Theorem response_backoff_waits (userMessage : string) (history : list MessageHistory)
    (systemPrompt : string) (w : World num) :
  apiKey (env w) = true ->
  (limiterQueued (env w) < highWater)%nat ->
  let messages := buildMessages systemPrompt history userMessage in
  let n := responseCalls w in
  (forall k text tokens m,
      k <= 5 ->
      (forall i, i < k -> rateLimitedAt w messages (n + i)) ->
      responsesCreate (env w) (n + k) (chatModel (env w)) messages
        = Resolves (Some text) tokens m ->
      JsString.isEmpty (JsString.trim text) = false ->
      exists jitter,
        (jitter <= 249 * N.of_nat k)%N
        /\ response userMessage history systemPrompt w
           = (Returned {| ai_content := JsString.trim text; ai_tokensUsed := tokens;
                          ai_model := Some m |},
              touchCounters (n + k + 1) (randomCalls w + k)
                (sleptMs w + 250 * (2 ^ N.of_nat k - 1) + jitter)%N w))
  /\ ((forall i, i <= 5 -> rateLimitedAt w messages (n + i)) ->
      exists jitter,
        (jitter <= 1245)%N
        /\ response userMessage history systemPrompt w
           = (Thrown (OpenAiRateLimitException rateLimitMessage),
              touchCounters (n + 6) (randomCalls w + 5) (sleptMs w + 7750 + jitter)%N w)).
Proof.
  intros Hkey Hidle messages n.
  split.
  - rewrite (response_configured _ _ _ _ Hkey). unfold tryCatch.
    rewrite (limiterSchedule_idle _ _ Hidle). fold messages.
    intros k text tokens m Hk Hlimited Hok Htext.
    destruct (retryLoop_waits messages 5 text tokens m k 5 w Hk (Nat.le_refl 5)
                Hlimited Hok Htext) as (jitter & slept & -> & Hjitter & Hslept).
    exists jitter. split; [exact Hjitter|]. f_equal. f_equal.
    rewrite Nat.sub_diag in Hslept. simpl (0 + k) in Hslept.
    assert (Hpos : (1 <= 2 ^ N.of_nat k)%N).
    { change 1%N with (2 ^ 0)%N. apply N.pow_le_mono_r; lia. }
    change (2 ^ N.of_nat 0)%N with 1%N in Hslept. lia.
  - intros Hlimited. unfold messages in Hlimited.
    apply (response_rate_limited userMessage history systemPrompt w Hkey Hidle Hlimited).
Qed.

End Backoff.

(** The provider signals a rate limit twice, then answers; the jitter
    drawn is always 100 ms. *)
Definition throttledEnv : Env PrimFloat.float := {|
  apiKey := true;
  chatModel := chatModel sampleEnv;
  messageCountDefault := messageCountDefault sampleEnv;
  storeFault := storeFault sampleEnv;
  embeddingsCreate := embeddingsCreate sampleEnv;
  responsesCreate := fun n _ _ =>
    if (n <? 2)%nat then Rejects (JsError "RateLimitError" "Too many requests" (Some 429%Z))
    else Resolves (Some "Hi there") (Some 10%Z) "gpt-4";
  responsesStream := fun _ _ =>
    StreamRejects (JsError "RateLimitError" "Too many requests" (Some 429%Z));
  limiterQueued := 0;
  limiterDropped := limiterDropped sampleEnv;
  mathRandom := fun _ _ => 100
|}.

Lemma response_backoff_waits_witness :
  exists jitter,
    (jitter <= 249 * 2)%N
    /\ AiService.response "Hello" [] AiService.baseSystemPrompt (worldOf throttledEnv [] [])
       = (Returned {| AiService.ai_content := "Hi there";
                      AiService.ai_tokensUsed := Some 10%Z;
                      AiService.ai_model := Some "gpt-4" |},
          touchCounters 3 2 (750 + jitter)%N (worldOf throttledEnv [] [])).
Proof.
  apply (proj1 (response_backoff_waits "Hello" [] AiService.baseSystemPrompt
                  (worldOf throttledEnv [] []) eq_refl ltac:(vm_compute; lia))
           2 "Hi there" (Some 10%Z) "gpt-4").
  - lia.
  - intros i Hi. eexists. split.
    + destruct i as [|[|i]]; [reflexivity | reflexivity | lia].
    + reflexivity.
  - reflexivity.
  - reflexivity.
Defined.

(** On that provider the two waits are of 350 ms and 600 ms. *)
Example response_backoff_950ms :
  sleptMs (snd (AiService.response "Hello" [] AiService.baseSystemPrompt
                  (worldOf throttledEnv [] []))) = 950%N.
Proof. vm_compute. reflexivity. Qed.

(** ** AiService: the streaming path *)
Section StreamingPath.
Context {num : Type}.
Import AiService.

(** With the key, the streaming generation makes one request and never
    retries. A request the provider rejects, with a rate-limit signal or
    anything else, gives no token and the unavailable failure (503); a
    stream that raises after it opened gives the deltas delivered and the
    same failure; a stream that ends gives its deltas. Where the plain
    generation is rate limited six times in a row and reports the
    rate-limit failure (429), the streaming one reports 503 at the first
    signal. *)
Theorem stream_never_retries (userMessage : string) (history : list MessageHistory)
    (relevantContext : list string) (w : World num) :
  apiKey (env w) = true ->
  let systemPrompt := (baseSystemPrompt ++ contextBlock relevantContext)%string in
  let messages := buildMessages systemPrompt history userMessage in
  generateStreamResponseWithRAG userMessage history relevantContext w
  = match responsesStream (env w) (chatModel (env w)) messages with
    | StreamRejects _ => ([], Thrown (OpenAiUnavailableException streamFailedMessage), w)
    | StreamOpens events None => (deltas events, Returned tt, w)
    | StreamOpens events (Some _) =>
        (deltas events, Thrown (OpenAiUnavailableException streamFailedMessage), w)
    end
  /\ ((limiterQueued (env w) < highWater)%nat ->
      (forall i, i <= 5 -> rateLimitedAt w messages (responseCalls w + i)) ->
      (exists e, responsesStream (env w) (chatModel (env w)) messages = StreamRejects e
                 /\ is429 (exn_status e) = true) ->
      (exists w', generateResponseWithRAG userMessage history relevantContext w
                  = (Thrown (OpenAiRateLimitException rateLimitMessage), w')
                  /\ responseCalls w' = responseCalls w + 6)
      /\ generateStreamResponseWithRAG userMessage history relevantContext w
         = ([], Thrown (OpenAiUnavailableException streamFailedMessage), w)).
Proof.
  intros Hkey systemPrompt messages.
  assert (Hstream :
            generateStreamResponseWithRAG userMessage history relevantContext w
            = match responsesStream (env w) (chatModel (env w)) messages with
              | StreamRejects _ =>
                  ([], Thrown (OpenAiUnavailableException streamFailedMessage), w)
              | StreamOpens events None => (deltas events, Returned tt, w)
              | StreamOpens events (Some _) =>
                  (deltas events,
                   Thrown (OpenAiUnavailableException streamFailedMessage), w)
              end).
  { unfold generateStreamResponseWithRAG, stream. rewrite Hkey. simpl.
    unfold gtryCatch. fold systemPrompt. fold messages.
    destruct (responsesStream (env w) (chatModel (env w)) messages)
      as [e|events [failure|]]; rewrite ?app_nil_r; reflexivity. }
  split; [exact Hstream|].
  intros Hidle Hlimited (e & Hrej & _). split.
  - destruct (response_rate_limited userMessage history systemPrompt w
                Hkey Hidle Hlimited) as (jitter & _ & Hrun).
    eexists. split; [exact Hrun | reflexivity].
  - rewrite Hstream, Hrej. reflexivity.
Qed.

End StreamingPath.

(** The provider signals a rate limit on every request. *)
Definition saturatedEnv : Env PrimFloat.float := {|
  apiKey := true;
  chatModel := chatModel sampleEnv;
  messageCountDefault := messageCountDefault sampleEnv;
  storeFault := storeFault sampleEnv;
  embeddingsCreate := embeddingsCreate sampleEnv;
  responsesCreate := fun _ _ _ =>
    Rejects (JsError "RateLimitError" "Too many requests" (Some 429%Z));
  responsesStream := fun _ _ =>
    StreamRejects (JsError "RateLimitError" "Too many requests" (Some 429%Z));
  limiterQueued := 0;
  limiterDropped := limiterDropped sampleEnv;
  mathRandom := fun _ _ => 100
|}.

Lemma stream_never_retries_witness :
  (exists w', AiService.generateResponseWithRAG "Hola" [] [] (worldOf saturatedEnv [] [])
              = (Thrown (OpenAiRateLimitException rateLimitMessage), w')
              /\ responseCalls w' = 6)
  /\ AiService.generateStreamResponseWithRAG "Hola" [] [] (worldOf saturatedEnv [] [])
     = ([], Thrown (OpenAiUnavailableException streamFailedMessage),
        worldOf saturatedEnv [] []).
Proof.
  apply (proj2 (stream_never_retries "Hola" [] [] (worldOf saturatedEnv [] []) eq_refl)).
  - vm_compute. lia.
  - intros i _. eexists. split; reflexivity.
  - eexists. split; reflexivity.
Defined.

(** ** AiService: the simulated stream *)
Section SimulatedStream.
Context {num : Type}.
Import AiService.
Local Open Scope string_scope.

Lemma append_assoc (a b c : string) : (a ++ b) ++ c = a ++ (b ++ c).
Proof.
  induction a as [|x a IH]; [reflexivity|].
  change (String x ((a ++ b) ++ c) = String x (a ++ (b ++ c))). f_equal. exact IH.
Qed.

Lemma append_nil_r (a : string) : a ++ "" = a.
Proof.
  induction a as [|x a IH]; [reflexivity|].
  change (String x (a ++ "") = String x a). f_equal. exact IH.
Qed.

Lemma concat_cons (h : string) (t : list string) :
  String.concat "" (h :: t) = h ++ String.concat "" t.
Proof.
  destruct t as [|x t]; cbn [String.concat].
  - rewrite append_nil_r. reflexivity.
  - reflexivity.
Qed.

(** Each piece of [s.split(sep)] followed by the separator, put together
    again, is [s] followed by the separator. *)
Lemma splitOnGo_concat (sep : ascii) (cur s : string) :
  String.concat "" (map (fun word => word ++ String sep "") (JsString.splitOnGo sep cur s))
  = cur ++ s ++ String sep "".
Proof.
  revert cur. induction s as [|c s IH]; intros cur.
  - cbn [JsString.splitOnGo map]. rewrite concat_cons. cbn [String.concat].
    rewrite append_nil_r. reflexivity.
  - cbn [JsString.splitOnGo]. destruct (Ascii.eqb_spec c sep) as [->|Hne].
    + cbn [map]. rewrite concat_cons, IH, append_assoc. reflexivity.
    + rewrite IH, append_assoc. reflexivity.
Qed.

Lemma yieldWords_run (words : list string) (w : World num) :
  yieldWords words w
  = (map (fun word => word ++ " ") words, Returned tt,
     set_random (randomCalls w) (sleptMs w + 50 * N.of_nat (length words))%N w).
Proof.
  revert w. induction words as [|word rest IH]; intros w.
  - simpl. unfold gret. f_equal. destruct w; unfold set_random; simpl. f_equal. lia.
  - cbn [yieldWords]. unfold gbind, yield, await, sleep. rewrite IH.
    cbn [map app length]. f_equal. unfold set_random; simpl. f_equal. lia.
Qed.

(** Without the key the streaming generation shows one of the four
    placeholder texts word by word: it yields each piece of the text
    between single spaces followed by a space, so that the tokens put
    together are the text followed by one space; it waits 50 ms after each
    token, draws one random number, calls no provider and cannot fail. *)
Theorem stream_without_key (userMessage : string) (history : list MessageHistory)
    (relevantContext : list string) (w : World num) :
  apiKey (env w) = false ->
  exists i tokens,
    i < 4
    /\ tokens = map (fun word => word ++ " ") (JsString.splitOn " " (placeholderText i))
    /\ generateStreamResponseWithRAG userMessage history relevantContext w
       = (tokens, Returned tt,
          set_random (S (randomCalls w))
            (sleptMs w + 50 * N.of_nat (length tokens))%N w)
    /\ String.concat "" tokens = placeholderText i ++ " "
    /\ generateStreamResponse userMessage history w
       = generateStreamResponseWithRAG userMessage history relevantContext w.
Proof.
  intros Hkey.
  exists (mathRandom (env w) (randomCalls w) 4 mod 4). eexists.
  split; [apply Nat.mod_upper_bound; discriminate|].
  split; [reflexivity|].
  assert (Hrun : forall systemPrompt,
             stream userMessage history systemPrompt w
             = (map (fun word => word ++ " ")
                  (JsString.splitOn " "
                     (placeholderText (mathRandom (env w) (randomCalls w) 4 mod 4))),
                Returned tt,
                set_random (S (randomCalls w))
                  (sleptMs w
                   + 50 * N.of_nat
                            (length
                               (map (fun word => word ++ " ")
                                  (JsString.splitOn " "
                                     (placeholderText
                                        (mathRandom (env w) (randomCalls w) 4 mod 4))))))%N
                  w)).
  { intros systemPrompt. unfold stream. rewrite Hkey. cbn [negb].
    unfold gbind, await, generatePlaceholderResponse, bind, randomBelow, ret.
    cbn [ai_content]. fold (placeholderText (mathRandom (env w) (randomCalls w) 4 mod 4)).
    change (length placeholderResponses) with 4.
    rewrite yieldWords_run. rewrite length_map. reflexivity. }
  split; [apply Hrun|]. split.
  - apply (splitOnGo_concat " " "" _).
  - unfold generateStreamResponse, generateStreamResponseWithRAG. rewrite !Hrun.
    reflexivity.
Qed.

End SimulatedStream.

Lemma stream_without_key_witness :
  exists i tokens,
    i < 4
    /\ tokens
       = map (fun word => (word ++ " ")%string) (JsString.splitOn " " (placeholderText i))
    /\ AiService.generateStreamResponseWithRAG "Hola" [] [] (worldOf keylessEnv [] [])
       = (tokens, Returned tt,
          set_random (S (randomCalls (worldOf keylessEnv [] [])))
            (sleptMs (worldOf keylessEnv [] []) + 50 * N.of_nat (length tokens))%N
            (worldOf keylessEnv [] []))
    /\ String.concat "" tokens = (placeholderText i ++ " ")%string
    /\ AiService.generateStreamResponse "Hola" [] (worldOf keylessEnv [] [])
       = AiService.generateStreamResponseWithRAG "Hola" [] [] (worldOf keylessEnv [] []).
Proof.
  apply (stream_without_key "Hola" [] [] (worldOf keylessEnv [] [])). reflexivity.
Defined.

(** ** ChatService.getHistory *)
Section GetHistory.
Context {num : Type} `{Number num}.
Import ChatService.

(** The messages of a conversation in ascending order of creation. *)
Definition messagesOf (conversationId : ObjectId) (w : World num) : list ChatMessage :=
  stableSort (fun a b => (m_createdAt b <? m_createdAt a)%N)
    (List.filter (ofConversation conversationId) (chatMessages w)).

(** The conversation with this identifier that belongs to the student. *)
Definition ownedBy (studentId id : ObjectId) (w : World num) : option Conversation :=
  find (fun c => hasId id c && (c_studentId c =? studentId)%N) (conversations w).

(** The page of [limit] elements number [page], counted from 1. *)
Definition pageOf {A} (page limit : Z) (l : list A) : list A :=
  firstn (Z.to_nat limit) (drop (Z.to_nat ((page - 1) * limit)) l).

(** The quotient rounded up. *)
Definition ceilDiv (total : nat) (limit : Z) : Z := (- ((- Z.of_nat total) / limit))%Z.

Lemma ceilDiv_covers (total : nat) (limit : Z) :
  (1 <= limit)%Z ->
  (0 <= ceilDiv total limit)%Z
  /\ (Z.of_nat total <= ceilDiv total limit * limit)%Z
  /\ (ceilDiv total limit * limit < Z.of_nat total + limit)%Z.
Proof.
  intros Hlimit. unfold ceilDiv.
  pose proof (Z.div_mod (- Z.of_nat total) limit ltac:(lia)) as Hdm.
  pose proof (Z.mod_pos_bound (- Z.of_nat total) limit ltac:(lia)) as Hmod.
  nia.
Qed.

Lemma skipLimit_page {A} (page limit : Z) (l : list A) :
  (1 <= page)%Z -> (1 <= limit)%Z ->
  skipLimit ((page - 1) * limit) limit l = inr (pageOf page limit l).
Proof.
  intros Hpage Hlimit. unfold skipLimit, pageOf.
  destruct (Z.ltb_spec ((page - 1) * limit) 0) as [Hneg|_]; [nia|].
  destruct (Z.eqb_spec limit 0) as [Hzero|_]; [lia|].
  rewrite Z.abs_eq by lia. reflexivity.
Qed.

Lemma set_storeCalls_twice (a b : nat) (w : World num) :
  set_storeCalls a (set_storeCalls b w) = set_storeCalls a w.
Proof. reflexivity. Qed.

Lemma storeQuery_reliable {A} (q : World num -> Exception + A) (w : World num) :
  reliable w ->
  storeQuery q w
  = (match q (set_storeCalls (S (storeCalls w)) w) with
     | inl e => Thrown e
     | inr a => Returned a
     end, set_storeCalls (S (storeCalls w)) w).
Proof.
  intros Hrel. unfold storeQuery. rewrite Hrel.
  destruct (q _); reflexivity.
Qed.

Lemma messages_and_count_run (id : ObjectId) (page limit : Z) (w : World num) :
  reliable w ->
  (1 <= page)%Z -> (1 <= limit)%Z ->
  promiseAll2 (chatMessage_findPage id ((page - 1) * limit) limit)
    (chatMessage_countDocuments id) w
  = (Returned (pageOf page limit (messagesOf id w), length (messagesOf id w)),
     set_storeCalls (S (S (storeCalls w))) w).
Proof.
  intros Hrel Hpage Hlimit.
  unfold promiseAll2, chatMessage_findPage, chatMessage_countDocuments.
  rewrite storeQuery_reliable by exact Hrel.
  rewrite storeCall_reliable by exact Hrel.
  cbn [fst snd chatMessages set_storeCalls storeCalls].
  fold (messagesOf id w). rewrite skipLimit_page by assumption.
  unfold messagesOf. rewrite stableSort_length. reflexivity.
Qed.

Lemma getHistory_messages_run (studentId id : ObjectId) (page limit : Z)
    (c : Conversation) (w : World num) :
  reliable w ->
  ownedBy studentId id w = Some c ->
  (1 <= page)%Z -> (1 <= limit)%Z ->
  getHistory studentId (Some id) (Some page) (Some limit) w
  = (Returned (Some (HistoryOfConversation c
                       (pageOf page limit (messagesOf (c_id c) w))
                       {| pg_page := page; pg_limit := limit;
                          pg_total := length (messagesOf (c_id c) w);
                          pg_totalPages :=
                            Pages (ceilDiv (length (messagesOf (c_id c) w)) limit) |})),
     set_storeCalls (S (S (S (storeCalls w)))) w).
Proof.
  intros Hrel Howned Hpage Hlimit.
  unfold getHistory.
  change (default 1%Z (Some page)) with page.
  change (default 20%Z (Some limit)) with limit.
  unfold tryCatch, bind, conversation_findOne.
  rewrite storeCall_reliable by exact Hrel. cbn [fst snd].
  change (find _ (conversations (set_storeCalls (S (storeCalls w)) w)))
    with (ownedBy studentId id w).
  rewrite Howned.
  rewrite (messages_and_count_run (c_id c) page limit
             (set_storeCalls (S (storeCalls w)) w) Hrel Hpage Hlimit).
  unfold ret. cbn [fst snd]. unfold totalPages.
  destruct (Z.eqb_spec limit 0) as [Hzero|_]; [lia|]. reflexivity.
Qed.

Lemma pages_cover {A} (limit : nat) (l : list A) :
  0 < limit ->
  forall pages,
    length l <= pages * limit ->
    concat (map (fun p => firstn limit (drop (p * limit) l)) (seq 0 pages)) = l.
Proof.
  intros Hlimit pages. revert l. induction pages as [|pages IH]; intros l Hlen.
  - destruct l; [reflexivity | simpl in Hlen; lia].
  - cbn [seq map concat]. rewrite <- seq_shift, map_map.
    transitivity (firstn limit l ++ drop limit l); [|apply firstn_skipn].
    f_equal.
    rewrite <- (IH (drop limit l)).
    + f_equal. apply map_ext. intros p. rewrite drop_drop.
      replace (limit + p * limit) with (S p * limit) by lia. reflexivity.
    + rewrite length_drop. simpl in Hlen. lia.
Qed.

(** The messages a call of [getHistory] returned. *)
Definition historyMessages (out : Outcome (option History)) : list ChatMessage :=
  match out with
  | Returned (Some (HistoryOfConversation _ messages _)) => messages
  | _ => []
  end.

Definition historyPagination (out : Outcome (option History)) : option Pagination :=
  match out with
  | Returned (Some (HistoryOfConversation _ _ pagination)) => Some pagination
  | Returned (Some (HistoryOfStudent _ pagination)) => Some pagination
  | _ => None
  end.

(** Paging through a conversation of the student, on a store that does
    not reject, with a limit of at least 1. Every page, from page 1 on,
    holds at most [limit] messages, and reports the number of messages of
    the conversation and the number of pages, the quotient rounded up; the
    pages after the last are empty; and the pages from 1 to the last, one
    after the other, are the messages of the conversation in ascending
    order of creation, each once. *)
Theorem getHistory_pages (studentId id : ObjectId) (limit : Z) (c : Conversation)
    (w : World num) :
  reliable w ->
  ownedBy studentId id w = Some c ->
  (1 <= limit)%Z ->
  let total := length (messagesOf (c_id c) w) in
  let pages := Z.to_nat (ceilDiv total limit) in
  (forall page,
      (1 <= page)%Z ->
      let out := fst (getHistory studentId (Some id) (Some page) (Some limit) w) in
      historyPagination out
      = Some {| pg_page := page; pg_limit := limit; pg_total := total;
                pg_totalPages := Pages (Z.of_nat pages) |}
      /\ (Z.of_nat (length (historyMessages out)) <= limit)%Z
      /\ ((Z.of_nat pages < page)%Z -> historyMessages out = []))
  /\ concat (map (fun page =>
                    historyMessages
                      (fst (getHistory studentId (Some id) (Some (Z.of_nat page))
                              (Some limit) w)))
               (seq 1 pages))
     = messagesOf (c_id c) w.
Proof.
  intros Hrel Howned Hlimit total pages.
  destruct (ceilDiv_covers total limit Hlimit) as (Hpos & Hcover & Hleast).
  split.
  - intros page Hpage out. unfold out.
    rewrite (getHistory_messages_run _ _ _ _ _ _ Hrel Howned Hpage Hlimit).
    cbn [fst historyPagination historyMessages]. fold total.
    repeat apply conj.
    + unfold pages. rewrite Z2Nat.id by exact Hpos. reflexivity.
    + unfold pageOf. rewrite length_firstn. lia.
    + intros Hpast. unfold pageOf. rewrite drop_ge; [destruct (Z.to_nat limit); reflexivity|].
      fold total. unfold pages in Hpast. nia.
  - rewrite <- seq_shift, map_map.
    rewrite <- (pages_cover (Z.to_nat limit) (messagesOf (c_id c) w) ltac:(lia) pages).
    + f_equal. apply map_ext_in. intros p Hp. apply in_seq in Hp.
      rewrite (getHistory_messages_run _ _ _ _ _ _ Hrel Howned) by lia.
      cbn [fst historyMessages]. unfold pageOf. f_equal. f_equal. nia.
    + fold total. unfold pages. nia.
Qed.

End GetHistory.

(** ** Operations that only read the store *)
Section ReadOnly.
Context {num : Type} `{Number num}.
Import ChatService.

(** The operation changes nothing but the count of store calls. *)
Definition readsOnly {A} (m : Async (num:=num) A) : Prop :=
  forall w, exists out calls, m w = (out, set_storeCalls calls w).

Lemma set_storeCalls_same (w : World num) : w = set_storeCalls (storeCalls w) w.
Proof. destruct w. reflexivity. Qed.

Lemma readsOnly_ret {A} (a : A) : readsOnly (ret a).
Proof. intros w. exists (Returned a), (storeCalls w). unfold ret. f_equal.
  apply set_storeCalls_same. Qed.

Lemma readsOnly_throw {A} (e : Exception) : readsOnly (throw (A:=A) e).
Proof. intros w. exists (Thrown e), (storeCalls w). unfold throw. f_equal.
  apply set_storeCalls_same. Qed.

Lemma readsOnly_bind {A B} (m : Async A) (k : A -> Async B) :
  readsOnly m -> (forall a, readsOnly (k a)) -> readsOnly (bind m k).
Proof.
  intros Hm Hk w. unfold bind. destruct (Hm w) as ([a|e] & calls & ->).
  - destruct (Hk a (set_storeCalls calls w)) as (out & calls' & ->).
    exists out, calls'. reflexivity.
  - exists (Thrown e), calls. reflexivity.
Qed.

Lemma readsOnly_tryCatch {A} (m : Async A) (h : Exception -> Async A) :
  readsOnly m -> (forall e, readsOnly (h e)) -> readsOnly (tryCatch m h).
Proof.
  intros Hm Hh w. unfold tryCatch. destruct (Hm w) as ([a|e] & calls & ->).
  - exists (Returned a), calls. reflexivity.
  - destruct (Hh e (set_storeCalls calls w)) as (out & calls' & ->).
    exists out, calls'. reflexivity.
Qed.

Lemma readsOnly_promiseAll2 {A B} (a : Async A) (b : Async B) :
  readsOnly a -> readsOnly b -> readsOnly (promiseAll2 a b).
Proof.
  intros Ha Hb w. unfold promiseAll2. destruct (Ha w) as (ra & calls & ->).
  destruct (Hb (set_storeCalls calls w)) as (rb & calls' & ->).
  destruct ra as [x|e], rb as [y|e']; eexists _, _; reflexivity.
Qed.

Lemma readsOnly_storeCall {A} (f : World num -> A) :
  readsOnly (storeCall (fun w => (f w, w))).
Proof.
  intros w. unfold storeCall. destruct (storeFault (env w) (storeCalls w));
    eexists _, _; reflexivity.
Qed.

Lemma readsOnly_storeQuery {A} (q : World num -> Exception + A) :
  readsOnly (storeQuery q).
Proof.
  intros w. unfold storeQuery. destruct (storeFault (env w) (storeCalls w));
    [|destruct (q _)]; eexists _, _; reflexivity.
Qed.

Lemma readsOnly_rethrow {A} (msg : string) (e : Exception) :
  readsOnly (rethrow (A:=A) msg e).
Proof. unfold rethrow. destruct (isHttpException e); apply readsOnly_throw. Qed.

Lemma readsOnly_getHistory (studentId : ObjectId) (conversationId : option ObjectId)
    (page limit : option Z) :
  readsOnly (getHistory studentId conversationId page limit).
Proof.
  unfold getHistory. apply readsOnly_tryCatch; [|intros e; apply readsOnly_rethrow].
  destruct conversationId as [id|].
  - apply readsOnly_bind; [apply (readsOnly_storeCall (fun w => find _ (conversations w)))|].
    intros [c|]; [|apply readsOnly_ret].
    apply readsOnly_bind; [|intros both; apply readsOnly_ret].
    apply readsOnly_promiseAll2; [apply readsOnly_storeQuery|].
    apply (readsOnly_storeCall (fun w => length _)).
  - apply readsOnly_bind; [|intros both; apply readsOnly_ret].
    apply readsOnly_promiseAll2; [apply readsOnly_storeQuery|].
    apply (readsOnly_storeCall (fun w => length _)).
Qed.

(** What the [catch] clause of the public methods lets out is an
    [HttpException]. *)
Lemma rethrow_http {A} (body : Async (num:=num) A) (msg : string) (w w' : World num)
    (e : Exception) :
  tryCatch body (rethrow msg) w = (Thrown e, w') -> isHttpException e = true.
Proof.
  unfold tryCatch, rethrow. destruct (body w) as [[a|e0] w0]; [discriminate|].
  destruct (isHttpException e0) eqn:Hhttp; unfold throw; intros E; inversion E; subst;
    [exact Hhttp | reflexivity].
Qed.

Lemma getHistory_null (studentId id : ObjectId) (page limit : option Z) (w : World num) :
  storeFault (env w) (storeCalls w) = None ->
  ownedBy studentId id w = None ->
  getHistory studentId (Some id) page limit w
  = (Returned None, set_storeCalls (S (storeCalls w)) w).
Proof.
  intros Hok Hnone.
  unfold getHistory, tryCatch, bind, conversation_findOne, storeCall.
  rewrite Hok. cbn [fst snd].
  change (find _ (conversations (set_storeCalls (S (storeCalls w)) w)))
    with (ownedBy studentId id w).
  rewrite Hnone. reflexivity.
Qed.

(** [getHistory] only reads: whatever its arguments and its outcome, it
    leaves the documents, the cache and the counters of the generation
    client as they were. What it throws is an [HttpException]: when the
    first query is rejected with an error that is not one, the caller gets
    the internal server error with the message of the method. A
    conversation that does not
    exist, or that belongs to another student, gives [null] after one
    query. *)
Theorem getHistory_reads_only (studentId : ObjectId) (conversationId : option ObjectId)
    (page limit : option Z) (w : World num) :
  exists out calls,
    getHistory studentId conversationId page limit w = (out, set_storeCalls calls w)
    /\ (forall e, out = Thrown e -> isHttpException e = true)
    /\ (forall e, storeFault (env w) (storeCalls w) = Some e ->
                  isHttpException e = false ->
                  out = Thrown (InternalServerErrorException
                                  "Error al obtener el historial"))
    /\ (forall id, conversationId = Some id ->
                   storeFault (env w) (storeCalls w) = None ->
                   ownedBy studentId id w = None ->
                   out = Returned None /\ calls = S (storeCalls w)).
Proof.
  destruct (readsOnly_getHistory studentId conversationId page limit w)
    as (out & calls & Hrun).
  exists out, calls. split; [exact Hrun|]. repeat apply conj.
  - intros e ->. apply (rethrow_http _ _ _ _ _ Hrun).
  - intros e Hfault Hhttp. revert Hrun.
    unfold getHistory, tryCatch, bind, conversation_findOne, promiseAll2,
      conversation_findPage, storeQuery, storeCall.
    destruct conversationId as [id|]; rewrite Hfault.
    + unfold rethrow. rewrite Hhttp. unfold throw. intros E; inversion E; reflexivity.
    + destruct (conversation_countDocuments studentId _) as [rb w2].
      unfold rethrow. rewrite Hhttp. unfold throw. intros E; inversion E; reflexivity.
  - intros id -> Hok Hnone. rewrite (getHistory_null _ _ _ _ _ Hok Hnone) in Hrun.
    inversion Hrun; subst. split; reflexivity.
Qed.

End ReadOnly.

(** ** ChatService.getHistory: the conversations of a student *)
Section ConversationList.
Context {num : Type} `{Number num}.
Import ChatService.

(** The conversations of a student, the most recently used first. *)
Definition conversationsOf (studentId : ObjectId) (w : World num) : list Conversation :=
  stableSort (fun a b => (c_lastMessageAt a <? c_lastMessageAt b)%N)
    (List.filter (ofStudent studentId) (conversations w)).

Definition mostRecentFirst (a b : Conversation) : Prop :=
  (c_lastMessageAt b <= c_lastMessageAt a)%N.

Lemma Sorted_drop {A} (R : A -> A -> Prop) (n : nat) (l : list A) :
  Sorted R l -> Sorted R (drop n l).
Proof.
  revert l. induction n as [|n IH]; intros l Hs; [rewrite drop_0; exact Hs|].
  destruct l as [|x l]; [constructor|]. simpl. apply IH.
  apply Sorted_inv in Hs. tauto.
Qed.

Lemma conversationsOf_sorted (studentId : ObjectId) (w : World num) :
  Sorted mostRecentFirst (conversationsOf studentId w).
Proof.
  unfold conversationsOf.
  eapply Sorted_ind with (P := fun l => Sorted mostRecentFirst l).
  3:{ apply (stableSort_Sorted (fun a b => (c_lastMessageAt a <? c_lastMessageAt b)%N)).
      intros a b Hab. apply N.ltb_lt in Hab. apply N.ltb_ge. lia. }
  - constructor.
  - intros a l _ IH Hhd. constructor; [exact IH|].
    destruct Hhd as [|b l Hab]; constructor.
    unfold inOrder in Hab. apply N.ltb_ge in Hab. exact Hab.
Qed.

Lemma pageOf_In {A} (page limit : Z) (l : list A) (x : A) :
  In x (pageOf page limit l) -> In x l.
Proof.
  unfold pageOf. intros Hin.
  apply list_elem_of_In. apply list_elem_of_In in Hin.
  apply elem_of_take in Hin as (i & Hi & _).
  rewrite lookup_drop in Hi. apply (list_elem_of_lookup_2 _ _ _ Hi).
Qed.

(** The list of the conversations of a student, on a store that does not
    reject, for a page and a limit of at least 1: the conversations
    returned are stored conversations of that student and of no other, the
    most recently used first, at most [limit] of them; the total reported
    is the number of conversations of the student; and when they all fit
    in the limit, the first page holds every one of them. *)
Theorem getHistory_conversations (studentId : ObjectId) (page limit : Z)
    (w : World num) :
  reliable w ->
  (1 <= page)%Z -> (1 <= limit)%Z ->
  exists listed,
    getHistory studentId None (Some page) (Some limit) w
    = (Returned (Some (HistoryOfStudent listed
                         {| pg_page := page; pg_limit := limit;
                            pg_total :=
                              length (List.filter (ofStudent studentId) (conversations w));
                            pg_totalPages :=
                              Pages (ceilDiv
                                       (length (List.filter (ofStudent studentId)
                                                  (conversations w))) limit) |})),
       set_storeCalls (S (S (storeCalls w))) w)
    /\ listed = pageOf page limit (conversationsOf studentId w)
    /\ Forall (fun c => In c (conversations w) /\ c_studentId c = studentId) listed
    /\ Sorted mostRecentFirst listed
    /\ (Z.of_nat (length listed) <= limit)%Z
    /\ (page = 1%Z ->
        (Z.of_nat (length (List.filter (ofStudent studentId) (conversations w)))
         <= limit)%Z ->
        Permutation listed (List.filter (ofStudent studentId) (conversations w))).
Proof.
  intros Hrel Hpage Hlimit.
  exists (pageOf page limit (conversationsOf studentId w)).
  repeat apply conj.
  - unfold getHistory.
    change (default 1%Z (Some page)) with page.
    change (default 20%Z (Some limit)) with limit.
    unfold tryCatch, bind, promiseAll2, conversation_findPage,
      conversation_countDocuments.
    rewrite storeQuery_reliable by exact Hrel.
    rewrite storeCall_reliable by exact Hrel.
    cbn [fst snd conversations set_storeCalls storeCalls].
    fold (conversationsOf studentId w). rewrite skipLimit_page by assumption.
    unfold ret. cbn [fst snd]. unfold totalPages.
    destruct (Z.eqb_spec limit 0) as [Hzero|_]; [lia|]. reflexivity.
  - reflexivity.
  - apply List.Forall_forall. intros c Hin. apply pageOf_In in Hin.
    unfold conversationsOf in Hin. apply stableSort_In, filter_In in Hin.
    destruct Hin as [Hin Hof]. split; [exact Hin|].
    unfold ofStudent in Hof. apply N.eqb_eq in Hof. exact Hof.
  - unfold pageOf. apply Sorted_firstn, Sorted_drop, conversationsOf_sorted.
  - unfold pageOf. rewrite length_firstn. lia.
  - intros -> Hfit. unfold pageOf. change (Z.to_nat ((1 - 1) * limit)) with 0.
    rewrite drop_0. rewrite firstn_all2.
    + apply stableSort_Permutation.
    + unfold conversationsOf. rewrite stableSort_length. lia.
Qed.

End ConversationList.

(** ** ChatService.deleteHistory: what is deleted *)
Section DeleteHistory.
Context {num : Type} `{Number num}.
Import ChatService.

(** The messages of the conversations other than [id], in their order. *)
Definition otherMessages (id : ObjectId) (messages : list ChatMessage) : list ChatMessage :=
  List.filter (fun m => negb (ofConversation id m)) messages.



Lemma ownedBy_id (studentId id : ObjectId) (w : World num) (c : Conversation) :
  ownedBy studentId id w = Some c -> c_id c = id /\ c_studentId c = studentId.
Proof.
  unfold ownedBy. intros Hfind. apply find_some in Hfind as [_ Hc].
  apply andb_prop in Hc as [Hid Hs]. unfold hasId in Hid.
  apply N.eqb_eq in Hid, Hs. split; assumption.
Qed.




End DeleteHistory.

Section DeleteHistoryFailures.
Context {num : Type} `{Number num}.
Import ChatService.

(** The deletion is made of two store calls and is not undone when the
    second fails. When the store deletes the messages and then rejects
    the deletion of the conversation with an error that is no
    [HttpException], the caller gets the internal server error of the
    method; the messages of the conversation are gone, the conversation
    is still stored, and the context cache still holds the entry it had
    for the conversation. *)
Theorem deleteHistory_not_atomic (studentId id : ObjectId) (c : Conversation)
    (w : World num) (e : Exception) :
  ownedBy studentId id w = Some c ->
  storeFault (env w) (storeCalls w) = None ->
  storeFault (env w) (S (storeCalls w)) = None ->
  storeFault (env w) (S (S (storeCalls w))) = Some e ->
  isHttpException e = false ->
  exists w',
    deleteHistory studentId id w
    = (Thrown (InternalServerErrorException "Error al eliminar el historial"), w')
    /\ chatMessages w' = otherMessages id (chatMessages w)
    /\ conversations w' = conversations w
    /\ ownedBy studentId id w' = Some c
    /\ conversationCache w' = conversationCache w
    /\ arrays w' = arrays w.
Proof.
  intros Howned Hok1 Hok2 Hfault Hhttp.
  destruct (ownedBy_id _ _ _ _ Howned) as [Hid _].
  eexists. split.
  - unfold deleteHistory, tryCatch, bind, conversation_findOne, chatMessage_deleteMany,
      conversation_findByIdAndDelete, storeCall.
    rewrite Hok1. cbn [fst snd].
    change (find _ (conversations (set_storeCalls (S (storeCalls w)) w)))
      with (ownedBy studentId id w).
    rewrite Howned. cbn [env storeCalls set_storeCalls]. rewrite Hok2.
    cbn [env storeCalls set_storeCalls set_chatMessages]. rewrite Hfault.
    unfold rethrow. rewrite Hhttp. rewrite Hid. reflexivity.
  - repeat apply conj; try reflexivity. exact Howned.
Qed.


End DeleteHistoryFailures.

(** ** ChatService.startNewConversation: the active conversation *)
Section ActiveConversation.
Context {num : Type} `{Number num}.
Import ChatService.

(** The update [{ isActive: false }] on the conversations of the student
    other than [id]. *)
Definition deactivated (studentId id : ObjectId) (c : Conversation) : Conversation :=
  if (c_studentId c =? studentId)%N && negb (hasId id c)
  then {| c_id := c_id c; c_studentId := c_studentId c; c_title := c_title c;
          c_isActive := false; c_lastMessageAt := c_lastMessageAt c;
          c_messageCount := c_messageCount c |}
  else c.

Definition activeOf (studentId : ObjectId) (c : Conversation) : bool :=
  ofStudent studentId c && c_isActive c.

Lemma startNewConversation_run (studentId : ObjectId) (initialContext : option string)
    (w : World num) :
  reliable w ->
  exists w',
    startNewConversation studentId initialContext w
    = (Returned (newConversation studentId w), w')
    /\ conversations w'
       = map (deactivated studentId (nextObjectId w))
           (conversations w ++ [newConversation studentId w])
    /\ chatMessages w' = chatMessages w
    /\ knowledgeChunks w' = knowledgeChunks w.
Proof.
  intros Hrel.
  unfold startNewConversation, createConversation, newDate, conversation_create,
    conversation_deactivateOthers, newArray, push, cacheSet, tryCatch, bind, ret.
  rewrite storeCall_reliable by exact Hrel. cbn [fst snd].
  destruct initialContext as [text|]; [destruct (JsString.isEmpty text)|];
    cbn [fst snd]; rewrite storeCall_reliable by exact Hrel;
    eexists; (split; [reflexivity|]); repeat apply conj; reflexivity.
Qed.

Lemma deactivated_fields (studentId id : ObjectId) (c : Conversation) :
  c_id (deactivated studentId id c) = c_id c
  /\ c_messageCount (deactivated studentId id c) = c_messageCount c
  /\ c_studentId (deactivated studentId id c) = c_studentId c.
Proof.
  unfold deactivated.
  destruct ((c_studentId c =? studentId)%N && negb (hasId id c)); repeat split.
Qed.

Lemma deactivated_inactive (studentId id : ObjectId) (c : Conversation) :
  c_id c <> id -> activeOf studentId (deactivated studentId id c) = false.
Proof.
  intros Hne. unfold deactivated, activeOf, ofStudent, hasId.
  destruct (N.eqb_spec (c_id c) id) as [|_]; [contradiction|].
  destruct (N.eqb_spec (c_studentId c) studentId) as [Hs|Hs]; cbn [andb negb].
  - cbn [c_isActive]. apply andb_false_r.
  - destruct (N.eqb_spec (c_studentId c) studentId) as [|_]; [contradiction|].
    reflexivity.
Qed.

Lemma deactivated_other_student (studentId id : ObjectId) (c : Conversation) :
  ofStudent studentId c = false -> deactivated studentId id c = c.
Proof.
  unfold deactivated, ofStudent. intros Hs. rewrite Hs. reflexivity.
Qed.

Lemma deactivated_others (studentId id : ObjectId) (l : list Conversation) :
  Forall (fun c => c_id c <> id) l ->
  List.filter (activeOf studentId) (map (deactivated studentId id) l) = []
  /\ List.filter (fun c => negb (ofStudent studentId c)) (map (deactivated studentId id) l)
     = List.filter (fun c => negb (ofStudent studentId c)) l
  /\ map c_id (map (deactivated studentId id) l) = map c_id l
  /\ map c_messageCount (map (deactivated studentId id) l) = map c_messageCount l.
Proof.
  induction 1 as [|c l Hc _ (IH1 & IH2 & IH3 & IH4)]; [repeat split|].
  destruct (deactivated_fields studentId id c) as (Hid & Hcount & Hstudent).
  cbn [map List.filter].
  rewrite (deactivated_inactive studentId id c Hc), IH1, IH2, IH3, IH4, Hid, Hcount.
  repeat split.
  assert (Hof : ofStudent studentId (deactivated studentId id c) = ofStudent studentId c).
  { unfold ofStudent. rewrite Hstudent. reflexivity. }
  rewrite Hof. destruct (ofStudent studentId c) eqn:Hs; cbn [negb]; [reflexivity|].
  rewrite (deactivated_other_student studentId id c Hs). reflexivity.
Qed.

(** After [startNewConversation], on a store that does not reject and
    whose conversations do not have the identifier the new one gets: the
    new conversation is returned, it is the last stored and the only
    active conversation of the student; the conversations the student
    had are all inactive; those of the other students are as they were;
    no conversation changed its identifier or its count of messages, and
    no message was written. *)
Theorem startNewConversation_single_active (studentId : ObjectId)
    (initialContext : option string) (w : World num) :
  reliable w ->
  Forall (fun c => c_id c <> nextObjectId w) (conversations w) ->
  exists w',
    startNewConversation studentId initialContext w
    = (Returned (newConversation studentId w), w')
    /\ List.filter (activeOf studentId) (conversations w') = [newConversation studentId w]
    /\ List.filter (fun c => negb (ofStudent studentId c)) (conversations w')
       = List.filter (fun c => negb (ofStudent studentId c)) (conversations w)
    /\ map c_id (conversations w') = map c_id (conversations w) ++ [nextObjectId w]
    /\ map c_messageCount (conversations w')
       = map c_messageCount (conversations w) ++ [messageCountDefault (env w)]
    /\ chatMessages w' = chatMessages w.
Proof.
  intros Hrel Hfresh.
  destruct (startNewConversation_run studentId initialContext w Hrel)
    as (w' & Hrun & Hconv & Hmsgs & _).
  destruct (deactivated_others studentId (nextObjectId w) (conversations w) Hfresh)
    as (Hactive & Hothers & Hids & Hcounts).
  assert (Hnew : deactivated studentId (nextObjectId w) (newConversation studentId w)
                 = newConversation studentId w).
  { unfold deactivated, hasId, newConversation. cbn [c_id c_studentId].
    rewrite !N.eqb_refl. reflexivity. }
  exists w'. split; [exact Hrun|].
  rewrite Hconv, map_app. cbn [map]. rewrite Hnew.
  rewrite !List.filter_app, !map_app, Hactive, Hothers, Hids, Hcounts.
  cbn [List.filter map app]. unfold activeOf, ofStudent, newConversation.
  cbn [c_studentId c_isActive c_id c_messageCount]. rewrite N.eqb_refl. cbn [andb negb].
  rewrite app_nil_r. repeat apply conj; try reflexivity. exact Hmsgs.
Qed.

End ActiveConversation.

(** ** ChatService.sendMessage: the conversation of a request *)
Section RequestConversation.
Context {num : Type} `{Number num}.
Import ChatService.

(** An identifier that no stored conversation has is ignored: the request
    is served as the same request without identifier, in a conversation
    created for it. *)
Theorem sendMessage_unknown_conversation (dto : SendMessageDto) (id : ObjectId)
    (w : World num) :
  conversationId dto = Some id ->
  find (hasId id) (conversations w) = None ->
  sendMessage dto w
  = sendMessage {| studentId := studentId dto; message := message dto;
                   conversationId := None |} w.
Proof.
  intros Hid Hfind. rewrite !sendMessage_unfold. unfold tryCatch, bind.
  cbn [conversationId studentId message]. rewrite Hid.
  assert (Hsame : conversation_findById (num:=num) (Some id) w
                  = conversation_findById None w).
  { unfold conversation_findById, storeCall.
    destruct (storeFault (env w) (storeCalls w)); [reflexivity|].
    cbn [conversations set_storeCalls]. rewrite Hfind. reflexivity. }
  rewrite Hsame. reflexivity.
Qed.







End RequestConversation.

(** ** Sample store: two students *)

(** Student 5 has the conversation 7, of 21 messages, and the
    conversation 8; student 6 has the conversation 9, of one message. *)
Definition schoolWorld (e : Env PrimFloat.float) : World PrimFloat.float := {|
  env := e;
  conversations :=
    [ {| c_id := 7%N; c_studentId := 5%N; c_title := "Nueva conversación";
         c_isActive := true; c_lastMessageAt := 21%N; c_messageCount := 21%Z |};
      {| c_id := 8%N; c_studentId := 5%N; c_title := "Nueva conversación";
         c_isActive := true; c_lastMessageAt := 30%N; c_messageCount := 0%Z |};
      {| c_id := 9%N; c_studentId := 6%N; c_title := "Nueva conversación";
         c_isActive := true; c_lastMessageAt := 25%N; c_messageCount := 1%Z |} ];
  chatMessages :=
    longConversation
    ++ [ {| m_id := 50%N; m_conversationId := 9%N; m_role := user;
            m_content := "Pregunta de otro estudiante"; m_metadata := None;
            m_createdAt := 25%N |} ];
  knowledgeChunks := testChunks;
  nextObjectId := 100%N;
  clock := 1000%N;
  conversationCache := {[ 7%N := 0%nat ]};
  arrays := {[ 0%nat := [ ChatService.toHistory (numbered 1) ] ]};
  storeCalls := 0;
  responseCalls := 0;
  randomCalls := 0;
  sleptMs := 0%N
|}.

Lemma schoolWorld_reliable : reliable (schoolWorld sampleEnv).
Proof. intros n. reflexivity. Qed.

(** The third store call of a request is rejected. *)
Definition thirdCallFailsEnv : Env PrimFloat.float := {|
  apiKey := true;
  chatModel := chatModel sampleEnv;
  messageCountDefault := messageCountDefault sampleEnv;
  storeFault := fun n =>
    if (n =? 2)%nat then Some (JsError "MongoNetworkError" "connection reset" None)
    else None;
  embeddingsCreate := embeddingsCreate sampleEnv;
  responsesCreate := responsesCreate sampleEnv;
  responsesStream := responsesStream sampleEnv;
  limiterQueued := 0;
  limiterDropped := limiterDropped sampleEnv;
  mathRandom := mathRandom sampleEnv
|}.

Lemma getHistory_pages_witness :
  concat (map (fun page =>
                 historyMessages
                   (fst (ChatService.getHistory 5%N (Some 7%N) (Some (Z.of_nat page))
                           (Some 8%Z) (schoolWorld sampleEnv))))
            (seq 1 3))
  = messagesOf 7%N (schoolWorld sampleEnv).
Proof.
  apply (proj2 (getHistory_pages 5%N 7%N 8%Z
                  {| c_id := 7%N; c_studentId := 5%N; c_title := "Nueva conversación";
                     c_isActive := true; c_lastMessageAt := 21%N;
                     c_messageCount := 21%Z |}
                  (schoolWorld sampleEnv) schoolWorld_reliable eq_refl ltac:(lia))).
Defined.

Lemma getHistory_conversations_witness :
  exists listed,
    fst (ChatService.getHistory 5%N None (Some 1%Z) (Some 20%Z) (schoolWorld sampleEnv))
    = Returned (Some (ChatService.HistoryOfStudent listed
                        {| ChatService.pg_page := 1; ChatService.pg_limit := 20;
                           ChatService.pg_total := 2;
                           ChatService.pg_totalPages := ChatService.Pages 1 |}))
    /\ map c_id listed = [8%N; 7%N].
Proof.
  destruct (getHistory_conversations 5%N 1%Z 20%Z (schoolWorld sampleEnv)
              schoolWorld_reliable ltac:(lia) ltac:(lia))
    as (listed & Hrun & Hlisted & _).
  exists listed. rewrite Hrun, Hlisted. split; reflexivity.
Defined.


Lemma deleteHistory_not_atomic_witness :
  exists w',
    ChatService.deleteHistory 5%N 7%N (schoolWorld thirdCallFailsEnv)
    = (Thrown (InternalServerErrorException "Error al eliminar el historial"), w')
    /\ map m_id (chatMessages w') = [50%N]
    /\ map c_id (conversations w') = [7%N; 8%N; 9%N]
    /\ conversationCache w' !! 7%N = Some 0%nat.
Proof.
  destruct (deleteHistory_not_atomic 5%N 7%N
              {| c_id := 7%N; c_studentId := 5%N; c_title := "Nueva conversación";
                 c_isActive := true; c_lastMessageAt := 21%N; c_messageCount := 21%Z |}
              (schoolWorld thirdCallFailsEnv)
              (JsError "MongoNetworkError" "connection reset" None)
              eq_refl eq_refl eq_refl eq_refl eq_refl)
    as (w' & Hrun & Hmsgs & Hconv & _ & Hcache & _).
  exists w'. rewrite Hrun, Hmsgs, Hconv, Hcache. repeat split.
Defined.


Lemma startNewConversation_single_active_witness :
  exists w',
    ChatService.startNewConversation 5%N None (schoolWorld sampleEnv)
    = (Returned (newConversation 5%N (schoolWorld sampleEnv)), w')
    /\ map c_id (List.filter (activeOf 5%N) (conversations w')) = [100%N]
    /\ map c_isActive (conversations w') = [false; false; true; true].
Proof.
  destruct (startNewConversation_single_active 5%N None (schoolWorld sampleEnv)
              schoolWorld_reliable)
    as (w' & Hrun & Hactive & _).
  { repeat constructor; discriminate. }
  exists w'. split; [exact Hrun|]. rewrite Hactive. split; [reflexivity|].
  assert (Hw : snd (ChatService.startNewConversation 5%N None (schoolWorld sampleEnv)) = w')
    by (rewrite Hrun; reflexivity).
  rewrite <- Hw. vm_compute. reflexivity.
Defined.

Lemma sendMessage_unknown_conversation_witness :
  ChatService.sendMessage
    {| ChatService.studentId := 5%N; ChatService.message := "Hola";
       ChatService.conversationId := Some 77%N |} (schoolWorld sampleEnv)
  = ChatService.sendMessage
      {| ChatService.studentId := 5%N; ChatService.message := "Hola";
         ChatService.conversationId := None |} (schoolWorld sampleEnv).
Proof.
  apply (sendMessage_unknown_conversation
           {| ChatService.studentId := 5%N; ChatService.message := "Hola";
              ChatService.conversationId := Some 77%N |} 77%N (schoolWorld sampleEnv));
    reflexivity.
Defined.


(** ** KnowledgeController: requests without content *)
Section KnowledgeRequests.
Context {num : Type} `{Number num}.
Import KnowledgeController.

(** A request to index that lacks the course or the content, the empty
    content included, is refused with a plain error before the service is
    called: the chunks the course has are not deleted. A search without
    query, the empty one included, gives no result and calls neither the
    provider nor the store. A search with limit 0 is the search without
    limit, which returns at most 3 results; and a request to index with no
    source file, or the empty one, is indexed under [unknown]. *)
Theorem knowledge_requests_blank (arrival : nat -> list nat) (body : IndexBody)
    (query : option string) (courseId : option ObjectId) (limit : option Z)
    (w : World num) :
  (b_courseId body = None \/ blank (b_content body) = true ->
   indexContent arrival body w
   = (Thrown (JsError "Error" "Course ID and content are required" None), w))
  /\ (blank query = true -> search query courseId limit w = (Returned [], w))
  /\ search query courseId (Some 0%Z) w = search query courseId None w
  /\ (forall course text,
        b_courseId body = Some course -> b_content body = Some text ->
        blank (Some text) = false ->
        indexContent arrival body w
        = KnowledgeService.indexCourseContent arrival course text
            (if blank (b_sourceFile body) then "unknown"
             else default "" (b_sourceFile body)) w).
Proof.
  repeat apply conj.
  - unfold indexContent, blank.
    intros [Hcourse|Hcontent].
    + rewrite Hcourse. reflexivity.
    + destruct (b_courseId body); [|reflexivity].
      destruct (b_content body) as [text|]; [|reflexivity].
      rewrite Hcontent. reflexivity.
  - unfold search. intros ->. reflexivity.
  - reflexivity.
  - intros course text Hcourse Hcontent Hblank. unfold indexContent.
    rewrite Hcourse, Hcontent. simpl in Hblank. rewrite Hblank. reflexivity.
Qed.

End KnowledgeRequests.

Lemma knowledge_requests_blank_witness :
  KnowledgeController.indexContent (fun _ => [])
    {| KnowledgeController.b_courseId := Some 1%N;
       KnowledgeController.b_content := Some "";
       KnowledgeController.b_sourceFile := None |}
    (worldOf sampleEnv testChunks [])
  = (Thrown (JsError "Error" "Course ID and content are required" None),
     worldOf sampleEnv testChunks []).
Proof.
  apply (proj1 (knowledge_requests_blank (fun _ => [])
                  {| KnowledgeController.b_courseId := Some 1%N;
                     KnowledgeController.b_content := Some "";
                     KnowledgeController.b_sourceFile := None |}
                  None None None (worldOf sampleEnv testChunks []))).
  right. reflexivity.
Defined.

(** ** KnowledgeService.splitIntoChunks: what the chunks hold *)
Section ChunkContent.
Import JsString KnowledgeService.
Local Open Scope string_scope.

(** The text without its white space. *)
Fixpoint visible (s : string) : string :=
  match s with
  | EmptyString => EmptyString
  | String c rest => if isWhiteSpace c then visible rest else String c (visible rest)
  end.

(** The strings of a list one after the other. *)
Definition flat (l : list string) : string := fold_right String.append "" l.

Lemma append_cons (c : ascii) (a b : string) : String c a ++ b = String c (a ++ b).
Proof. reflexivity. Qed.

Lemma visible_app (a b : string) : visible (a ++ b) = visible a ++ visible b.
Proof.
  induction a as [|c a IH]; [reflexivity|].
  rewrite append_cons. cbn [visible]. destruct (isWhiteSpace c); [exact IH|].
  rewrite append_cons. f_equal. exact IH.
Qed.

Lemma flat_app (l1 l2 : list string) : flat (l1 ++ l2) = flat l1 ++ flat l2.
Proof.
  induction l1 as [|x l1 IH]; [reflexivity|].
  cbn [app flat fold_right]. fold (flat (l1 ++ l2)). fold (flat l1).
  rewrite IH. symmetry. apply append_assoc.
Qed.

Lemma visible_trimStart (s : string) : visible (trimStart s) = visible s.
Proof.
  induction s as [|c s IH]; [reflexivity|]. cbn [trimStart visible].
  destruct (isWhiteSpace c) eqn:Hc; [exact IH|]. cbn [visible]. rewrite Hc. reflexivity.
Qed.

Lemma visible_trimEnd (s : string) : visible (trimEnd s) = visible s.
Proof.
  induction s as [|c s IH]; [reflexivity|]. cbn [trimEnd visible].
  destruct (isWhiteSpace c) eqn:Hc; cbn [andb].
  - destruct (isEmpty (trimEnd s)) eqn:He.
    + apply isEmpty_true in He. rewrite He in IH. rewrite <- IH. reflexivity.
    + cbn [visible]. rewrite Hc. exact IH.
  - cbn [visible]. rewrite Hc. f_equal. exact IH.
Qed.

Lemma visible_trim (s : string) : visible (trim s) = visible s.
Proof. unfold trim. rewrite visible_trimEnd. apply visible_trimStart. Qed.

Lemma splitGo_visible (s cur : string) (mode : SplitMode) :
  (mode = InSeparator -> cur = "") ->
  visible (flat (splitGo cur mode s)) = visible (cur ++ s).
Proof.
  revert cur mode. induction s as [|c s IH]; intros cur mode Hmode.
  - cbn [splitGo flat fold_right]. reflexivity.
  - cbn [splitGo]. destruct mode as [afterEnd|].
    + destruct (afterEnd && isWhiteSpace c) eqn:Hsep.
      * apply andb_prop in Hsep as [_ Hc].
        cbn [flat fold_right]. fold (flat (splitGo "" InSeparator s)).
        rewrite !visible_app, (IH "" InSeparator (fun _ => eq_refl)). cbn [visible].
        rewrite Hc. reflexivity.
      * rewrite (IH _ (InPiece (isSentenceEnd c))) by discriminate.
        rewrite append_assoc. reflexivity.
    + rewrite (Hmode eq_refl). destruct (isWhiteSpace c) eqn:Hc.
      * rewrite (IH "" InSeparator (fun _ => eq_refl)). cbn [String.append visible].
        change ("" ++ String c s) with (String c s). cbn [visible]. rewrite Hc.
        reflexivity.
      * rewrite (IH _ (InPiece (isSentenceEnd c))) by discriminate. reflexivity.
Qed.

Lemma chunkStep_visible (maxChunkSize : Z) (sentences : list string)
    (st : list string * string) :
  let st' := fold_left (chunkStep maxChunkSize) sentences st in
  visible (flat (fst st') ++ snd st')
  = visible (flat (fst st) ++ snd st) ++ visible (flat sentences).
Proof.
  revert st. induction sentences as [|sentence sentences IH]; intros [chunks cur].
  - cbn [fold_left flat fold_right]. cbv zeta. rewrite append_nil_r. reflexivity.
  - cbn [fold_left]. cbv zeta in *. rewrite IH. clear IH.
    cbn [flat fold_right]. fold (flat sentences).
    rewrite (visible_app sentence), <- append_assoc. f_equal.
    unfold chunkStep.
    destruct ((Z.of_nat (String.length (cur ++ sentence)) >? maxChunkSize)%Z
              && negb (isEmpty cur)); cbn [fst snd].
    + rewrite flat_app. cbn [flat fold_right]. rewrite append_nil_r.
      rewrite !visible_app, visible_trim. reflexivity.
    + rewrite !visible_app.
      destruct (isEmpty cur);
        [change (visible "") with "" | change (visible " ") with ""];
        change ("" ++ visible sentence) with (visible sentence);
        rewrite append_assoc; reflexivity.
Qed.

Lemma trimEnd_idem (s : string) : trimEnd (trimEnd s) = trimEnd s.
Proof.
  induction s as [|c s IH]; [reflexivity|]. cbn [trimEnd].
  destruct (isWhiteSpace c && isEmpty (trimEnd s)) eqn:Hcut; [reflexivity|].
  cbn [trimEnd]. rewrite IH, Hcut. reflexivity.
Qed.

Lemma trimStart_head (s : string) :
  trimStart s = ""
  \/ exists c rest, trimStart s = String c rest /\ isWhiteSpace c = false.
Proof.
  induction s as [|c s IH]; [left; reflexivity|]. cbn [trimStart].
  destruct (isWhiteSpace c) eqn:Hc; [exact IH|].
  right. exists c, s. split; [reflexivity | exact Hc].
Qed.

Lemma trim_idem (s : string) : trim (trim s) = trim s.
Proof.
  unfold trim. destruct (trimStart_head s) as [->|(c & rest & -> & Hc)];
    [reflexivity|].
  cbn [trimEnd]. rewrite Hc. cbn [andb trimStart]. rewrite Hc.
  change (trimEnd (String c (trimEnd rest))) with
    (if isWhiteSpace c && isEmpty (trimEnd (trimEnd rest)) then ""
     else String c (trimEnd (trimEnd rest))).
  rewrite Hc. cbn [andb]. rewrite trimEnd_idem. reflexivity.
Qed.

Lemma chunkStep_trimmed (maxChunkSize : Z) (sentences : list string)
    (st : list string * string) :
  Forall (fun chunk => trim chunk = chunk) (fst st) ->
  Forall (fun chunk => trim chunk = chunk)
    (fst (fold_left (chunkStep maxChunkSize) sentences st)).
Proof.
  revert st. induction sentences as [|sentence sentences IH]; intros [chunks cur] Hst;
    [exact Hst|].
  cbn [fold_left]. apply IH. unfold chunkStep.
  destruct ((Z.of_nat (String.length (cur ++ sentence)) >? maxChunkSize)%Z
            && negb (isEmpty cur)); cbn [fst]; [|exact Hst].
  apply Forall_app. split; [exact Hst|]. constructor; [apply trim_idem | constructor].
Qed.

(** The chunks keep the text: stripped of white space, the chunks one
    after the other are the text stripped of white space, so that no
    character other than white space is lost, added or moved; and no chunk
    begins or ends with white space. *)
Theorem splitIntoChunks_keeps_text (text : string) (maxChunkSize : Z) :
  visible (flat (splitIntoChunks text maxChunkSize)) = visible text
  /\ Forall (fun chunk => trim chunk = chunk) (splitIntoChunks text maxChunkSize).
Proof.
  unfold splitIntoChunks.
  pose proof (chunkStep_visible maxChunkSize (splitSentences text) ([], "")) as Hvis.
  pose proof (chunkStep_trimmed maxChunkSize (splitSentences text) ([], "")
                (List.Forall_nil _)) as Htrim.
  cbv zeta in Hvis.
  destruct (fold_left (chunkStep maxChunkSize) (splitSentences text) ([], ""))
    as [chunks cur].
  cbn [fst snd] in Hvis, Htrim. cbn [flat fold_right] in Hvis.
  change (visible ("" ++ "")) with "" in Hvis. change ("" ++ ?x) with x in Hvis.
  unfold splitSentences in Hvis. rewrite splitGo_visible in Hvis by discriminate.
  change ("" ++ text) with text in Hvis.
  destruct (isEmpty cur) eqn:Hcur; cbn [negb].
  - apply isEmpty_true in Hcur. subst cur. rewrite append_nil_r in Hvis.
    split; assumption.
  - split.
    + rewrite flat_app. cbn [flat fold_right]. rewrite append_nil_r.
      rewrite visible_app, visible_trim, <- visible_app. exact Hvis.
    + apply Forall_app. split; [exact Htrim|].
      constructor; [apply trim_idem | constructor].
Qed.

End ChunkContent.

Section ChunkBound.
Import JsString KnowledgeService.
Local Open Scope string_scope.

(** A chunk within the bound the loop keeps: one sentence of the split
    on its own, or at most [maxChunkSize + 1] characters. *)
Definition boundedChunk (sentences : list string) (maxChunkSize : Z) (chunk : string)
    : Prop :=
  (exists sentence, In sentence sentences /\ chunk = trim sentence)
  \/ (Z.of_nat (String.length chunk) <= maxChunkSize + 1)%Z.

Definition boundedBuffer (sentences : list string) (maxChunkSize : Z) (cur : string)
    : Prop :=
  In cur sentences \/ (Z.of_nat (String.length cur) <= maxChunkSize + 1)%Z.

Lemma boundedBuffer_trim (sentences : list string) (maxChunkSize : Z) (cur : string) :
  boundedBuffer sentences maxChunkSize cur ->
  boundedChunk sentences maxChunkSize (trim cur).
Proof.
  intros [Hin|Hlen]; [left; exists cur; split; [exact Hin | reflexivity]|].
  right. pose proof (trim_length cur). lia.
Qed.

Lemma chunkStep_bounded (all : list string) (maxChunkSize : Z) (sentences : list string)
    (st : list string * string) :
  incl sentences all ->
  Forall (boundedChunk all maxChunkSize) (fst st) ->
  (snd st = "" \/ boundedBuffer all maxChunkSize (snd st)) ->
  let st' := fold_left (chunkStep maxChunkSize) sentences st in
  Forall (boundedChunk all maxChunkSize) (fst st')
  /\ (snd st' = "" \/ boundedBuffer all maxChunkSize (snd st')).
Proof.
  revert st. induction sentences as [|sentence sentences IH];
    intros [chunks cur] Hincl Hchunks Hcur; [split; assumption|].
  cbn [fold_left]. apply IH.
  - intros x Hx. apply Hincl. right. exact Hx.
  - unfold chunkStep. cbn [fst snd] in *.
    destruct ((Z.of_nat (String.length (cur ++ sentence)) >? maxChunkSize)%Z
              && negb (isEmpty cur)) eqn:Hpush; cbn [fst]; [|exact Hchunks].
    apply Forall_app. split; [exact Hchunks|]. constructor; [|constructor].
    apply boundedBuffer_trim. destruct Hcur as [->|Hb]; [|exact Hb].
    apply andb_prop in Hpush as [_ Hne]. discriminate.
  - unfold chunkStep. cbn [fst snd] in *.
    destruct ((Z.of_nat (String.length (cur ++ sentence)) >? maxChunkSize)%Z
              && negb (isEmpty cur)) eqn:Hpush; cbn [snd].
    + right. left. apply Hincl. left. reflexivity.
    + right. destruct (isEmpty cur) eqn:Hempty.
      * apply isEmpty_true in Hempty. subst cur. left. apply Hincl. left. reflexivity.
      * right. rewrite andb_true_r in Hpush. rewrite Z.gtb_ltb in Hpush.
        apply Z.ltb_ge in Hpush.
        rewrite !length_append in *. change (String.length " ") with 1. lia.
Qed.

(** The size of the chunks. The loop compares the buffer and the next
    sentence with [maxChunkSize] without the space that will join them:
    every chunk is one sentence of the split on its own, trimmed, or has
    at most [maxChunkSize + 1] characters. *)
Theorem splitIntoChunks_chunk_bound (text : string) (maxChunkSize : Z) :
  Forall (boundedChunk (splitSentences text) maxChunkSize)
    (splitIntoChunks text maxChunkSize).
Proof.
  unfold splitIntoChunks.
  pose proof (chunkStep_bounded (splitSentences text) maxChunkSize (splitSentences text)
                ([], "") (incl_refl _) (List.Forall_nil _) (or_introl eq_refl))
    as [Hchunks Hcur].
  destruct (fold_left (chunkStep maxChunkSize) (splitSentences text) ([], ""))
    as [chunks cur].
  cbn [fst snd] in *.
  destruct (isEmpty cur) eqn:Hempty; cbn [negb]; [exact Hchunks|].
  apply Forall_app. split; [exact Hchunks|]. constructor; [|constructor].
  apply boundedBuffer_trim. destruct Hcur as [->|Hb]; [discriminate | exact Hb].
Qed.

(** A text of white space only gives one chunk, the empty one. *)
Example splitIntoChunks_white_space : splitIntoChunks "   " 1000 = [""].
Proof. reflexivity. Qed.

End ChunkBound.

(** ** KnowledgeService.cosineSimilarity: the order of the arguments *)

(** Multiplication does not depend on the order of its operands. *)
Class MulCommutative (num : Type) `{Number num} : Prop :=
  mul_comm : forall x y : num, num_mul x y = num_mul y x.

Lemma SFmul_comm (x y : spec_float) : SFmul prec emax x y = SFmul prec emax y x.
Proof.
  destruct x as [sx|sx| |sx mx ex], y as [sy|sy| |sy my ey]; simpl;
    rewrite ?(xorb_comm sx sy); try reflexivity.
  rewrite (Pos.mul_comm mx my), (Z.add_comm ex ey). reflexivity.
Qed.

#[global] Instance binary64_mul_comm : MulCommutative PrimFloat.float.
Proof.
  intros x y. unfold num_mul, binary64. apply Prim2SF_inj.
  rewrite !mul_spec. apply SFmul_comm.
Qed.

#[global] Instance exactReal_mul_comm : MulCommutative Rdefinitions.R.
Proof. intros x y. apply Raxioms.Rmult_comm. Qed.

Section CosineSymmetry.
Context {num : Type} `{Number num} `{!MulCommutative num}.
Import KnowledgeService.

Lemma accumulate_swap (a b : list num) (dot na nb : num) :
  fold_left accumulate (combine b a) (dot, nb, na)
  = match fold_left accumulate (combine a b) (dot, na, nb) with
    | (dot', na', nb') => (dot', nb', na')
    end.
Proof.
  revert b dot na nb. induction a as [|x a IH]; intros [|y b] dot na nb;
    try reflexivity.
  cbn [combine fold_left accumulate]. rewrite (mul_comm y x). apply IH.
Qed.

(** The similarity of two vectors does not depend on their order, in the
    arithmetic of the program as in exact arithmetic: the same score, or
    the same refusal when the lengths differ. *)
Theorem cosineSimilarity_symmetric (a b : list num) :
  cosineSimilarity a b = cosineSimilarity b a.
Proof.
  unfold cosineSimilarity. rewrite (Nat.eqb_sym (length b) (length a)).
  destruct (length a =? length b)%nat; [|reflexivity]. cbn [negb].
  rewrite (accumulate_swap a b).
  destruct (fold_left accumulate (combine a b) (num_zero, num_zero, num_zero))
    as [[dot na] nb].
  rewrite (mul_comm (num_sqrt nb) (num_sqrt na)). reflexivity.
Qed.

End CosineSymmetry.

Lemma cosineSimilarity_symmetric_witness :
  KnowledgeService.cosineSimilarity [1; 2; 3]%float [0.5; -4; 2.25]%float
  = KnowledgeService.cosineSimilarity [0.5; -4; 2.25]%float [1; 2; 3]%float.
Proof. apply (cosineSimilarity_symmetric (num:=PrimFloat.float)). Defined.

(** ** The streaming endpoint: what is sent and what is stored *)
Section StreamRoundTrip.
Context {num : Type} `{Number num}.
Import ChatService ChatController.

(** The frames of a response that carry a token, in order. *)
Definition frameTokens (frames : list Frame) : list string :=
  omap (fun f => match f with FrameToken token => Some token | _ => None end) frames.

Lemma frameTokens_tokens (tokens : list string) (rest : list Frame) :
  frameTokens (map FrameToken tokens ++ rest) = tokens ++ frameTokens rest.
Proof.
  induction tokens as [|token tokens IH]; [reflexivity|].
  cbn [map app]. unfold frameTokens. csimpl. f_equal. exact IH.
Qed.

(** On a store that does not reject, a streaming request stores what it
    sent. The response begins with the identifier of the conversation and
    the user message is stored for that conversation before anything is
    generated. When the response ends with the frame [{done, messageId}],
    the assistant message stored under [messageId] for that conversation
    has for content the tokens of the response one after the other, the
    model name [stream] and no count of tokens, and it is the last message
    stored, right after the user message. When the response ends with
    [{error}], the user message is the only message stored. *)
Theorem streamMessage_stores_what_it_sent (dto : SendMessageDto) (w : World num) :
  reliable w ->
  exists id userMessage frames w',
    streamMessage dto w = (FrameConversationId id :: frames, w')
    /\ m_conversationId userMessage = id
    /\ m_role userMessage = user
    /\ m_content userMessage = message dto
    /\ (forall id0 c0, conversationId dto = Some id0 ->
                       find (hasId id0) (conversations w) = Some c0 -> id = id0)
    /\ match last frames with
       | Some (FrameDone messageId) =>
           exists assistantMessage,
             chatMessages w' = chatMessages w ++ [userMessage; assistantMessage]
             /\ m_id assistantMessage = messageId
             /\ m_conversationId assistantMessage = id
             /\ m_role assistantMessage = assistant
             /\ m_content assistantMessage = String.concat "" (frameTokens frames)
             /\ m_metadata assistantMessage
                = Some {| tokensUsed := None; model := Some "stream" |}
       | Some (FrameError _) => chatMessages w' = chatMessages w ++ [userMessage]
       | _ => False
       end.
Proof.
  intros Hrel.
  destruct (streamResolve_reliable dto w Hrel)
    as (c & wb & Eres & Hrelb & _ & Hmsgsb & _ & _ & Hfound).
  destruct (streamTail_run dto c wb Hrelb)
    as (ctx & turns & wg & tokens & out & wg' & _ & _ & _ & _ & Hout).
  exists (c_id c), (userMessageOf dto (c_id c) wb).
  unfold streamMessage. rewrite streamResponse_unfold, Eres.
  destruct out as [[]|e].
  - destruct Hout as (w' & Etail & _ & Hmsgs).
    exists (map FrameToken tokens
            ++ [FrameDone (m_id (streamedMessageOf (String.concat "" tokens) (c_id c) wb))]),
      w'.
    rewrite Etail. cbn [map frameOf]. rewrite map_app, map_map. cbn [map frameOf].
    split; [reflexivity|]. repeat apply conj; try reflexivity.
    + intros id0 c0 Hid Hfind. rewrite (Hfound id0 c0 Hid Hfind).
      apply (find_hasId _ _ _ Hfind).
    + rewrite last_snoc.
      exists (streamedMessageOf (String.concat "" tokens) (c_id c) wb).
      rewrite Hmsgs, Hmsgsb. repeat apply conj; try reflexivity.
      rewrite frameTokens_tokens. cbn. rewrite app_nil_r. reflexivity.
  - destruct Hout as [Etail Hmsgs].
    exists (map FrameToken tokens ++ [FrameError (exn_message e)]), wg'.
    rewrite Etail. cbn [map frameOf app]. rewrite map_map. cbn [frameOf].
    split; [reflexivity|]. repeat apply conj; try reflexivity.
    + intros id0 c0 Hid Hfind. rewrite (Hfound id0 c0 Hid Hfind).
      apply (find_hasId _ _ _ Hfind).
    + rewrite last_snoc. rewrite Hmsgs, Hmsgsb. reflexivity.
Qed.

End StreamRoundTrip.

Lemma streamMessage_stores_what_it_sent_witness :
  exists id userMessage frames w',
    ChatController.streamMessage holaDto (worldOf sampleEnv [] [])
    = (ChatController.FrameConversationId id :: frames, w')
    /\ m_content userMessage = "Hola"
    /\ frameTokens frames = ["a"; "b"]
    /\ map m_content (chatMessages w') = ["Hola"; "ab"].
Proof.
  destruct (streamMessage_stores_what_it_sent holaDto (worldOf sampleEnv [] []))
    as (id & um & frames & w' & Hrun & _ & _ & Hcontent & _ & _).
  { intros n. reflexivity. }
  exists id, um, frames, w'. split; [exact Hrun|]. split; [exact Hcontent|].
  assert (Hall : ChatController.streamMessage holaDto (worldOf sampleEnv [] [])
                 = (ChatController.FrameConversationId id :: frames, w')) by exact Hrun.
  vm_compute in Hall. inversion Hall; subst. split; reflexivity.
Defined.
